(** * Sashimono host agent: lifecycle daemon and message board

    A shallow embedding of the parts of the repository that the
    specification's testable properties talk about:

    - [Comm]  : the daemon's socket transport (src/comm/comm_handler.cpp)
                and the CLI's header decoder (sashi-cli/cli-manager.cpp);
    - [Hp]    : instance creation and destruction with the port allocator
                (src/hp_manager.cpp);
    - [Halt]  : the ledger halt detector of the message board;
    - [MB]    : the message board's lease store, transaction queue, acquire
                and extend handlers and orphan pruner;
    - [Cmd]   : the shell commands and CLI requests built with [sprintf];
    - [Cli]   : the CLI's end of the socket (sashi-cli/cli-manager.cpp);
    - [Loop]  : the daemon's message loop;
    - [Vacant]: the start-up scan for vacant ports;
    - [Lifecycle] : starting, stopping and initiating an instance;
    - [Scheduler], [Acquire], [HaltTrace] : the message board's clock
                scheduler, expiry and termination, the outcomes of an
                acquire, and traces of the halt detector.

    Definitions come first, the theorems about them follow. *)

From Stdlib Require Import ZArith String Bool Lia QArith Qround List.
From Stdlib Require DecimalString.
Import ListNotations.

Open Scope string_scope.
Open Scope list_scope.
Open Scope Z_scope.

(* ================================================================== *)
(** * Part I: the embedding                                            *)
(* ================================================================== *)

(** ** Machine integers *)

Definition to_uint8 (x : Z) : Z := x mod 256.
Definition to_uint16 (x : Z) : Z := x mod 65536.
Definition to_uint32 (x : Z) : Z := x mod 4294967296.
Definition to_size_t (x : Z) : Z := x mod 18446744073709551616.

(** [a[i] = v] on an array held as a list; a store past the end is not
    something the modelled code does, and is dropped here. *)
Fixpoint store {A} (i : nat) (v : A) (a : list A) : list A :=
  match a, i with
  | [], _ => []
  | _ :: t, O => v :: t
  | h :: t, S j => h :: store j v t
  end.

(* ------------------------------------------------------------------ *)
(** ** The socket transport                                            *)
(* ------------------------------------------------------------------ *)

Module Comm.

(** Bytes are [uint8_t] values kept as [Z]; a message is a byte string. *)
Definition bytes := list Z.

Definition DEFAULT_MAX_MSG_SIZE : Z := 1 * 1024 * 1024.
Definition BUFFER_SIZE : Z := 4096.

Record comm_ctx := mk_ctx {
  connection_socket : Z;
  data_socket : Z;
  is_shutting_down : bool
}.

(** The peer's end of the sequenced-packet socket, as the daemon sees it
    through [read] and [write]:
    - [wire]       the records written so far, oldest first;
    - [write_fail] whether each coming [write] returns -1;
    - [inbox]      the records the client has sent and the daemon has
                   not yet received ([None] is a failing [read]). *)
Record sock_io := mk_io {
  wire : list bytes;
  write_fail : list bool;
  inbox : list (option bytes)
}.

(** [write(fd, buf, n)]: one record of the first [n] bytes of [buf]. *)
Definition sys_write (buf : bytes) (n : Z) (io : sock_io) : Z * sock_io :=
  match write_fail io with
  | true :: rest => (-1, mk_io (wire io) rest (inbox io))
  | false :: rest =>
      (n, mk_io (wire io ++ [firstn (Z.to_nat n) buf]) rest (inbox io))
  | [] => (n, mk_io (wire io ++ [firstn (Z.to_nat n) buf]) [] (inbox io))
  end.

(** [read(fd, buf, n)] on a sequenced-packet socket: the next record, cut
    to the [n] bytes the buffer offers; what does not fit is discarded
    with the record.  No record pending is an empty read. *)
Definition sys_read (n : Z) (io : sock_io) : Z * bytes * sock_io :=
  match inbox io with
  | [] => (0, [], io)
  | None :: rest => (-1, [], mk_io (wire io) (write_fail io) rest)
  | Some rec :: rest =>
      let got := firstn (Z.to_nat n) rec in
      (Z.of_nat (length got), got, mk_io (wire io) (write_fail io) rest)
  end.

Definition disconnect (ctx : comm_ctx) : comm_ctx :=
  mk_ctx (connection_socket ctx) (-1) (is_shutting_down ctx).

(** [uint32_to_bytes(dest, x)]: writes [dest[0..3]], nothing else. *)
Definition uint32_to_bytes (dest : bytes) (x : Z) : bytes :=
  let dest := store 0 (to_uint8 (Z.land (Z.shiftr x 24) 255)) dest in
  let dest := store 1 (to_uint8 (Z.land (Z.shiftr x 16) 255)) dest in
  let dest := store 2 (to_uint8 (Z.land (Z.shiftr x 8) 255)) dest in
  let dest := store 3 (to_uint8 (Z.land (Z.shiftr x 0) 255)) dest in
  dest.

(** [comm::send].  [length_buffer] is a local array without initialiser:
    [stack] is what its eight bytes hold when the function is entered.
    [message.length()] is a [size_t] passed as [uint32_t]. *)
Definition send (stack : bytes) (message : bytes)
           (ctx : comm_ctx) (io : sock_io) : Z * comm_ctx * sock_io :=
  if data_socket ctx =? -1 then (-1, ctx, io)
  else
    let length_buffer := stack in
    let length_buffer :=
      uint32_to_bytes length_buffer (to_uint32 (Z.of_nat (length message))) in
    let '(res, io) := sys_write length_buffer 8 io in
    if res =? -1 then (-1, disconnect ctx, io)
    else
      let '(res, io) := sys_write message (Z.of_nat (length message)) io in
      let ctx := disconnect ctx in
      ((if res =? -1 then -1 else 0), ctx, io).

(** [comm::read_socket]: one [read] of at most [BUFFER_SIZE] bytes into
    the global [read_buffer]; returns the byte count and the buffer. *)
Definition read_socket (ctx : comm_ctx) (read_buffer : bytes) (io : sock_io)
  : Z * bytes * sock_io :=
  let '(ret, got, io) := sys_read BUFFER_SIZE io in
  if ret =? -1 then (-1, read_buffer, io)
  else (ret, got ++ skipn (length got) read_buffer, io).

(** The view [handle_message] takes of the buffer:
    [std::string_view msg((char * )read_buffer.data(), message_size)]. *)
Definition message_view (read_buffer : bytes) (message_size : Z) : bytes :=
  firstn (Z.to_nat message_size) read_buffer.

(** [uint32_from_bytes] of the CLI, which reads the header back. *)
Definition uint32_from_bytes (data : bytes) : Z :=
  to_uint32 (Z.shiftl (nth 0 data 0) 24 + Z.shiftl (nth 1 data 0) 16
             + Z.shiftl (nth 2 data 0) 8 + nth 3 data 0).

(** The header a response is sent behind, when one was sent. *)
Definition sent_header (io0 io1 : sock_io) : option bytes :=
  nth_error (wire io1) (length (wire io0)).

(** A started connection and a quiet peer, for the examples. *)
Definition ctx_connected : comm_ctx := mk_ctx 3 4 false.
Definition io_idle : sock_io := mk_io [] [] [].
Definition stack_dirty : bytes := [0; 0; 0; 0; 255; 255; 255; 255].
Definition msg_ok : bytes := [123; 125].
Definition request_5000 : bytes := repeat 32 5000.

End Comm.

(* ------------------------------------------------------------------ *)
(** ** Instance creation, destruction and the port allocator           *)
(* ------------------------------------------------------------------ *)

Module Hp.

(** [struct ports]; the fields are [uint16_t]. *)
Record ports := mk_ports {
  peer_port : Z;
  user_port : Z;
  gp_tcp_port_start : Z;
  gp_udp_port_start : Z
}.

(** [ports::operator==]. *)
Definition ports_eqb (a b : ports) : bool :=
  (peer_port a =? peer_port b) && (user_port a =? user_port b)
  && (gp_tcp_port_start a =? gp_tcp_port_start b)
  && (gp_udp_port_start a =? gp_udp_port_start b).

Record instance_info := mk_info {
  owner_pubkey : string;
  container_name : string;
  contract_dir : string;
  ip : string;
  pubkey : string;
  contract_id : string;
  assigned_ports : ports;
  status : string;
  username : string;
  image_name : string
}.

(** A default-constructed [instance_info]. *)
Definition info_empty : instance_info :=
  mk_info "" "" "" "" "" "" (mk_ports 0 0 0 0) "" "" "".

Definition STATE_CREATED := "created".
Definition STATE_RUNNING := "running".
Definition STATE_STOPPED := "stopped".
Definition STATE_DESTROYED := "destroyed".
Definition STATE_EXITED := "exited".

Definition DB_READ_ERROR := "db_read_error".
Definition DB_WRITE_ERROR := "db_write_error".
Definition USER_INSTALL_ERROR := "user_install_error".
Definition USER_UNINSTALL_ERROR := "user_uninstall_error".
Definition INSTANCE_ERROR := "instance_error".
Definition NO_CONTAINER := "no_container".
Definition MAX_ALLOCATION_REACHED := "max_alloc_reached".
Definition CONTRACT_ID_INVALID := "contractid_bad_format".
Definition INSTANCE_ALREADY_EXISTS := "instance_already_exists".

(** The part of [conf::cfg] the allocator reads. *)
Record hp_conf := mk_conf {
  max_instance_count : Z;
  init_peer_port : Z;
  init_user_port : Z;
  init_gp_tcp_port : Z;
  init_gp_udp_port : Z;
  host_address : string
}.

(** The [sqlite::] functions [hp_manager.cpp] calls on the instance
    table.  Their bodies (sqlite.cpp) are not among the sources, so the
    manager is modelled over this interface; [None] stands for the
    return value that means "no row" or "failed", and a failed write
    leaves the table as it was. *)
Class Sqlite (DB : Type) := {
  get_instance : DB -> string -> option instance_info;
  get_allocated_instance_count : DB -> Z;
  get_max_ports : DB -> ports -> ports;
  insert_hp_instance_row : DB -> instance_info -> option DB;
  delete_hp_instance : DB -> string -> option DB;
  is_container_exists : DB -> string -> option instance_info
}.

(** What the daemon asks of the operating system: the install and
    uninstall scripts, the contract template copy and the container
    runtime. *)
Inductive os_call :=
| OsInstallUser (container : string) (p : ports) (image : string)
| OsCreateContract (user : string) (dir : string) (p : ports)
| OsCreateContainer (user image container dir : string) (p : ports)
| OsDockerRemove (user container : string)
| OsUninstallUser (user : string) (p : ports) (container : string).

(** How the operating system answers.  The scripts' and the runtime's
    results are inputs of the model. *)
Record os_env := mk_os {
  verify_uuid : string -> bool;
  install_user_res : string -> ports -> option (Z * string);
  create_contract_res : string -> string -> option string;
  create_container_res : string -> string -> bool;
  docker_remove_res : string -> string -> bool;
  uninstall_user_res : string -> string -> bool;
  get_user_contract_dir : string -> string -> string
}.

Section Manager.
Context {DB : Type} {SQL : Sqlite DB}.
Variable cfg : hp_conf.
Variable os : os_env.

(** The globals of [namespace hp] that creation and destruction touch,
    with the trace of requests made to the operating system. *)
Record hp_state := mk_state {
  db : DB;
  vacant_ports : list ports;
  last_assigned_ports : ports;
  last_port_assign_from_vacant : bool;
  os_trace : list os_call
}.

Definition log_os (c : os_call) (st : hp_state) : hp_state :=
  mk_state (db st) (vacant_ports st) (last_assigned_ports st)
           (last_port_assign_from_vacant st) (os_trace st ++ [c]).

Definition install_user (container : string) (p : ports) (image : string)
           (st : hp_state) : option (Z * string) * hp_state :=
  (install_user_res os container p, log_os (OsInstallUser container p image) st).

Definition uninstall_user (user : string) (p : ports) (container : string)
           (st : hp_state) : Z * hp_state :=
  ((if uninstall_user_res os user container then 0 else -1),
   log_os (OsUninstallUser user p container) st).

Definition docker_remove (user container : string) (st : hp_state)
  : Z * hp_state :=
  ((if docker_remove_res os user container then 0 else -1),
   log_os (OsDockerRemove user container) st).

(** [create_contract]: on success the generated key and the contract's
    fields are written to [info]. *)
Definition create_contract (user owner contract dir : string) (p : ports)
           (info : instance_info) (st : hp_state)
  : Z * instance_info * hp_state :=
  let st := log_os (OsCreateContract user dir p) st in
  match create_contract_res os user dir with
  | None => (-1, info, st)
  | Some pubkey_hex =>
      (0, mk_info owner (container_name info) dir (host_address cfg)
                  pubkey_hex contract p STATE_CREATED user (image_name info),
       st)
  end.

(** [create_container]. *)
Definition create_container (user image container dir : string) (p : ports)
           (info : instance_info) (st : hp_state)
  : Z * instance_info * hp_state :=
  let st := log_os (OsCreateContainer user image container dir p) st in
  if create_container_res os user container then
    (0, mk_info (owner_pubkey info) container dir (ip info) (pubkey info)
                (contract_id info) (assigned_ports info) (status info)
                (username info) image,
     st)
  else (-1, info, st).

(** [image_name.substr(0, image_name.find("--"))]. *)
Fixpoint strip_image_suffix (s : string) : string :=
  match s with
  | EmptyString => EmptyString
  | String c rest =>
      if String.prefix "--" s then EmptyString
      else String c (strip_image_suffix rest)
  end.

(** The tuple after [p]: +1 on the peer and user ports, +2 on the
    start of each general-purpose pair, in [uint16_t]. *)
Definition next_ports (p : ports) : ports :=
  mk_ports (to_uint16 (peer_port p + 1)) (to_uint16 (user_port p + 1))
           (to_uint16 (gp_tcp_port_start p + 2))
           (to_uint16 (gp_udp_port_start p + 2)).

(** The base from which a fresh tuple is counted: the last assigned
    tuple, re-read from the table when the previous allocation came
    from the vacant list (as it does right after start-up). *)
Definition fresh_base (st : hp_state) : ports :=
  if last_port_assign_from_vacant st
  then get_max_ports (db st) (last_assigned_ports st)
  else last_assigned_ports st.

(** Lines 170-185 of [create_new_instance]: the choice of the ports. *)
Definition pick_ports (st : hp_state) : ports * hp_state :=
  match rev (vacant_ports st) with
  | back :: _ =>
      (back, mk_state (db st) (vacant_ports st) (last_assigned_ports st)
                      true (os_trace st))
  | [] =>
      let st :=
        if last_port_assign_from_vacant st then
          mk_state (db st) (vacant_ports st)
                   (get_max_ports (db st) (last_assigned_ports st))
                   false (os_trace st)
        else st in
      (next_ports (last_assigned_ports st), st)
  end.

(** Lines 224-227: the allocation is committed. *)
Definition commit_ports (p : ports) (db' : DB) (st : hp_state) : hp_state :=
  if last_port_assign_from_vacant st then
    mk_state db' (removelast (vacant_ports st)) (last_assigned_ports st)
             (last_port_assign_from_vacant st) (os_trace st)
  else
    mk_state db' (vacant_ports st) p
             (last_port_assign_from_vacant st) (os_trace st).

(** [hp::create_new_instance]: return value, [error_msg], [info] and
    the globals afterwards. *)
Definition create_new_instance (info : instance_info)
           (container owner contract image ipv6 netif : string)
           (st : hp_state) : Z * string * instance_info * hp_state :=
  match get_instance (db st) container with
  | Some _ => (-1, INSTANCE_ALREADY_EXISTS, info, st)
  | None =>
    let allocated_count := get_allocated_instance_count (db st) in
    if allocated_count =? -1 then (-1, DB_READ_ERROR, info, st)
    else if to_size_t allocated_count >=? max_instance_count cfg then
      (-1, MAX_ALLOCATION_REACHED, info, st)
    else if negb (verify_uuid os contract) then
      (-1, CONTRACT_ID_INVALID, info, st)
    else
      let image_name := image in
      let '(instance_ports, st) := pick_ports st in
      let '(installed, st) := install_user container instance_ports image_name st in
      match installed with
      | None => (-1, USER_INSTALL_ERROR, info, st)
      | Some (user_id, username) =>
        let contract_dir := get_user_contract_dir os username container in
        let image_name := strip_image_suffix image_name in
        let '(r1, info, st) :=
          create_contract username owner contract contract_dir
                          instance_ports info st in
        let '(r2, info, st) :=
          if r1 =? -1 then (-1, info, st)
          else create_container username image_name container contract_dir
                                instance_ports info st in
        if r2 =? -1 then
          let '(_, st) := uninstall_user username instance_ports container st in
          (-1, INSTANCE_ERROR, info, st)
        else
          match insert_hp_instance_row (db st) info with
          | None =>
              let '(_, st) := docker_remove username container st in
              let '(_, st) := uninstall_user username instance_ports container st in
              (-1, DB_WRITE_ERROR, info, st)
          | Some db' => (0, "", info, commit_ports instance_ports db' st)
          end
      end
  end.

(** The tuple [destroy_container] returns to the vacant list. *)
Definition freed_ports (p : ports) : ports :=
  if gp_tcp_port_start p =? 0 then
    let increment := to_uint16 ((peer_port p - init_peer_port cfg) * 2) in
    let gp_tcp := to_uint16 (init_gp_tcp_port cfg + increment) in
    let gp_udp := to_uint16 (init_gp_udp_port cfg + increment) in
    mk_ports (user_port p) (peer_port p) gp_tcp gp_udp
  else p.

(** [hp::destroy_container]. *)
Definition destroy_container (container : string) (st : hp_state)
  : Z * string * hp_state :=
  match is_container_exists (db st) container with
  | None => (-1, NO_CONTAINER, st)
  | Some info =>
    let '(r, st) := uninstall_user (username info) (assigned_ports info)
                                   container st in
    if r =? -1 then (-1, USER_UNINSTALL_ERROR, st)
    else
      match delete_hp_instance (db st) container with
      | None => (-1, USER_UNINSTALL_ERROR, st)
      | Some db' =>
        let vacant :=
          if existsb (ports_eqb (assigned_ports info)) (vacant_ports st)
          then vacant_ports st
          else vacant_ports st ++ [freed_ports (assigned_ports info)] in
        (0, "", mk_state db' vacant (last_assigned_ports st)
                         (last_port_assign_from_vacant st) (os_trace st))
      end
  end.

(** Two states of the manager that differ at most in the trace. *)
Definition same_globals (a b : hp_state) : Prop :=
  db a = db b /\ vacant_ports a = vacant_ports b
  /\ last_assigned_ports a = last_assigned_ports b
  /\ last_port_assign_from_vacant a = last_port_assign_from_vacant b.

End Manager.

Arguments hp_state DB : clear implicits.
Arguments mk_state {DB}.

(** *** A table held as a list

    Used to run the manager on concrete hosts. *)

Record list_db := mk_db {
  rows : list instance_info;
  writable : bool
}.

Definition named (name : string) (i : instance_info) : bool :=
  (container_name i =? name)%string.

Definition live (i : instance_info) : bool :=
  negb (status i =? STATE_DESTROYED)%string.

Definition column_max (f : ports -> Z) (l : list instance_info) : Z :=
  fold_right Z.max 0 (map (fun i => f (assigned_ports i)) l).

(** Modelled from the spec: [sqlite::get_max_ports] is not among the
    sources.  It loads the largest ports held by a non-destroyed
    instance; on a host without instances it yields the tuple just
    before the configured initial ports, so that the first instance is
    given exactly those (scenario S1). *)
Definition list_get_max_ports (cfg : hp_conf) (d : list_db) (old : ports)
  : ports :=
  let l := filter live (rows d) in
  if (column_max peer_port l =? 0) || (column_max user_port l =? 0) then
    mk_ports (to_uint16 (init_peer_port cfg - 1))
             (to_uint16 (init_user_port cfg - 1))
             (to_uint16 (init_gp_tcp_port cfg - 2))
             (to_uint16 (init_gp_udp_port cfg - 2))
  else
    mk_ports (column_max peer_port l) (column_max user_port l)
             (column_max gp_tcp_port_start l)
             (column_max gp_udp_port_start l).

(** Modelled from the spec: the remaining [sqlite::] calls on the
    instance table (primary key [container_name], destroyed rows are
    skipped by the readers, rows are hard-deleted). *)
Definition list_sqlite (cfg : hp_conf) : Sqlite list_db := {|
  get_instance d name := find (fun i => named name i && live i) (rows d);
  get_allocated_instance_count d :=
    Z.of_nat (length (filter live (rows d)));
  get_max_ports := list_get_max_ports cfg;
  insert_hp_instance_row d i :=
    if writable d then Some (mk_db (rows d ++ [i]) (writable d)) else None;
  delete_hp_instance d name :=
    if writable d
    then Some (mk_db (filter (fun i => negb (named name i)) (rows d))
                     (writable d))
    else None;
  is_container_exists d name := find (named name) (rows d)
|}.

(** *** Concrete hosts for the examples *)

(** The configuration of scenario S1. *)
Definition cfg_s1 : hp_conf := mk_conf 3 22861 26201 36525 39064 "203.0.113.7".

Definition os_fine : os_env :=
  mk_os (fun _ => true)
        (fun c _ => Some (1001, String.append "sashi" c))
        (fun _ _ => Some "ED01")
        (fun _ _ => true) (fun _ _ => true) (fun _ _ => true)
        (fun u c => String.append "/home/" (String.append u (String.append "/" c))).

(** The container runtime refuses to create the container. *)
Definition os_no_container : os_env :=
  mk_os (fun _ => true)
        (fun c _ => Some (1001, String.append "sashi" c))
        (fun _ _ => Some "ED01")
        (fun _ _ => false) (fun _ _ => true) (fun _ _ => true)
        (fun u c => String.append "/home/" (String.append u (String.append "/" c))).

Definition ports_s1 : ports := mk_ports 22861 26201 36525 39064.
Definition ports_s1_next : ports := mk_ports 22862 26202 36527 39066.

Definition inst (name : string) (p : ports) : instance_info :=
  mk_info "OWNER" name (String.append "/home/sashi/" name) "203.0.113.7"
          "ED01" "CID" p STATE_RUNNING (String.append "sashi" name) "img".

(** A daemon that has just started on a host with one instance. *)
Definition st_started : hp_state list_db :=
  mk_state (mk_db [inst "T1" ports_s1] true) [] (mk_ports 0 0 0 0) true [].

(** The same host when the instance table cannot be written. *)
Definition st_readonly : hp_state list_db :=
  mk_state (mk_db [inst "T1" ports_s1] false) [] (mk_ports 0 0 0 0) true [].

(** One instance made by a release that had no general-purpose ports. *)
Definition st_legacy : hp_state list_db :=
  mk_state (mk_db [inst "T1" (mk_ports 22861 26201 0 0)] true) []
           (mk_ports 22861 26201 0 0) false [].

(** Two running instances, nothing vacant, [T2] allocated last. *)
Definition st_two : hp_state list_db :=
  mk_state (mk_db [inst "T1" ports_s1; inst "T2" ports_s1_next] true) []
           ports_s1_next false [].

(** A create and a destroy request on the S1 host. *)
Definition create_s1 (os : os_env) (name : string) (st : hp_state list_db)
  : Z * string * instance_info * hp_state list_db :=
  create_new_instance (SQL := list_sqlite cfg_s1) cfg_s1 os info_empty
                      name "OWNER" "CID" "img--dev" "-" "-" st.

Definition destroy_s1 (os : os_env) (name : string) (st : hp_state list_db)
  : Z * string * hp_state list_db :=
  destroy_container (SQL := list_sqlite cfg_s1) cfg_s1 os name st.

End Hp.

(* ------------------------------------------------------------------ *)
(** ** The ledger halt detector                                        *)
(* ------------------------------------------------------------------ *)

Module Halt.

(** Times are wall-clock milliseconds ([getCurrentUnixTime('milli')]);
    a JS number that need not be whole is a rational. *)

Definition graceThreshold : Q := 25 # 100.
Definition haltTimeout : Z := 60.

(** A pending [setTimeout]: when it was armed and its delay. *)
Record timeout := mk_timeout {
  armed_at : Z;
  delay : Q
}.

Definition deadline (t : timeout) : Q :=
  (inject_Z (armed_at t) + delay t)%Q.

(** The fields of [MessageBoard] the detector uses.  [lastLedgerTime]
    is [undefined] until the first ledger event, [lastHaltedTime] and
    [graceTimeoutRef] start as [null]. *)
Record halt_state := mk_halt {
  xrplHalted : bool;
  lastHaltedTime : option Z;
  graceTimeoutRef : option timeout;
  lastLedgerTime : option Z
}.

Definition halt_init : halt_state := mk_halt false None None None.

(** [null] in arithmetic is 0. *)
Definition null_to_num (x : option Z) : Z :=
  match x with Some v => v | None => 0 end.

(** The handler of [XrplApiEvents.LEDGER]. *)
Definition on_ledger (now : Z) (st : halt_state) : halt_state :=
  mk_halt (xrplHalted st) (lastHaltedTime st) (graceTimeoutRef st) (Some now).

(** [#checkLedgersForHalt] run at [currentTime].  With [lastLedgerTime]
    undefined the difference is NaN and both tests are false. *)
Definition checkLedgersForHalt (currentTime : Z) (st : halt_state)
  : halt_state :=
  match lastLedgerTime st with
  | None => st
  | Some llt =>
    let lastLedgerTimeDifference := currentTime - llt in
    let st :=
      if lastLedgerTimeDifference >=? haltTimeout * 1000 then
        if negb (xrplHalted st) then
          mk_halt true (lastLedgerTime st) (graceTimeoutRef st)
                  (lastLedgerTime st)
        else
          match graceTimeoutRef st with
          | Some _ =>
              mk_halt (xrplHalted st) (lastHaltedTime st) None
                      (lastLedgerTime st)
          | None => st
          end
      else st in
    if xrplHalted st && (lastLedgerTimeDifference <? haltTimeout * 1000)
       && match graceTimeoutRef st with None => true | Some _ => false end
    then
      let haltedDuration := currentTime - null_to_num (lastHaltedTime st) in
      let gracePeriod := (inject_Z haltedDuration * graceThreshold)%Q in
      mk_halt (xrplHalted st) (lastHaltedTime st)
              (Some (mk_timeout currentTime gracePeriod))
              (lastLedgerTime st)
    else st
  end.

(** The timer's callback, run by the event loop once the delay has
    passed.  (The runtime shortens delays above 2^31 - 1 ms, some 25
    days; a grace that long is outside this model.) *)
Definition fire_due (now : Z) (st : halt_state) : halt_state :=
  match graceTimeoutRef st with
  | Some t =>
      if Qle_bool (deadline t) (inject_Z now)
      then mk_halt false (lastHaltedTime st) None (lastLedgerTime st)
      else st
  | None => st
  end.

(** What reaches the detector: ledger events and the clock scheduler's
    ticks, each with its time. *)
Inductive event :=
| Ledger (t : Z)
| Check (t : Z).

Definition time_of (e : event) : Z :=
  match e with Ledger t => t | Check t => t end.

Definition step (st : halt_state) (e : event) : halt_state :=
  let st := fire_due (time_of e) st in
  match e with
  | Ledger t => on_ledger t st
  | Check t => checkLedgersForHalt t st
  end.

Definition run (es : list event) (st : halt_state) : halt_state :=
  fold_left step es st.

(** The flag as seen at time [t], after the events up to [t]. *)
Definition halted_at (es : list event) (t : Z) : bool :=
  xrplHalted
    (fire_due t (run (filter (fun e => time_of e <=? t) es) halt_init)).

(** Scenario S6: a ledger event every second from 0 to 59 s and again
    from 240 s on; the scheduler ticks every two seconds. *)
Definition s6_second (s : Z) : list event :=
  (if (s <=? 59) || (240 <=? s) then [Ledger (1000 * s)] else [])
  ++ (if (0 <? s) && (s mod 2 =? 0) then [Check (1000 * s)] else []).

Definition s6_events : list event :=
  flat_map s6_second (map Z.of_nat (seq 0 300)).

End Halt.

(* ------------------------------------------------------------------ *)
(** ** The message board                                               *)
(* ------------------------------------------------------------------ *)

Module MB.

(** *** Data *)

Inductive LeaseStatus :=
| ACQUIRING | ACQUIRED | FAILED | DESTROYED | BURNED | SASHI_TIMEOUT
| EXTENDED.

Definition status_eqb (a b : LeaseStatus) : bool :=
  match a, b with
  | ACQUIRING, ACQUIRING | ACQUIRED, ACQUIRED | FAILED, FAILED
  | DESTROYED, DESTROYED | BURNED, BURNED
  | SASHI_TIMEOUT, SASHI_TIMEOUT | EXTENDED, EXTENDED => true
  | _, _ => false
  end.

(** A row of the [leases] table. *)
Record LeaseRow := mk_lease {
  timestamp : Z;
  tx_hash : string;
  tenant_xrp_address : string;
  life_moments : Z;
  container_name : string;
  created_on_ledger : option Z;
  status : LeaseStatus
}.

(** An entry of [expiryList]. *)
Record ExpiryItem := mk_expiry {
  txHash : string;
  containerName : string;
  tenant : string;
  expiryTimestamp : Z
}.

(** A row of the daemon's [instances] table, as the pruner reads it. *)
Record SashiInstance := mk_sashi {
  name : string;
  time : Z
}.

(** A lease token with its URI decoded ([decodeLeaseTokenUri]). *)
Record OutboundIP := mk_ip {
  family : Z;
  address : string
}.

Record UriInfo := mk_uri {
  leaseIndex : Z;
  leaseAmount : Q;
  outboundIP : option OutboundIP
}.

Record UriToken := mk_token {
  index : string;
  Owner : string;
  URI : UriInfo
}.

(** [uriInfo.outboundIP?.address]. *)
Definition ip_address (u : UriInfo) : option string :=
  option_map address (outboundIP u).

(** What a thrown value shows to the handlers that catch it: [e.type],
    [e.content] and [e.status].  A thrown string has none of them. *)
Inductive Content :=
| CStr (s : string)
| CObj (instance_name : string) (error : string).

Record Exn := mk_exn {
  e_type : option string;
  e_content : option Content;
  e_status : option string
}.

Definition throw_str : Exn := mk_exn None None None.
Definition TypeError : Exn := mk_exn (Some "TypeError") None None.

(** [createRes.content] of the daemon's create reply. *)
Record CreateRes := mk_create_res {
  cr_name : string;
  cr_ip : string
}.

(** The transactions the board submits through the host client. *)
Inductive Tx :=
| updateRegInfo (activeInstanceCount : Z)
| expireLease (uriTokenId : string)
| offerLease (leaseIndex : Z) (leaseAmount : Q) (outboundIP : option string)
| acquireSuccess (acquireRefId tenant instance domain : string)
| acquireError (acquireRefId tenant : string) (leaseAmount : Q)
               (reason : Content)
| extendSuccess (extendRefId tenant : string) (expiryMoment : Z)
| extendError (extendRefId tenant : string) (reason : Content) (amount : Q)
| refundTenant (txHash tenant : string) (amount : Q).


(** The closures handed to [#queueAction], one constructor per closure
    of the source, with the variables it captures. *)
Inductive Callback :=
| CbRecreateLeaseOffer (uriTokenId : string) (leaseIndex : Z)
                       (outboundIP : option string) (noLeaseRecord : bool)
| CbExpiredRegInfo
| CbAcquireSuccess (acquireRefId tenant : string) (createRes : CreateRes)
                   (outbound : option string)
                   (currentLedgerIndex createdTimestamp : Z)
| CbAcquireError (acquireRefId tenant : string) (leaseAmount : Q)
                 (reason : Content)
| CbExtendSuccess (extendRefId tenant : string) (expiryMoment : Z)
| CbExtendError (extendRefId tenant : string) (reason : Content) (amount : Q)
| CbRefundTenant (leaseTxHash owner : string) (amount : Q)
| CbRefundIfAcquiring (leaseStatus : LeaseStatus)
                      (leaseTxHash owner : string) (amount : Q)
| CbPrunedRegInfo (activeInstanceCount : Z).

(** [submissionRefs]: [refs] is absent until the callback's first run;
    each ref holds the hash of the submission made through it, if any. *)
Definition Refs := option (list (option string)).

(** An entry of [#concurrencyQueue.queue]. *)
Record Action := mk_action {
  callback : Callback;
  submissionRefs : Refs;
  attempts : Z;
  maxAttempts : Z;
  delay : Z
}.

(** Requests made to the lifecycle daemon through the CLI wrapper. *)
Inductive SashiCall :=
| SashiWait
| SashiCreate (name : string)
| SashiDestroy (name : option string).

(** The board's state: its two tables, the in-memory fields of
    [MessageBoard], the daemon's instance table, and the traces of what
    was submitted to the ledger and asked of the daemon.  [now] is
    [getCurrentUnixTime()] in seconds. *)
Record World := mk_world {
  leases : list LeaseRow;
  lastWatchedLedger : Z;
  expiryList : list ExpiryItem;
  activeInstanceCount : Z;
  queue : list Action;
  parked : list Action;
  applyFeeUpliftment : bool;
  feeUpliftment : Z;
  sashiInstances : list SashiInstance;
  ledgerLog : list Tx;
  sashiLog : list SashiCall;
  now : Z
}.

(** How a submission ends: the hash left in the submission ref, if the
    transaction got that far, and the error thrown, if any. *)
Record Outcome := mk_outcome {
  recorded : option string;
  thrown : option Exn
}.

(** The collaborators outside the sources: configuration, the ledger
    client and the daemon's CLI wrapper.  The ledger answers a submission
    by its position in the log and its content. *)
Record Env := mk_env {
  cfg_address : string;
  cfg_leaseAmount : Q;
  cfg_affordableExtraFee : Q;
  cfg_ipv6_interface : string;
  host_address : string;
  purchaserTargetPrice : Q;
  leaseAcquireWindow : Z;
  momentSize : Z;
  lastValidatedLedgerIndex : Z;
  getLeaseByIndex : string -> option UriToken;
  getMoment : Z -> Z;
  submit_outcome : nat -> Tx -> Outcome;
  getTransactionValidatedResults : string -> bool;
  sashi_wait : Z;
  sashi_create : string -> Z * (Exn + CreateRes);
  sashi_destroy : option string -> option Exn
}.

Definition ACQUIRE_LEASE_TIMEOUT_THRESHOLD : Q := 8 # 10.
Definition ACQUIRE_LEASE_WAIT_TIMEOUT_THRESHOLD : Q := 4 # 10.

(** *** Computations that may throw *)

Inductive Res (A : Type) :=
| Ok (a : A)
| Thrown (e : Exn).
Arguments Ok {A} a.
Arguments Thrown {A} e.

Definition M (S A : Type) : Type := S -> Res A * S.

Definition ret {S A} (a : A) : M S A := fun s => (Ok a, s).

Definition bind {S A B} (m : M S A) (k : A -> M S B) : M S B :=
  fun s => match m s with
           | (Ok a, s') => k a s'
           | (Thrown e, s') => (Thrown e, s')
           end.

Definition throw {S A} (e : Exn) : M S A := fun s => (Thrown e, s).

Definition get {S} : M S S := fun s => (Ok s, s).
Definition modify {S} (f : S -> S) : M S unit := fun s => (Ok tt, f s).

(** [try { m } catch (e) { h e }]. *)
Definition try_catch {S A} (m : M S A) (h : Exn -> M S A) : M S A :=
  fun s => match m s with
           | (Ok a, s') => (Ok a, s')
           | (Thrown e, s') => h e s'
           end.

(** [m.catch(console.error)]. *)
Definition swallow {S} (m : M S unit) : M S unit :=
  try_catch m (fun _ => ret tt).

Definition when {S} (b : bool) (m : M S unit) : M S unit :=
  if b then m else ret tt.

(** A computation on the second component of the state. *)
Definition lift_snd {L S A} (m : M S A) : M (L * S) A :=
  fun ls => let '(r, s') := m (snd ls) in (r, (fst ls, s')).

Declare Scope mb_scope.
Delimit Scope mb_scope with mb.
Notation "x <- m ;; k" := (bind m (fun x => k))
  (at level 61, m at next level, right associativity) : mb_scope.
Notation "m ;;; k" := (bind m (fun _ => k))
  (at level 61, right associativity) : mb_scope.
Open Scope mb_scope.

(** *** State updates *)

Definition set_leases (l : list LeaseRow) (w : World) : World :=
  mk_world l (lastWatchedLedger w) (expiryList w) (activeInstanceCount w)
           (queue w) (parked w) (applyFeeUpliftment w) (feeUpliftment w)
           (sashiInstances w) (ledgerLog w) (sashiLog w) (now w).

Definition set_lastWatchedLedger (i : Z) (w : World) : World :=
  mk_world (leases w) i (expiryList w) (activeInstanceCount w)
           (queue w) (parked w) (applyFeeUpliftment w) (feeUpliftment w)
           (sashiInstances w) (ledgerLog w) (sashiLog w) (now w).

Definition set_expiryList (l : list ExpiryItem) (w : World) : World :=
  mk_world (leases w) (lastWatchedLedger w) l (activeInstanceCount w)
           (queue w) (parked w) (applyFeeUpliftment w) (feeUpliftment w)
           (sashiInstances w) (ledgerLog w) (sashiLog w) (now w).

Definition set_activeInstanceCount (n : Z) (w : World) : World :=
  mk_world (leases w) (lastWatchedLedger w) (expiryList w) n
           (queue w) (parked w) (applyFeeUpliftment w) (feeUpliftment w)
           (sashiInstances w) (ledgerLog w) (sashiLog w) (now w).

Definition set_queue (q : list Action) (w : World) : World :=
  mk_world (leases w) (lastWatchedLedger w) (expiryList w)
           (activeInstanceCount w) q (parked w) (applyFeeUpliftment w)
           (feeUpliftment w) (sashiInstances w) (ledgerLog w) (sashiLog w)
           (now w).

Definition set_parked (q : list Action) (w : World) : World :=
  mk_world (leases w) (lastWatchedLedger w) (expiryList w)
           (activeInstanceCount w) (queue w) q (applyFeeUpliftment w)
           (feeUpliftment w) (sashiInstances w) (ledgerLog w) (sashiLog w)
           (now w).

Definition set_uplift (apply : bool) (fee : Z) (w : World) : World :=
  mk_world (leases w) (lastWatchedLedger w) (expiryList w)
           (activeInstanceCount w) (queue w) (parked w) apply fee
           (sashiInstances w) (ledgerLog w) (sashiLog w) (now w).

Definition set_sashiInstances (l : list SashiInstance) (w : World) : World :=
  mk_world (leases w) (lastWatchedLedger w) (expiryList w)
           (activeInstanceCount w) (queue w) (parked w)
           (applyFeeUpliftment w) (feeUpliftment w) l (ledgerLog w)
           (sashiLog w) (now w).

Definition log_tx (t : Tx) (w : World) : World :=
  mk_world (leases w) (lastWatchedLedger w) (expiryList w)
           (activeInstanceCount w) (queue w) (parked w)
           (applyFeeUpliftment w) (feeUpliftment w) (sashiInstances w)
           (ledgerLog w ++ [t]) (sashiLog w) (now w).

Definition log_sashi (c : SashiCall) (w : World) : World :=
  mk_world (leases w) (lastWatchedLedger w) (expiryList w)
           (activeInstanceCount w) (queue w) (parked w)
           (applyFeeUpliftment w) (feeUpliftment w) (sashiInstances w)
           (ledgerLog w) (sashiLog w ++ [c]) (now w).

Definition advance_clock (secs : Z) (w : World) : World :=
  mk_world (leases w) (lastWatchedLedger w) (expiryList w)
           (activeInstanceCount w) (queue w) (parked w)
           (applyFeeUpliftment w) (feeUpliftment w) (sashiInstances w)
           (ledgerLog w) (sashiLog w) (now w + secs).

(** *** The lease table *)

(** Modelled from the spec: the [SqliteDatabase] wrapper
    (sqlite-handler.js) is not among the sources.  A filter
    [{tx_hash: h}] of [getValues], [updateValue] or [deleteValues]
    selects the rows whose key is [h]; an [undefined] value selects no
    row. *)
Definition has_tx (h : option string) (r : LeaseRow) : bool :=
  match h with
  | Some h => (tx_hash r =? h)%string
  | None => false
  end.

(** Modelled from the spec: the wrapper's filter [{container_name: c}]. *)
Definition has_container (c : string) (r : LeaseRow) : bool :=
  (container_name r =? c)%string.

Definition with_status (s : LeaseStatus) (r : LeaseRow) : LeaseRow :=
  mk_lease (timestamp r) (tx_hash r) (tenant_xrp_address r) (life_moments r)
           (container_name r) (created_on_ledger r) s.

(** Modelled from the spec: the wrapper's [updateValue] rewrites the
    selected rows in place, in table order. *)
Definition db_update (p : LeaseRow -> bool) (f : LeaseRow -> LeaseRow)
           (l : list LeaseRow) : list LeaseRow :=
  map (fun r => if p r then f r else r) l.

(** Modelled from the spec: the wrapper's [deleteValues] removes the
    selected rows. *)
Definition db_delete (p : LeaseRow -> bool) (l : list LeaseRow)
  : list LeaseRow :=
  filter (fun r => negb (p r)) l.

(** Modelled from the spec: the wrapper's [insertValue] appends the row;
    [tx_hash] is the table's primary key ([createLeaseTableIfNotExists]),
    so a key already present makes the insert fail. *)
Definition db_insert (row : LeaseRow) (l : list LeaseRow)
  : option (list LeaseRow) :=
  if existsb (has_tx (Some (tx_hash row))) l then None else Some (l ++ [row]).

(** [getLeaseTxHash]: [leaseData[0]?.tx_hash]. *)
Definition getLeaseTxHash (c : string) (w : World) : option string :=
  option_map tx_hash (find (has_container c) (leases w)).

(** [getLeaseStatus]: [leaseData[0]?.status]. *)
Definition getLeaseStatus (h : option string) (w : World)
  : option LeaseStatus :=
  option_map status (find (has_tx h) (leases w)).

Definition updateLeaseStatus (h : option string) (s : LeaseStatus)
           (w : World) : World :=
  set_leases (db_update (has_tx h) (with_status s) (leases w)) w.

Definition deleteLeaseRecord (h : option string) (w : World) : World :=
  set_leases (db_delete (has_tx h) (leases w)) w.

Definition updateLastIndexRecord (ledger_idx : Z) (w : World) : World :=
  set_lastWatchedLedger ledger_idx w.

Definition updateAcquiredRecord (h : string) (ledgerIndex ts : Z)
           (w : World) : World :=
  set_leases
    (db_update (has_tx (Some h))
               (fun r => mk_lease ts (tx_hash r) (tenant_xrp_address r)
                                  (life_moments r) (container_name r)
                                  (Some ledgerIndex) ACQUIRED)
               (leases w)) w.

(** [updateLeaseData(txHash, {status, life_moments})]. *)
Definition updateLeaseData (h : string) (s : LeaseStatus) (moments : Z)
           (w : World) : World :=
  set_leases
    (db_update (has_tx (Some h))
               (fun r => mk_lease (timestamp r) (tx_hash r)
                                  (tenant_xrp_address r) moments
                                  (container_name r) (created_on_ledger r) s)
               (leases w)) w.

Definition createLeaseRecord (h tenantAddress containerName : string)
           (moments : Z) : M World unit :=
  fun w =>
    match db_insert (mk_lease 0 h tenantAddress moments containerName None
                              ACQUIRING) (leases w) with
    | None => (Thrown throw_str, w)
    | Some l => (Ok tt, set_leases l w)
    end.

(** [getExpiryTimestamp]. *)
Definition getExpiryTimestamp (momentSize createdTimestamp moments : Z) : Z :=
  createdTimestamp + moments * momentSize.

Definition addToExpiryList (h c t : string) (expiry : Z) (w : World) : World :=
  set_expiryList (expiryList w ++ [mk_expiry h c t expiry]) w.

(** [#queueAction(action, maxAttempts = 5, delay = 0)]. *)
Definition queueAction_with (cb : Callback) (maxAttempts delay : Z)
           (w : World) : World :=
  set_queue (queue w ++ [mk_action cb None 0 maxAttempts delay]) w.

Definition queueAction (cb : Callback) (w : World) : World :=
  queueAction_with cb 5 0 w.

Section Board.
Variable E : Env.

(** *** The daemon, through its CLI wrapper *)

(** Modelled from the spec: [SashiCLI.wait] (sashi-cli.js is not among
    the sources) returns when the daemon is free; the seconds that takes
    come from [E]. *)
Definition sashi_wait_until_free : M World unit :=
  modify (fun w => advance_clock (sashi_wait E) (log_sashi SashiWait w)).

(** Modelled from the spec: [SashiCLI.createInstance] sends a [create]
    request and resolves with the daemon's [create_res] or throws its
    error reply; the reply and the seconds it takes come from [E].  On
    success the daemon has added the instance's row. *)
Definition sashi_createInstance (containerName : string)
  : M World CreateRes :=
  fun w =>
    let '(secs, r) := sashi_create E containerName in
    let w := advance_clock secs (log_sashi (SashiCreate containerName) w) in
    match r with
    | inl e => (Thrown e, w)
    | inr res =>
        (Ok res,
         set_sashiInstances
           (sashiInstances w ++ [mk_sashi (cr_name res) (now w)]) w)
    end.

(** Modelled from the spec: [SashiCLI.destroyInstance] sends a [destroy]
    request and throws the daemon's error reply, if that is what comes
    back.  On success the daemon has deleted the instance's row. *)
Definition sashi_destroyInstance (n : option string) : M World unit :=
  fun w =>
    let w := log_sashi (SashiDestroy n) w in
    match sashi_destroy E n with
    | Some e => (Thrown e, w)
    | None =>
        (Ok tt,
         set_sashiInstances
           (filter (fun i => match n with
                             | Some n => negb (name i =? n)%string
                             | None => true
                             end) (sashiInstances w)) w)
    end.

(** *** Submissions and the queued callbacks

    A callback runs on its action's [submissionRefs] and the board. *)

Definition Cb (A : Type) : Type := M (Refs * World) A.

(** [submissionRefs.refs ??= [{}, ...]]. *)
Definition init_refs (n : nat) : Cb unit :=
  modify (fun rw => (match fst rw with
                     | None => Some (repeat None n)
                     | Some l => Some l
                     end, snd rw)).

(** [refs[i]?.submissionResult?.result?.tx_json?.hash]. *)
Definition ref_hash (refs : Refs) (i : nat) : option string :=
  match refs with
  | Some l => nth i l None
  | None => None
  end.

(** The test every callback makes before a (re)submission: is there a
    hash in ref [i] that the ledger reports validated with
    [tesSUCCESS]?  An empty hash is falsy. *)
Definition validated_already (i : nat) : Cb bool :=
  fun rw =>
    (Ok match ref_hash (fst rw) i with
        | Some h =>
            negb (h =? "")%string && getTransactionValidatedResults E h
        | None => false
        end, rw).

(** A host-client call that submits [tx]; [ref] is the index of the
    submission ref passed along, if one is. *)
Definition submit (tx : Tx) (ref : option nat) : Cb unit :=
  fun rw =>
    let w := snd rw in
    let o := submit_outcome E (length (ledgerLog w)) tx in
    let refs :=
      match ref, recorded o with
      | Some i, Some h => option_map (store i (Some h)) (fst rw)
      | _, _ => fst rw
      end in
    match thrown o with
    | Some e => (Thrown e, (refs, log_tx tx w))
    | None => (Ok tt, (refs, log_tx tx w))
    end.

Definition on_board {A} (f : World -> A) : Cb A :=
  fun rw => (Ok (f (snd rw)), rw).

Definition board (f : World -> World) : Cb unit :=
  modify (fun rw => (fst rw, f (snd rw))).

Definition reoffer_status (s : option LeaseStatus) : bool :=
  match s with
  | Some DESTROYED | Some FAILED | Some SASHI_TIMEOUT => true
  | _ => false
  end.

Definition is_burned (s : option LeaseStatus) : bool :=
  match s with Some BURNED => true | _ => false end.

(** The closure queued by [recreateLeaseOffer]. *)
Definition cb_recreateLeaseOffer (uriTokenId : string) (leaseIndex : Z)
           (outboundIP : option string) (noLeaseRecord : bool) : Cb unit :=
  init_refs 2 ;;;
  done1 <- validated_already 0 ;;
  let retry := negb done1 in
  leaseTxHash <- on_board (getLeaseTxHash uriTokenId) ;;
  status <- on_board (getLeaseStatus leaseTxHash) ;;
  when (retry && (noLeaseRecord || reoffer_status status))
       (submit (expireLease uriTokenId) (Some 0%nat) ;;;
        when (negb noLeaseRecord)
             (board (updateLeaseStatus leaseTxHash BURNED))) ;;;
  done2 <- validated_already 1 ;;
  let retry := negb done2 in
  status <- on_board (getLeaseStatus leaseTxHash) ;;
  when (retry && (noLeaseRecord || is_burned status))
       (let leaseAmount :=
          if Qeq_bool (cfg_leaseAmount E) 0 then purchaserTargetPrice E
          else cfg_leaseAmount E in
        submit (offerLease leaseIndex leaseAmount outboundIP) None ;;;
        when (negb noLeaseRecord) (board (deleteLeaseRecord leaseTxHash))).

(** The closure queued by [#expireInstance]. *)
Definition cb_expiredRegInfo : Cb unit :=
  init_refs 1 ;;;
  done <- validated_already 0 ;;
  if done then ret tt
  else
    n <- on_board activeInstanceCount ;;
    submit (updateRegInfo n) (Some 0%nat).

(** The closure queued by a successful acquire. *)
Definition cb_acquireSuccess (acquireRefId tenantAddress : string)
           (createRes : CreateRes) (outbound : option string)
           (currentLedgerIndex createdTimestamp : Z) : Cb unit :=
  init_refs 2 ;;;
  done1 <- validated_already 0 ;;
  when (negb done1)
       (n <- on_board activeInstanceCount ;;
        submit (updateRegInfo n) (Some 0%nat)) ;;;
  done2 <- validated_already 1 ;;
  when (negb done2)
       (submit (acquireSuccess acquireRefId tenantAddress
                               (cr_name createRes) (cr_ip createRes))
               (Some 1%nat) ;;;
        board (updateAcquiredRecord acquireRefId currentLedgerIndex
                                    createdTimestamp)).

(** Closures with a single submission behind the check. *)
Definition cb_single (tx : Tx) : Cb unit :=
  init_refs 1 ;;;
  done <- validated_already 0 ;;
  if done then ret tt else submit tx (Some 0%nat).

(** The closure queued in the acquire handler's [catch]: the error
    transaction's own failure is only logged. *)
Definition cb_acquireError (acquireRefId tenantAddress : string)
           (leaseAmount : Q) (reason : Content) : Cb unit :=
  init_refs 1 ;;;
  done <- validated_already 0 ;;
  if done then ret tt
  else swallow (submit (acquireError acquireRefId tenantAddress
                                     leaseAmount reason) (Some 0%nat)).

(** The closure queued for an orphan lease: the refund is made only
    for a lease read in [Acquiring]. *)
Definition cb_refundIfAcquiring (leaseStatus : LeaseStatus)
           (leaseTxHash owner : string) (amount : Q) : Cb unit :=
  init_refs 1 ;;;
  done <- validated_already 0 ;;
  if done then ret tt
  else when (status_eqb leaseStatus ACQUIRING)
            (submit (refundTenant leaseTxHash owner amount) (Some 0%nat)).

(** The closure queued at the end of the prune pass. *)
Definition cb_prunedRegInfo (count : Z) : Cb unit :=
  init_refs 1 ;;;
  done <- validated_already 0 ;;
  if done then ret tt
  else
    n <- on_board activeInstanceCount ;;
    when (negb (n =? count))
         (board (set_activeInstanceCount count) ;;;
          submit (updateRegInfo count) (Some 0%nat)).

Definition run_callback (cb : Callback) : Cb unit :=
  match cb with
  | CbRecreateLeaseOffer t i ip n => cb_recreateLeaseOffer t i ip n
  | CbExpiredRegInfo => cb_expiredRegInfo
  | CbAcquireSuccess r t c o l ts => cb_acquireSuccess r t c o l ts
  | CbAcquireError r t a why => cb_acquireError r t a why
  | CbExtendSuccess r t m => cb_single (extendSuccess r t m)
  | CbExtendError r t why a => cb_single (extendError r t why a)
  | CbRefundTenant h o a => cb_single (refundTenant h o a)
  | CbRefundIfAcquiring s h o a => cb_refundIfAcquiring s h o a
  | CbPrunedRegInfo n => cb_prunedRegInfo n
  end.


(** *** The transaction queue *)

Definition took_long (e : Exn) : bool :=
  match e_status e with
  | Some s => (s =? "TOOK_LONG")%string
  | None => false
  end.


(** The body of the loop of [#processConcurrencyQueue] for one action;
    [toKeep] is the list being rebuilt. *)
Definition process_action (toKeep_w : list Action * World) (action : Action)
  : list Action * World :=
  let '(toKeep, w) := toKeep_w in
  match run_callback (callback action) (submissionRefs action, w) with
  | (Ok _, (_, w)) => (toKeep, set_uplift false 0 w)
  | (Thrown e, (refs, w)) =>
      if attempts action <? maxAttempts action then
        let action :=
          mk_action (callback action) refs (attempts action + 1)
                    (maxAttempts action) (delay action) in
        let w :=
          if negb (Qle_bool (cfg_affordableExtraFee E) 0) then
            if took_long e then
              set_uplift true
                (Qfloor ((cfg_affordableExtraFee E
                          * inject_Z (attempts action))
                         / inject_Z (maxAttempts action))%Q) w
            else w
          else w in
        if delay action >? 0 then
          (toKeep, set_parked (parked w ++ [action]) w)
        else (toKeep ++ [action], w)
      else (toKeep, w)
  end.

(** [#processConcurrencyQueue]: one drain of the queue. *)
Definition processConcurrencyQueue (w : World) : World :=
  let '(toKeep, w) := fold_left process_action (queue w) ([], w) in
  set_queue toKeep w.

(** A parked action's interval fires while the queue is idle. *)
Definition release_parked (w : World) : World :=
  set_parked [] (set_queue (queue w ++ parked w) w).

(** *** Re-offering a lease and destroying an instance *)

(** [recreateLeaseOffer]: the work is queued. *)
Definition recreateLeaseOffer (uriTokenId : string) (leaseIndex : Z)
           (outboundIP : option string) (noLeaseRecord : bool)
           (w : World) : World :=
  queueAction
    (CbRecreateLeaseOffer uriTokenId leaseIndex outboundIP noLeaseRecord) w.

(** [MessageBoard.destroyInstance]. *)
Definition destroyInstance (containerName : string) (leaseIndex : Z)
           (outboundIP : option string) : M World unit :=
  sashi_destroyInstance (Some containerName) ;;;
  w <- get ;;
  let leaseTxHash := getLeaseTxHash containerName w in
  modify (updateLeaseStatus leaseTxHash DESTROYED) ;;;
  modify (recreateLeaseOffer containerName leaseIndex outboundIP false).

(** *** The acquire handler *)

Record AcquireEvent := mk_acquire {
  acquireRefId : string;
  a_uriTokenId : string;
  a_leaseAmount : Q;
  a_tenant : string;
  a_host : string;
  a_LedgerIndex : Z
}.

(** The variables declared before the [try] and read in the [catch]. *)
Record AcquireVars := mk_vars {
  requestValidated : bool;
  createRes : option CreateRes;
  v_leaseIndex : Z;
  instanceOutboundIPAddress : option string
}.

Definition vars_init : AcquireVars := mk_vars false None (-1) None.

Definition Acq (A : Type) : Type := M (AcquireVars * World) A.

Definition var (f : AcquireVars -> AcquireVars) : Acq unit :=
  modify (fun vw => (f (fst vw), snd vw)).

Definition world (f : World -> World) : Acq unit :=
  modify (fun vw => (fst vw, f (snd vw))).

Definition clock : Acq Z := fun vw => (Ok (now (snd vw)), vw).

Definition Qgt_bool (a b : Q) : bool := negb (Qle_bool a b).

(** The [try] block of [handleAcquireLease]. *)
Definition acquire_try (r : AcquireEvent) : Acq unit :=
  let uriTokenId := a_uriTokenId r in
  let tenantAddress := a_tenant r in
  if negb (a_host r =? cfg_address E)%string then throw throw_str
  else
    world (updateLastIndexRecord (a_LedgerIndex r)) ;;;
    match getLeaseByIndex E uriTokenId with
    | None => throw throw_str
    | Some uriToken =>
      if negb (Owner uriToken =? tenantAddress)%string then throw throw_str
      else
        let uriInfo := URI uriToken in
        var (fun v => mk_vars (requestValidated v) (createRes v)
                              (v_leaseIndex v) (ip_address uriInfo)) ;;;
        if negb (Qeq_bool (a_leaseAmount r) (leaseAmount uriInfo))
        then throw throw_str
        else
          let leaseIndex := leaseIndex uriInfo in
          var (fun v => mk_vars (requestValidated v) (createRes v)
                                leaseIndex
                                (instanceOutboundIPAddress v)) ;;;
          let moments := 1 in
          let containerName := uriTokenId in
          var (fun v => mk_vars true (createRes v) (v_leaseIndex v)
                                (instanceOutboundIPAddress v)) ;;;
          lift_snd (createLeaseRecord (acquireRefId r) tenantAddress
                                      containerName moments) ;;;
          startingValidatedTime <- clock ;;
          lift_snd sashi_wait_until_free ;;;
          t <- clock ;;
          let diff := t - startingValidatedTime in
          let threshold :=
            (inject_Z (leaseAcquireWindow E)
             * ACQUIRE_LEASE_WAIT_TIMEOUT_THRESHOLD)%Q in
          if Qgt_bool (inject_Z diff) threshold then
            world (updateLeaseStatus (Some (acquireRefId r)) SASHI_TIMEOUT) ;;;
            world (recreateLeaseOffer uriTokenId leaseIndex
                                      (ip_address uriInfo) false)
          else
            res <- lift_snd (sashi_createInstance containerName) ;;
            var (fun v => mk_vars (requestValidated v) (Some res)
                                  (v_leaseIndex v)
                                  (instanceOutboundIPAddress v)) ;;;
            t <- clock ;;
            let diff := t - startingValidatedTime in
            let threshold :=
              (inject_Z (leaseAcquireWindow E)
               * ACQUIRE_LEASE_TIMEOUT_THRESHOLD)%Q in
            if Qgt_bool (inject_Z diff) threshold then
              world (updateLeaseStatus (Some (acquireRefId r))
                                       SASHI_TIMEOUT) ;;;
              lift_snd (destroyInstance (cr_name res) leaseIndex
                                        (ip_address uriInfo))
            else
              let currentLedgerIndex := lastValidatedLedgerIndex E in
              createdTimestamp <- clock ;;
              world (addToExpiryList
                       (acquireRefId r) (cr_name res) tenantAddress
                       (getExpiryTimestamp (momentSize E)
                                           createdTimestamp moments)) ;;;
              world (fun w => set_activeInstanceCount
                                (activeInstanceCount w + 1) w) ;;;
              world (queueAction
                       (CbAcquireSuccess (acquireRefId r) tenantAddress res
                                         (ip_address uriInfo)
                                         currentLedgerIndex
                                         createdTimestamp))
    end.

(** [e.content || 'invalid_acquire_lease']. *)
Definition content_or (e : Exn) (dflt : string) : Content :=
  match e_content e with
  | Some (CStr "") | None => CStr dflt
  | Some c => c
  end.

Definition is_initiate_error (e : Exn) : bool :=
  match e_type e with
  | Some t => (t =? "initiate_error")%string
  | None => false
  end.

(** The [catch] block of [handleAcquireLease].  Reading
    [e.content.instance_name] of an error without content throws in
    its turn. *)
Definition acquire_catch (r : AcquireEvent) (e : Exn) : Acq unit :=
  v <- (fun vw => (Ok (fst vw), vw)) ;;
  when (requestValidated v)
       (world (updateLeaseStatus (Some (acquireRefId r)) FAILED)) ;;;
  (if match createRes v with Some _ => true | None => false end
      || is_initiate_error e
   then
     match e_content e with
     | None => throw TypeError
     | Some (CObj n _) => lift_snd (swallow (sashi_destroyInstance (Some n)))
     | Some (CStr _) => lift_snd (swallow (sashi_destroyInstance None))
     end
   else ret tt) ;;;
  when (v_leaseIndex v >=? 0)
       (world (recreateLeaseOffer (a_uriTokenId r) (v_leaseIndex v)
                                  (instanceOutboundIPAddress v) false)) ;;;
  world (queueAction
           (CbAcquireError (acquireRefId r) (a_tenant r) (a_leaseAmount r)
                           (content_or e "invalid_acquire_lease"))).

(** [handleAcquireLease]. *)
Definition handleAcquireLease (r : AcquireEvent) : M World unit :=
  fun w =>
    let '(res, (_, w)) :=
      try_catch (acquire_try r) (acquire_catch r) (vars_init, w) in
    (res, w).

(** *** The extend handler *)

Record ExtendEvent := mk_extend {
  extendRefId : string;
  x_uriTokenId : string;
  x_tenant : string;
  payment : Q;
  x_Destination : string;
  x_LedgerIndex : Z
}.

Definition is_active (s : LeaseStatus) : bool :=
  status_eqb s ACQUIRED || status_eqb s EXTENDED.

(** The loop over [expiryList]: the first entry of the container is
    pushed forward; the result is the new list and the new expiry. *)
Fixpoint extend_expiry (c : string) (moments : Z) (l : list ExpiryItem)
  : option (list ExpiryItem * Z) :=
  match l with
  | [] => None
  | item :: rest =>
      if (containerName item =? c)%string then
        let ts := getExpiryTimestamp (momentSize E) (expiryTimestamp item)
                                     moments in
        Some (mk_expiry (txHash item) (containerName item) (tenant item) ts
                :: rest, ts)
      else
        match extend_expiry c moments rest with
        | Some (rest', ts) => Some (item :: rest', ts)
        | None => None
        end
  end.

(** The [try] block of [handleExtendLease]. *)
Definition extend_try (r : ExtendEvent) : M World unit :=
  let amount := payment r in
  if negb (x_Destination r =? cfg_address E)%string then throw throw_str
  else
    let hostingToken := getLeaseByIndex E (x_uriTokenId r) in
    modify (updateLastIndexRecord (x_LedgerIndex r)) ;;;
    match hostingToken with
    | None => throw throw_str
    | Some hostingToken =>
      if negb (Owner hostingToken =? x_tenant r)%string
      then throw throw_str
      else
        let leaseAmount := leaseAmount (URI hostingToken) in
        if Qle_bool leaseAmount 0 then throw throw_str
        else
          let extendingMoments := Qfloor (amount / leaseAmount)%Q in
          if extendingMoments <? 1 then throw throw_str
          else
            w <- get ;;
            match find (fun i => is_active (status i))
                       (filter (has_container (index hostingToken))
                               (leases w)) with
            | None => throw throw_str
            | Some instance =>
              match extend_expiry (container_name instance)
                                  extendingMoments (expiryList w) with
              | None => throw throw_str
              | Some (expiryList', expiryTimeStamp) =>
                modify (set_expiryList expiryList') ;;;
                modify (updateLeaseData
                          (tx_hash instance) EXTENDED
                          (life_moments instance + extendingMoments)) ;;;
                let expiryMoment := getMoment E expiryTimeStamp in
                modify (queueAction
                          (CbExtendSuccess (extendRefId r) (x_tenant r)
                                           expiryMoment))
              end
            end
    end.

(** [handleExtendLease]. *)
Definition handleExtendLease (r : ExtendEvent) : M World unit :=
  try_catch (extend_try r)
    (fun e =>
       modify (queueAction
                 (CbExtendError (extendRefId r) (x_tenant r)
                                (content_or e "invalid_extend_lease")
                                (payment r)))).


Definition extend_error_action (r : ExtendEvent) : Action :=
  mk_action (CbExtendError (extendRefId r) (x_tenant r)
                           (CStr "invalid_extend_lease") (payment r))
            None 0 5 0.

(** *** The orphan pruner *)

Definition is_hex_upper (c : Ascii.ascii) : bool :=
  let n := Z.of_nat (Ascii.nat_of_ascii c) in
  ((48 <=? n) && (n <=? 57)) || ((65 <=? n) && (n <=? 70)).

Fixpoint all_chars (p : Ascii.ascii -> bool) (s : string) : bool :=
  match s with
  | EmptyString => true
  | String c rest => p c && all_chars p rest
  end.

(** [LEASE_ID_REG_EXP.test]: 64 upper-case hexadecimal digits. *)
Definition is_lease_id (s : string) : bool :=
  (Z.of_nat (String.length s) =? 64) && all_chars is_hex_upper s.

(** The pass's local variables: its copy of the lease rows and the
    recomputed count of active instances. *)
Definition Prune (A : Type) : Type := M ((list LeaseRow * Z) * World) A.

Definition on_world (f : World -> World) : Prune unit :=
  modify (fun lw => (fst lw, f (snd lw))).

Definition decrement_if_active (s : LeaseStatus) : Prune unit :=
  when (is_active s)
       (modify (fun lw => ((fst (fst lw), snd (fst lw) - 1), snd lw))).

(** [leases.splice(leaseIndex, 1)]. *)
Fixpoint remove_first (p : LeaseRow -> bool) (l : list LeaseRow)
  : list LeaseRow :=
  match l with
  | [] => []
  | r :: rest => if p r then rest else r :: remove_first p rest
  end.

Definition tenant_owned (t : option UriToken) : option UriToken :=
  match t with
  | Some tok =>
      if negb (Owner tok =? host_address E)%string then Some tok else None
  | None => None
  end.

(** What the first loop does for a lease-backed instance once it has
    been destroyed. *)
Definition settle_instance_lease (inst : SashiInstance) (lease : LeaseRow)
           (uriToken : option UriToken) : Prune unit :=
  w <- (fun lw => (Ok (snd lw), lw)) ;;
  let leaseTxHash := getLeaseTxHash (name inst) w in
  on_world (updateLeaseStatus leaseTxHash DESTROYED) ;;;
  match tenant_owned uriToken with
  | Some tok =>
      let uriInfo := URI tok in
      on_world (recreateLeaseOffer (name inst) (leaseIndex uriInfo)
                                   (ip_address uriInfo) false) ;;;
      on_world (queueAction
                  (CbRefundTenant (tx_hash lease) (Owner tok)
                                  (leaseAmount uriInfo)))
  | None => on_world (deleteLeaseRecord (Some (tx_hash lease)))
  end ;;;
  decrement_if_active (status lease).

(** The body of the first loop, for one instance. *)
Definition prune_instance (inst : SashiInstance) : Prune unit :=
  try_catch
    (ls <- (fun lw => (Ok (fst (fst lw)), lw)) ;;
     match find (has_container (name inst)) ls with
     | Some lease =>
         modify (fun lw =>
                   ((remove_first (has_container (name inst)) (fst (fst lw)),
                     snd (fst lw)), snd lw)) ;;;
         let uriToken := getLeaseByIndex E (name inst) in
         if status_eqb (status lease) ACQUIRING
            || status_eqb (status lease) DESTROYED
            || match uriToken with
               | None => true
               | Some tok => (Owner tok =? host_address E)%string
               end
         then
           lift_snd (sashi_destroyInstance (Some (name inst))) ;;;
           settle_instance_lease inst lease uriToken
         else ret tt
     | None =>
         if is_lease_id (name inst)
         then lift_snd (sashi_destroyInstance (Some (name inst)))
         else ret tt
     end)
    (fun _ => ret tt).

(** The body of the second loop, for one lease. *)
Definition prune_lease (lease : LeaseRow) : Prune unit :=
  try_catch
    (w <- (fun lw => (Ok (snd lw), lw)) ;;
     match filter (fun i => (name i =? container_name lease)%string)
                  (sashiInstances w) with
     | [] =>
         when (negb (status_eqb (status lease) BURNED))
              (w <- (fun lw => (Ok (snd lw), lw)) ;;
               let leaseTxHash := getLeaseTxHash (container_name lease) w in
               on_world (updateLeaseStatus leaseTxHash DESTROYED)) ;;;
         match tenant_owned (getLeaseByIndex E (container_name lease)) with
         | Some tok =>
             let uriInfo := URI tok in
             on_world (recreateLeaseOffer (container_name lease)
                                          (leaseIndex uriInfo)
                                          (ip_address uriInfo) false) ;;;
             on_world (queueAction
                         (CbRefundIfAcquiring (status lease) (tx_hash lease)
                                              (Owner tok)
                                              (leaseAmount uriInfo)))
         | None => on_world (deleteLeaseRecord (Some (tx_hash lease)))
         end ;;;
         decrement_if_active (status lease)
     | _ :: _ => ret tt
     end)
    (fun _ => ret tt).

Fixpoint for_each {S A} (f : A -> M S unit) (l : list A) : M S unit :=
  match l with
  | [] => ret tt
  | a :: rest => f a ;;; for_each f rest
  end.

Definition Qlt_bool (a b : Q) : bool := negb (Qle_bool b a).

(** [#pruneOrphanLeases].  [timeMargin] is a date in milliseconds; the
    instances' [time] and the leases' [timestamp] are compared with it
    as the numbers they are. *)
Definition pruneOrphanLeases (isStartup : bool) : M World unit :=
  fun w =>
    let timeoutSecs :=
      ((inject_Z (leaseAcquireWindow E) * ACQUIRE_LEASE_TIMEOUT_THRESHOLD)
       * 2)%Q in
    let timeMargin := (inject_Z (1000 * now w) - 1000 * timeoutSecs)%Q in
    let instances := sashiInstances w in
    let leases0 := leases w in
    let count :=
      Z.of_nat (length (filter (fun r => is_active (status r)) leases0)) in
    let old_lease (l : LeaseRow) :=
      status_eqb (status l) DESTROYED || status_eqb (status l) BURNED
      || (((isStartup && status_eqb (status l) ACQUIRING)
           || Qlt_bool (inject_Z (timestamp l)) timeMargin)
          && (status_eqb (status l) ACQUIRING || is_active (status l))) in
    let pass : Prune unit :=
      for_each prune_instance
               (filter (fun i => isStartup
                                 || Qlt_bool (inject_Z (time i)) timeMargin)
                       instances) ;;;
      ls <- (fun lw => (Ok (fst (fst lw)), lw)) ;;
      for_each prune_lease (filter old_lease ls) ;;;
      n <- (fun lw => (Ok (snd (fst lw)), lw)) ;;
      on_world (queueAction (CbPrunedRegInfo n)) in
    let '(res, (_, w)) := pass ((leases0, count), w) in
    (res, w).

End Board.

(** *** Concrete boards for the examples *)

Definition token_T1 (owner : string) : UriToken :=
  mk_token "T1" owner (mk_uri 0 (2 # 1) None).

Definition hash_of (n : nat) : string :=
  String (Ascii.ascii_of_nat (65 + n)) "".

(** A ledger that takes every submission and reports it validated. *)
Definition ledger_ok (n : nat) (t : Tx) : Outcome :=
  mk_outcome (Some (hash_of n)) None.



(** Host [rHOST], lease amount 2, acquire window 100 s, moments of
    3600 s; the daemon is free after [wait] seconds and creates an
    instance in [create] seconds; token [T1] belongs to [owner]. *)
Definition env_of (wait create : Z) (owner : string)
           (ledger : nat -> Tx -> Outcome) : Env :=
  mk_env "rHOST" (2 # 1) (100 # 1) "eth0" "rHOST" (2 # 1) 100 3600 1000
         (fun t => if (t =? "T1")%string then Some (token_T1 owner) else None)
         (fun t => t / 3600)
         ledger (fun _ => true)
         wait (fun n => (create, inr (mk_create_res n "203.0.113.7")))
         (fun _ => None).

Definition world_empty : World :=
  mk_world [] 0 [] 0 [] [] false 0 [] [] [] 1000000.

Definition acquire_T1 : AcquireEvent :=
  mk_acquire "TXA" "T1" (2 # 1) "rTENANT" "rHOST" 1001.

(** The board of scenario S1 after the acquire went through: lease
    [TXA] on [T1] is [Acquired] and expires at 1003600. *)
Definition world_s1 : World :=
  mk_world [mk_lease 1000000 "TXA" "rTENANT" 1 "T1" (Some 1000) ACQUIRED]
           1001 [mk_expiry "TXA" "T1" "rTENANT" 1003600] 1 [] [] false 0
           [mk_sashi "T1" 1000000] [] [] 1000100.

Definition extend_T1 (amount : Q) : ExtendEvent :=
  mk_extend "TXE" "T1" "rTENANT" amount "rHOST" 1002.

(** A board whose lease on [T1] is in [s], with or without the
    instance. *)
Definition world_lease (s : LeaseStatus) (with_instance : bool) : World :=
  mk_world [mk_lease 0 "TXA" "rTENANT" 1 "T1" None s]
           1001 [] 0 [] [] false 0
           (if with_instance then [mk_sashi "T1" 0] else []) [] [] 1000000.

(** The same board with the re-offer of [T1] already queued. *)
Definition world_reoffer : World :=
  recreateLeaseOffer "T1" 0 None false (world_lease DESTROYED false).


Definition env_fine : Env := env_of 1 1 "rTENANT" ledger_ok.


(** A host that still owns token [T1]. *)
Definition env_unsold : Env := env_of 1 1 "rHOST" ledger_ok.

End MB.

(* ------------------------------------------------------------------ *)
(** ** Shell commands and CLI requests built with [sprintf]            *)
(* ------------------------------------------------------------------ *)

Module Cmd.
Import Ascii.

Local Open Scope string_scope.

(** [sprintf] for the formats of the sources, whose only conversion is
    [%s].  The arguments are C strings (no NUL inside), taken in order. *)
Fixpoint sprintf (fmt : string) (args : list string) : string :=
  match fmt with
  | EmptyString => EmptyString
  | String c rest =>
      match rest with
      | String c2 rest2 =>
          if (Ascii.eqb c "%"%char) && (Ascii.eqb c2 "s"%char)
          then hd "" args ++ sprintf rest2 (tl args)
          else String c (sprintf rest args)
      | EmptyString => String c EmptyString
      end
  end.

(** The characters of a format outside its conversions, and the number
    of its conversions. *)
Fixpoint fixed_chars (fmt : string) : nat :=
  match fmt with
  | EmptyString => 0
  | String c rest =>
      match rest with
      | String c2 rest2 =>
          if (Ascii.eqb c "%"%char) && (Ascii.eqb c2 "s"%char)
          then fixed_chars rest2
          else S (fixed_chars rest)
      | EmptyString => 1
      end
  end.

Fixpoint conversions (fmt : string) : nat :=
  match fmt with
  | EmptyString => 0
  | String c rest =>
      match rest with
      | String c2 rest2 =>
          if (Ascii.eqb c "%"%char) && (Ascii.eqb c2 "s"%char)
          then S (conversions rest2)
          else conversions rest
      | EmptyString => 0
      end
  end.

Fixpoint args_length (n : nat) (args : list string) : nat :=
  match n with
  | O => 0
  | S n => String.length (hd "" args) + args_length n (tl args)
  end.

(** [s.length()], [strlen(s)]. *)
Definition strlen (s : string) : Z := Z.of_nat (String.length s).

(** [std::to_string] of an integer. *)
Definition to_string (z : Z) : string := DecimalString.NilZero.string_of_int (Z.to_int z).

(** The double quote, and a word between double quotes. *)
Definition dq : string := String (Ascii.ascii_of_nat 34) EmptyString.
Definition quoted (s : string) : string := dq ++ s ++ dq.

(** [char command[len]; sprintf(command, ...)]: the array's declared
    length and the text written to it.  The text fits when it leaves
    room for the terminating NUL. *)
Record buffer := mk_buffer {
  buf_len : Z;
  buf_text : string
}.

Definition fits (b : buffer) : Prop := strlen (buf_text b) + 1 <= buf_len b.

(** [std::string msg; msg.resize(n); sprintf(msg.data(), ...)]: the
    string keeps its [n] bytes, the text first and NULs behind it; a text
    longer than [n] is written past the string's storage. *)
Definition sprintf_into (n : Z) (text : string) : option string :=
  if (strlen text <=? n)%Z
  then Some (text ++ string_of_list_ascii
                       (repeat Ascii.zero (Z.to_nat (n - strlen text))))
  else None.

(** *** The daemon's commands (hp_manager.cpp) *)

Definition DOCKER_CREATE_TIMEOUT_SECS : Z := 120.

Definition DOCKER_CREATE : string :=
  "DOCKER_HOST=unix:///run/user/$(id -u %s)/docker.sock "
  ++ "timeout --foreground -v -s SIGINT %ss "
  ++ "%s/dockerbin/docker create -t -i --stop-signal=SIGINT "
  ++ "--log-driver local "
  ++ "     --log-opt max-size=5m --log-opt max-file=2 --name=%s "
  ++ "-p %s:%s -p %s:%s -p %s:%s/udp -p %s:%s -p %s:%s "
  ++ "-p %s:%s/udp -p %s:%s/udp --restart unless-stopped "
  ++ "--mount type=bind,source=%s,target=/contract %s run /contract".

Definition DOCKER_START : string :=
  "DOCKER_HOST=unix:///run/user/$(id -u %s)/docker.sock "
  ++ "%s/dockerbin/docker start %s".

Definition DOCKER_STOP : string :=
  "DOCKER_HOST=unix:///run/user/$(id -u %s)/docker.sock "
  ++ "%s/dockerbin/docker stop %s".

Definition DOCKER_REMOVE : string :=
  "DOCKER_HOST=unix:///run/user/$(id -u %s)/docker.sock "
  ++ "%s/dockerbin/docker rm -f %s".

Definition DOCKER_STATUS : string :=
  "DOCKER_HOST=unix:///run/user/$(id -u %s)/docker.sock "
  ++ "%s/dockerbin/docker inspect --format='{{json .State.Status}}' %s".

Definition COPY_DIR : string := "cp -r %s %s".
Definition MOVE_DIR : string := "mv %s %s".
Definition CHOWN_DIR : string := "chown -R %s:%s %s".
Definition CHMOD_DIR : string := "chmod -R %s %s".

Section Daemon.
(** [conf::ctx.exe_dir] and [conf::ctx.contract_template_path]. *)
Variable exe_dir : string.
Variable contract_template_path : string.

(** [docker_start], [docker_stop], [docker_remove]. *)
Definition docker_start_command (username container_name : string) : buffer :=
  mk_buffer (100 + strlen username + strlen exe_dir + strlen container_name)
            (sprintf DOCKER_START [username; exe_dir; container_name]).

Definition docker_stop_command (username container_name : string) : buffer :=
  mk_buffer (99 + strlen username + strlen exe_dir + strlen container_name)
            (sprintf DOCKER_STOP [username; exe_dir; container_name]).

Definition docker_remove_command (username container_name : string) : buffer :=
  mk_buffer (100 + strlen username + strlen exe_dir + strlen container_name)
            (sprintf DOCKER_REMOVE [username; exe_dir; container_name]).

(** [check_instance_status]. *)
Definition docker_status_command (username container_name : string) : buffer :=
  mk_buffer (136 + strlen username + strlen exe_dir + strlen container_name)
            (sprintf DOCKER_STATUS [username; exe_dir; container_name]).

(** [create_container]. *)
Definition docker_create_command
           (username image_name container_name contract_dir : string)
           (assigned_ports : Hp.ports) : buffer :=
  let user_port := to_string (Hp.user_port assigned_ports) in
  let peer_port := to_string (Hp.peer_port assigned_ports) in
  let gp_tcp_port_1 := to_string (Hp.gp_tcp_port_start assigned_ports) in
  let gp_tcp_port_2 := to_string (Hp.gp_tcp_port_start assigned_ports + 1) in
  let gp_udp_port_1 := to_string (Hp.gp_udp_port_start assigned_ports) in
  let gp_udp_port_2 := to_string (Hp.gp_udp_port_start assigned_ports + 1) in
  let timeout := to_string DOCKER_CREATE_TIMEOUT_SECS in
  mk_buffer
    (376 + strlen username + strlen timeout + strlen exe_dir
     + strlen container_name + (strlen user_port * 2) + (strlen peer_port * 4)
     + (strlen gp_tcp_port_1 * 2) + (strlen gp_tcp_port_2 * 2)
     + (strlen gp_udp_port_1 * 2) + (strlen gp_udp_port_2 * 2)
     + strlen contract_dir + strlen image_name)
    (sprintf DOCKER_CREATE
             [username; timeout; exe_dir; container_name;
              user_port; user_port;
              peer_port; peer_port;
              peer_port; peer_port;
              gp_tcp_port_1; gp_tcp_port_1;
              gp_tcp_port_2; gp_tcp_port_2;
              gp_udp_port_1; gp_udp_port_1;
              gp_udp_port_2; gp_udp_port_2;
              contract_dir; image_name]).

(** The four commands of [create_contract]; [temp_dirpath] is what
    [mkdtemp] made of the template [/tmp/sashiXXXXXX]. *)
Definition copy_command (temp_dirpath : string) : buffer :=
  let source_path := contract_template_path ++ "/*" in
  mk_buffer (25 + strlen source_path)
            (sprintf COPY_DIR [source_path; temp_dirpath]).

Definition move_command (temp_dirpath contract_dir : string) : buffer :=
  mk_buffer (22 + strlen contract_dir)
            (sprintf MOVE_DIR [temp_dirpath; contract_dir]).

Definition chown_command (username contract_dir : string) : buffer :=
  mk_buffer (12 + (strlen username * 2) + strlen contract_dir)
            (sprintf CHOWN_DIR [username; username; contract_dir]).

Definition chmod_command (contract_dir : string) : buffer :=
  mk_buffer (11 + 4 + strlen contract_dir)
            (sprintf CHMOD_DIR ["0775"; contract_dir]).

End Daemon.

(** *** The CLI's requests (sashi-cli/cli-manager.cpp) *)

Definition MSG_LIST : string :=
  "{" ++ quoted "type" ++ ": " ++ quoted "list" ++ "}".

Definition MSG_BASIC : string :=
  "{" ++ quoted "type" ++ ":" ++ quoted "%s" ++ ","
  ++ quoted "container_name" ++ ":" ++ quoted "%s" ++ "}".

Definition MSG_CREATE : string :=
  "{" ++ quoted "type" ++ ":" ++ quoted "create" ++ ","
  ++ quoted "container_name" ++ ":" ++ quoted "%s" ++ ","
  ++ quoted "owner_pubkey" ++ ":" ++ quoted "%s" ++ ","
  ++ quoted "contract_id" ++ ":" ++ quoted "%s" ++ ","
  ++ quoted "image" ++ ":" ++ quoted "%s" ++ ","
  ++ quoted "outbound_ipv6" ++ ":" ++ quoted "%s" ++ ","
  ++ quoted "outbound_net_interface" ++ ":" ++ quoted "%s" ++ ","
  ++ quoted "config" ++ ":{}}".

Definition DOCKER_ATTACH : string :=
  "DOCKER_HOST=unix:///run/user/$(id -u %s)/docker.sock "
  ++ "%s/dockerbin/docker attach --detach-keys=" ++ quoted "ctrl-c" ++ " %s".

(** The request of [execute_basic]. *)
Definition execute_basic_msg (type container_name : string) : option string :=
  sprintf_into (31 + strlen type + strlen container_name)
               (sprintf MSG_BASIC [type; container_name]).

(** The request of [create]. *)
Definition create_msg (container_name owner contract_id image outbound_ipv6
                       outbound_net_interface : string) : option string :=
  sprintf_into (142 + strlen container_name + strlen owner + strlen contract_id
                + strlen image + strlen outbound_ipv6
                + strlen outbound_net_interface)
               (sprintf MSG_CREATE [container_name; owner; contract_id; image;
                                    outbound_ipv6; outbound_net_interface]).

(** The inspect request and the attach command of [docker_exec]. *)
Definition docker_exec_msg (container_name : string) : option string :=
  sprintf_into (38 + strlen container_name)
               (sprintf MSG_BASIC ["inspect"; container_name]).

Definition docker_attach_command (user sashimono_dir container_name : string)
  : buffer :=
  mk_buffer (75 + strlen user + strlen sashimono_dir + strlen container_name)
            (sprintf DOCKER_ATTACH [user; sashimono_dir; container_name]).

(** *** The status of a container (hp_manager.cpp) *)

(** [s.substr(pos, n)]: it throws when [pos] is past the end ([None]),
    and stops at the end of [s] otherwise. *)
Definition substr (s : string) (pos n : Z) : option string :=
  if (pos >? strlen s)%Z then None
  else Some (String.substring (Z.to_nat pos)
                              (Z.to_nat (Z.min n (strlen s - pos))) s).

(** [status = buffer; status = status.substr(1, status.length() - 3)]
    of [check_instance_status], on what the inspect command printed;
    the length is a [size_t]. *)
Definition status_of_output (output : string) : option string :=
  substr output 1 (to_size_t (strlen output - 3)).

Definition newline : string := String (Ascii.ascii_of_nat 10) EmptyString.

End Cmd.

(* ------------------------------------------------------------------ *)
(** ** The CLI's end of the socket (sashi-cli/cli-manager.cpp)          *)
(* ------------------------------------------------------------------ *)

Module Cli.
Import Comm.

(** A value returned through [int]. *)
Definition to_int (x : Z) : Z := (x + 2147483648) mod 4294967296 - 2147483648.

(** [message.resize(n)]: cut, or filled with NUL. *)
Definition resize (n : Z) (message : bytes) : bytes :=
  firstn (Z.to_nat n) message
  ++ repeat 0 (Z.to_nat n - length message).

(** [cli::write_to_socket]: the request goes out as one record. *)
Definition write_to_socket (init_success : bool) (message : bytes)
           (io : sock_io) : Z * sock_io :=
  if negb init_success then (-1, io)
  else
    let '(res, io) := sys_write message (Z.of_nat (length message)) io in
    ((if res =? -1 then -1 else 0), io).

(** [cli::read_from_socket].  [length_buffer] has no initialiser:
    [stack] is what its eight bytes hold on entry.  [message] is the
    caller's string, resized to the length the header gives before the
    second [read]. *)
Definition read_from_socket (init_success : bool) (stack : bytes)
           (message : bytes) (io : sock_io) : Z * bytes * sock_io :=
  if negb init_success then (-1, message, io)
  else
    let length_buffer := stack in
    let '(res, got, io) := sys_read 8 io in
    if to_int res =? -1 then (-1, message, io)
    else
      let length_buffer := got ++ skipn (length got) length_buffer in
      let message_length := uint32_from_bytes length_buffer in
      let message := resize message_length message in
      let '(res, got, io) := sys_read message_length io in
      let message := got ++ skipn (length got) message in
      if to_int res =? -1 then (-1, message, io)
      else (to_int res, message, io).

(** [cli::get_json_output]: the request is written, the reply read. *)
Definition get_json_output (init_success : bool) (stack : bytes)
           (json_msg output : bytes) (io : sock_io) : Z * bytes * sock_io :=
  let '(w, io) := write_to_socket init_success json_msg io in
  if w =? -1 then (-1, output, io)
  else
    let '(r, output, io) := read_from_socket init_success stack output io in
    ((if r =? -1 then -1 else 0), output, io).

(** The CLI's view of what the daemon has written: each record of the
    daemon's [wire] is a record waiting in the CLI's socket. *)
Definition receiving (daemon : sock_io) : sock_io :=
  mk_io [] [] (map Some (wire daemon)).

End Cli.

(* ------------------------------------------------------------------ *)
(** ** The daemon's message loop                                       *)
(* ------------------------------------------------------------------ *)

Module Loop.
Import Comm.

Definition EMPTY_READ_TRESHOLD : Z := 5.

(** What [comm_handler_loop] works on: the context, its counter of
    empty reads, the global read buffer, the connected peer's end of
    the socket, the connections waiting to be accepted (each with what
    [accept] returns for it), the peers served before, and how often
    the loop has slept. *)
Record loop_state := mk_loop {
  ctx : comm_ctx;
  empty_read_count : Z;
  read_buffer : bytes;
  io : sock_io;
  pending : list (Z * sock_io);
  served : list sock_io;
  sleeps : Z
}.

Section Handler.

(** What [handle_message] answers to a request, through the parser and
    the manager, is an input; so is what the stack holds where [send]
    has its length buffer. *)
Variable respond : bytes -> bytes.
Variable stack : bytes.

(** [handle_message]: every path builds one response from the view of
    the buffer, clears the buffer and sends the response. *)
Definition handle_message (message_size : Z) (st : loop_state) : loop_state :=
  let msg := message_view (read_buffer st) message_size in
  let res := respond msg in
  let '(_, ctx', io') := send stack res (ctx st) (io st) in
  mk_loop ctx' (empty_read_count st) [] io' (pending st) (served st)
          (sleeps st).

Definition sleep (st : loop_state) : loop_state :=
  mk_loop (ctx st) (empty_read_count st) (read_buffer st) (io st)
          (pending st) (served st) (sleeps st + 1).

(** The body of the [while] loop of [comm_handler_loop]. *)
Definition iteration (st : loop_state) : loop_state :=
  if negb (data_socket (ctx st) =? -1) then
    let '(message_size, buf, io') :=
      read_socket (ctx st) (read_buffer st) (io st) in
    let st := mk_loop (ctx st) (empty_read_count st) buf io' (pending st)
                      (served st) (sleeps st) in
    if message_size =? -1 then
      mk_loop (disconnect (ctx st)) (empty_read_count st) (read_buffer st)
              (io st) (pending st) (served st) (sleeps st)
    else if message_size >? 0 then handle_message message_size st
    else
      let count := empty_read_count st + 1 in
      let st :=
        if count =? EMPTY_READ_TRESHOLD then
          mk_loop (disconnect (ctx st)) 0 (read_buffer st) (io st)
                  (pending st) (served st) (sleeps st)
        else
          mk_loop (ctx st) count (read_buffer st) (io st) (pending st)
                  (served st) (sleeps st) in
      sleep st
  else
    match pending st with
    | (fd, peer) :: rest =>
        mk_loop (mk_ctx (connection_socket (ctx st)) fd
                        (is_shutting_down (ctx st)))
                0 (read_buffer st) peer rest (served st ++ [io st])
                (sleeps st)
    | [] => sleep st
    end.

(** [n] turns of the loop. *)
Fixpoint turns (n : nat) (st : loop_state) : loop_state :=
  match n with
  | O => st
  | S n => turns n (iteration st)
  end.

End Handler.

(** A daemon with one client connected, which has sent [inbox]. *)
Definition connected_to (inbox : list (option bytes)) : loop_state :=
  mk_loop ctx_connected 0 (repeat 0 4096) (mk_io [] [] inbox) [] [] 0.

(** A handler that answers every request with the request itself. *)
Definition echo (request : bytes) : bytes := request.

End Loop.

(* ------------------------------------------------------------------ *)
(** ** The vacant ports found at start-up (hp_manager.cpp)              *)
(* ------------------------------------------------------------------ *)

Module Vacant.
Import Hp.

(** [std::max_element] with the comparison of [get_vacant_ports_list]:
    the first of the instances whose (16-bit) user port is largest. *)
Fixpoint max_element (largest : instance_info) (l : list instance_info)
  : instance_info :=
  match l with
  | [] => largest
  | i :: rest =>
      max_element
        (if to_uint16 (user_port (assigned_ports largest))
            <? to_uint16 (user_port (assigned_ports i))
         then i else largest)
        rest
  end.

(** The [while] loop of [get_vacant_ports_list].  [init_ports.peer_port]
    is a [uint16_t] that grows by one in every round, so the loop is over
    after at most 65536 rounds; [fuel] bounds them. *)
Fixpoint scan (fuel : nat) (instances : list instance_info) (bound : Z)
         (init_ports : ports) (vacant_ports : list ports) : list ports :=
  match fuel with
  | O => vacant_ports
  | S fuel =>
      if peer_port init_ports <? bound then
        let is_item_available :=
          existsb (fun instance =>
                     peer_port (assigned_ports instance)
                     =? peer_port init_ports) instances in
        let vacant_ports :=
          if negb is_item_available then vacant_ports ++ [init_ports]
          else vacant_ports in
        scan fuel instances bound (next_ports init_ports) vacant_ports
      else vacant_ports
  end.

(** [hp::get_vacant_ports_list]; [instances] is what
    [sqlite::get_instance_list] returns. *)
Definition get_vacant_ports_list (cfg : hp_conf)
           (instances : list instance_info) (vacant_ports : list ports)
  : list ports :=
  match instances with
  | [] => vacant_ports
  | first :: rest =>
      let element_max := max_element first rest in
      let init_ports :=
        mk_ports (to_uint16 (init_peer_port cfg))
                 (to_uint16 (init_user_port cfg))
                 (to_uint16 (init_gp_tcp_port cfg))
                 (to_uint16 (init_gp_udp_port cfg)) in
      scan (Z.to_nat 65536) instances (peer_port (assigned_ports element_max))
           init_ports vacant_ports
  end.

(** The [k]-th slot counted from the configured initial ports. *)
Definition slot (cfg : hp_conf) (k : nat) : ports :=
  mk_ports (to_uint16 (init_peer_port cfg) + Z.of_nat k)
           (to_uint16 (init_user_port cfg + Z.of_nat k))
           (to_uint16 (init_gp_tcp_port cfg + 2 * Z.of_nat k))
           (to_uint16 (init_gp_udp_port cfg + 2 * Z.of_nat k)).

(** Whether an instance holds peer port [p]. *)
Definition peer_used (instances : list instance_info) (p : Z) : bool :=
  existsb (fun instance => peer_port (assigned_ports instance) =? p) instances.

Fixpoint ascending (l : list Z) : bool :=
  match l with
  | a :: (b :: _) as rest => (a <? b) && ascending rest
  | _ => true
  end.

(** A host of scenario S1 with instances in its first and fourth slot. *)
Definition instances_gap : list instance_info :=
  [inst "T1" ports_s1; inst "T4" (mk_ports 22864 26204 36531 39070)].

End Vacant.

(* ------------------------------------------------------------------ *)
(** ** Starting, stopping and initiating an instance                   *)
(* ------------------------------------------------------------------ *)

Module Lifecycle.
Import Hp.

Definition CONF_READ_ERROR := "conf_read_error".
Definition CONTAINER_CONF_ERROR := "container_conf_error".
Definition CONTAINER_START_ERROR := "container_start_error".
Definition CONTAINER_UPDATE_ERROR := "container_update_error".
Definition DUP_CONTAINER := "dup_container".

(** What the three functions ask of the system besides reading: the
    rewritten configuration file, the hpfs service and the container
    runtime. *)
Inductive sys_call :=
| SysWriteConfig (path : string)
| SysUpdateServiceConf (user level : string) (full_history : bool)
| SysStartHpfs (user : string)
| SysStopHpfs (user : string)
| SysDockerStart (user container : string)
| SysDockerStop (user container : string).

Section Life.
Context {DB : Type} {SQL : Sqlite DB}.

(** The contract configuration document ([jsoncons::ojson]) and the
    initiate message's configuration ([msg::config_struct], declared in
    msg_common.hpp, which is not among the sources). *)
Variable Json : Type.
Variable Config : Type.

(** How the system answers.  [util::], [hpfs::] and
    [sqlite::update_status_in_container] are not among the sources and
    the runtime's results are inputs; [log_level] and [history] read
    [d["hpfs"]["log"]["log_level"]] and [d["node"]["history"]] ([None]
    when the access throws or the value is no string);
    [write_json_values] copies the message's configuration into the
    document, field by field over the struct that is not among the
    sources, and only its result matters here. *)
Record sys_env := mk_sys {
  contract_dir_of : string -> string -> string;
  open_config : string -> bool;
  read_json_file : string -> option Json;
  log_level : Json -> option string;
  history : Json -> option string;
  write_json_values : Json -> Config -> option Json;
  write_json_file : string -> Json -> bool;
  update_service_conf : string -> string -> bool -> bool;
  start_hpfs_systemd : string -> bool;
  stop_hpfs_systemd : string -> bool;
  docker_start_res : string -> string -> bool;
  docker_stop_res : string -> string -> bool;
  update_status_in_container : DB -> string -> string -> option DB
}.

Variable sys : sys_env.

(** The instance table and the trace of what was asked of the system. *)
Record life_state := mk_life {
  l_db : DB;
  l_trace : list sys_call
}.

Definition log_sys (c : sys_call) (st : life_state) : life_state :=
  mk_life (l_db st) (l_trace st ++ [c]).

Definition set_db (d : DB) (st : life_state) : life_state :=
  mk_life d (l_trace st).

(** [read_json_values]: the hpfs log level and the history mode. *)
Definition read_json_values (d : Json) : option (string * bool) :=
  match log_level sys d with
  | None => None
  | Some hpfs_log_level =>
      if (hpfs_log_level =? "dbg")%string || (hpfs_log_level =? "inf")%string
         || (hpfs_log_level =? "wrn")%string || (hpfs_log_level =? "err")%string
      then
        match history sys d with
        | Some h =>
            if (h =? "full")%string then Some (hpfs_log_level, true)
            else if (h =? "custom")%string then Some (hpfs_log_level, false)
            else None
        | None => None
        end
      else None
  end.

Definition docker_start (user container : string) (st : life_state)
  : Z * life_state :=
  ((if docker_start_res sys user container then 0 else -1),
   log_sys (SysDockerStart user container) st).

Definition docker_stop (user container : string) (st : life_state)
  : Z * life_state :=
  ((if docker_stop_res sys user container then 0 else -1),
   log_sys (SysDockerStop user container) st).

Definition hpfs_start (user : string) (st : life_state) : Z * life_state :=
  ((if start_hpfs_systemd sys user then 0 else -1),
   log_sys (SysStartHpfs user) st).

Definition hpfs_stop (user : string) (st : life_state) : Z * life_state :=
  ((if stop_hpfs_systemd sys user then 0 else -1),
   log_sys (SysStopHpfs user) st).

Definition hpfs_update_service_conf (user level : string) (full : bool)
           (st : life_state) : Z * life_state :=
  ((if update_service_conf sys user level full then 0 else -1),
   log_sys (SysUpdateServiceConf user level full) st).

(** [hp::stop_container]. *)
Definition stop_container (container : string) (st : life_state)
  : Z * life_state :=
  match is_container_exists (l_db st) container with
  | None => (-1, st)
  | Some info =>
    if negb (status info =? STATE_RUNNING)%string then (-1, st)
    else
      let '(r, st) := docker_stop (username info) container st in
      if r =? -1 then (-1, st)
      else
        match update_status_in_container sys (l_db st) container
                                         STATE_STOPPED with
        | None => (-1, st)
        | Some db' =>
            let st := set_db db' st in
            let '(r, st) := hpfs_stop (username info) st in
            if r =? -1 then (-1, st) else (0, st)
        end
  end.

(** [hp::start_container]. *)
Definition start_container (container : string) (st : life_state)
  : Z * life_state :=
  match is_container_exists (l_db st) container with
  | None => (-1, st)
  | Some info =>
    if negb (status info =? STATE_STOPPED)%string then (-1, st)
    else
      let contract_dir := contract_dir_of sys (username info) container in
      let config_file_path := (contract_dir ++ "/cfg/hp.cfg")%string in
      if negb (open_config sys config_file_path) then (-1, st)
      else
        match read_json_file sys config_file_path with
        | None => (-1, st)
        | Some d =>
          match read_json_values d with
          | None => (-1, st)
          | Some (hpfs_log_level, is_full_history) =>
            let '(r, st) :=
              hpfs_update_service_conf (username info) hpfs_log_level
                                       is_full_history st in
            if r =? -1 then (-1, st)
            else
              let '(r, st) := hpfs_start (username info) st in
              if r =? -1 then (-1, st)
              else
                let '(r, st) := docker_start (username info) container st in
                if r =? -1 then (-1, st)
                else
                  match update_status_in_container sys (l_db st) container
                                                   STATE_RUNNING with
                  | None =>
                      let '(_, st) := docker_stop (username info) container st in
                      let '(_, st) := hpfs_stop (username info) st in
                      (-1, st)
                  | Some db' => (0, set_db db' st)
                  end
          end
        end
  end.

(** [hp::initiate_instance]: the return value, [error_msg] and the
    state afterwards. *)
Definition initiate_instance (container : string) (config : Config)
           (st : life_state) : Z * string * life_state :=
  match is_container_exists (l_db st) container with
  | None => (-1, NO_CONTAINER, st)
  | Some info =>
    if negb (status info =? STATE_CREATED)%string then (-1, DUP_CONTAINER, st)
    else
      let contract_dir := contract_dir_of sys (username info) container in
      let config_file_path := (contract_dir ++ "/cfg/hp.cfg")%string in
      if negb (open_config sys config_file_path)
      then (-1, CONF_READ_ERROR, st)
      else
        match read_json_file sys config_file_path with
        | None => (-1, CONTAINER_CONF_ERROR, st)
        | Some d =>
          match write_json_values sys d config with
          | None => (-1, CONTAINER_CONF_ERROR, st)
          | Some d =>
            match read_json_values d with
            | None => (-1, CONTAINER_CONF_ERROR, st)
            | Some (hpfs_log_level, is_full_history) =>
              let st := log_sys (SysWriteConfig config_file_path) st in
              if negb (write_json_file sys config_file_path d)
              then (-1, CONTAINER_CONF_ERROR, st)
              else
                let '(r, st) :=
                  hpfs_update_service_conf (username info) hpfs_log_level
                                           is_full_history st in
                if r =? -1 then (-1, CONTAINER_CONF_ERROR, st)
                else
                  let '(r, st) := hpfs_start (username info) st in
                  if r =? -1 then (-1, CONTAINER_CONF_ERROR, st)
                  else
                    let '(r, st) :=
                      docker_start (username info) container st in
                    if r =? -1 then
                      let '(_, st) := hpfs_stop (username info) st in
                      (-1, CONTAINER_START_ERROR, st)
                    else
                      match update_status_in_container
                              sys (l_db st) container STATE_RUNNING with
                      | None =>
                          let '(_, st) :=
                            docker_stop (username info) container st in
                          let '(_, st) := hpfs_stop (username info) st in
                          (-1, CONTAINER_UPDATE_ERROR, st)
                      | Some db' => (0, "", set_db db' st)
                      end
            end
          end
        end
  end.

End Life.

Arguments mk_sys {DB Json Config}.
Arguments contract_dir_of {DB Json Config}.
Arguments open_config {DB Json Config}.
Arguments read_json_file {DB Json Config}.
Arguments log_level {DB Json Config}.
Arguments history {DB Json Config}.
Arguments write_json_values {DB Json Config}.
Arguments write_json_file {DB Json Config}.
Arguments update_service_conf {DB Json Config}.
Arguments start_hpfs_systemd {DB Json Config}.
Arguments stop_hpfs_systemd {DB Json Config}.
Arguments docker_start_res {DB Json Config}.
Arguments docker_stop_res {DB Json Config}.
Arguments update_status_in_container {DB Json Config}.
Arguments read_json_values {DB Json Config}.
Arguments docker_start {DB Json Config}.
Arguments docker_stop {DB Json Config}.
Arguments hpfs_start {DB Json Config}.
Arguments hpfs_stop {DB Json Config}.
Arguments hpfs_update_service_conf {DB Json Config}.
Arguments stop_container {DB SQL Json Config}.
Arguments start_container {DB SQL Json Config}.
Arguments initiate_instance {DB SQL Json Config}.
Arguments life_state DB : clear implicits.
Arguments mk_life {DB}.

(** *** A concrete system for the examples *)

(** Modelled from the spec: [sqlite::update_status_in_container] is not
    among the sources.  It rewrites the status of the rows of that
    name; a table that cannot be written makes it fail. *)
Definition list_update_status (d : list_db) (n s : string) : option list_db :=
  if writable d then
    Some (mk_db (map (fun i => if named n i
                               then mk_info (owner_pubkey i) (container_name i)
                                            (contract_dir i) (ip i) (pubkey i)
                                            (contract_id i) (assigned_ports i)
                                            s (username i) (image_name i)
                               else i) (rows d))
                (writable d))
  else None.

(** A system on which everything works except what the two flags switch
    off: the runtime's start and the hpfs stop.  The document is its
    pair of log level and history mode. *)
Definition sys_of (start_ok hpfs_stop_ok : bool)
  : sys_env (DB := list_db) (string * string) unit :=
  mk_sys (fun u c => String.append "/home/" (String.append u (String.append "/" c)))
         (fun _ => true)
         (fun _ => Some ("inf", "full"))
         (fun d => Some (fst d))
         (fun d => Some (snd d))
         (fun d _ => Some d)
         (fun _ _ => true)
         (fun _ _ _ => true)
         (fun _ => true)
         (fun _ => hpfs_stop_ok)
         (fun _ _ => start_ok)
         (fun _ _ => true)
         list_update_status.

(** A table with the one instance [T1] in status [s]. *)
Definition life_T1 (s : string) (writable : bool) : life_state list_db :=
  mk_life (mk_db [mk_info "OWNER" "T1" "/home/sashi/T1" "203.0.113.7" "ED01"
                          "CID" ports_s1 s "sashiT1" "img"] writable) [].

Definition stop_T1 (sys : sys_env (DB := list_db) (string * string) unit)
           (st : life_state list_db) : Z * life_state list_db :=
  stop_container (SQL := list_sqlite cfg_s1) sys "T1" st.

Definition start_T1 (sys : sys_env (DB := list_db) (string * string) unit)
           (st : life_state list_db) : Z * life_state list_db :=
  start_container (SQL := list_sqlite cfg_s1) sys "T1" st.

Definition initiate_T1 (sys : sys_env (DB := list_db) (string * string) unit)
           (st : life_state list_db) : Z * string * life_state list_db :=
  initiate_instance (SQL := list_sqlite cfg_s1) sys "T1" tt st.

End Lifecycle.

(* ------------------------------------------------------------------ *)
(** ** The message board's schedulers                                  *)
(* ------------------------------------------------------------------ *)

Module Scheduler.
Import MB.

(** The private fields the clock scheduler works on besides the board:
    the halt detector's and the queue of entries whose expiry is due. *)
Record Clock := mk_clock {
  halt : Halt.halt_state;
  instanceExpirationQueue : list ExpiryItem
}.

Definition xrplHalted (c : Clock) : bool := Halt.xrplHalted (halt c).

Definition Sch (A : Type) : Type := M (Clock * World) A.

Definition on_board (f : World -> World) : Sch unit :=
  modify (fun cw => (fst cw, f (snd cw))).

Definition set_expirationQueue (q : list ExpiryItem) : Sch unit :=
  modify (fun cw => (mk_clock (halt (fst cw)) q, snd cw)).

(** [i => i.containerName != name]. *)
Definition other_container (name : string) (i : ExpiryItem) : bool :=
  negb (containerName i =? name)%string.

(** [removeFromExpiryList]. *)
Definition removeFromExpiryList (name : string) (w : World) : World :=
  set_expiryList (filter (other_container name) (expiryList w)) w.

Record TerminateEvent := mk_terminate {
  t_uriTokenId : string;
  t_tenant : string;
  t_Destination : string;
  t_LedgerIndex : Z
}.

Section Jobs.
Variable E : Env.

(** [#expireInstance(lease)]: whatever is thrown inside is only logged. *)
Definition expireInstance (lease : ExpiryItem) : Sch unit :=
  try_catch
    (match getLeaseByIndex E (containerName lease) with
     | None => ret tt
     | Some uriToken =>
         let uriInfo := URI uriToken in
         lift_snd (destroyInstance E (containerName lease)
                                   (leaseIndex uriInfo) (ip_address uriInfo))
     end ;;;
     on_board (fun w => set_activeInstanceCount (activeInstanceCount w - 1) w) ;;;
     cw <- get ;;
     set_expirationQueue
       (filter (other_container (containerName lease))
               (instanceExpirationQueue (fst cw))) ;;;
     on_board (queueAction CbExpiredRegInfo))
    (fun _ => ret tt).

(** The [for] loop of [#expireInstances]: it runs over the queue as it
    was when the loop began, and stops at the first entry it reaches
    while the ledger is halted. *)
Fixpoint expire_loop (items : list ExpiryItem) : Sch unit :=
  match items with
  | [] => ret tt
  | item :: rest =>
      cw <- get ;;
      if negb (xrplHalted (fst cw)) then
        try_catch
          (expireInstance item ;;;
           cw <- get ;;
           set_expirationQueue
             (filter (other_container (containerName item))
                     (instanceExpirationQueue (fst cw))))
          (fun _ => ret tt) ;;;
        expire_loop rest
      else ret tt
  end.

(** [#expireInstances]. *)
Definition expireInstances : Sch unit :=
  cw <- get ;;
  let currentTime := now (snd cw) in
  let expired :=
    filter (fun x => expiryTimestamp x <? currentTime) (expiryList (snd cw)) in
  when (match expired with [] => false | _ :: _ => true end)
       (set_expirationQueue (instanceExpirationQueue (fst cw) ++ expired) ;;;
        on_board (fun w =>
                    set_expiryList
                      (filter (fun x => expiryTimestamp x >=? currentTime)
                              (expiryList w)) w)) ;;;
  cw <- get ;;
  when (negb (xrplHalted (fst cw))
        && match instanceExpirationQueue (fst cw) with
           | [] => false
           | _ :: _ => true
           end)
       (expire_loop (instanceExpirationQueue (fst cw))).

(** Whether the lease token of an entry still exists, and whether
    [#expireInstance] gets through for it: the token is gone, or the
    daemon destroys the instance. *)
Definition has_token (i : ExpiryItem) : bool :=
  match getLeaseByIndex E (containerName i) with
  | Some _ => true
  | None => false
  end.

Definition expires_cleanly (i : ExpiryItem) : bool :=
  match getLeaseByIndex E (containerName i) with
  | None => true
  | Some _ =>
      match sashi_destroy E (Some (containerName i)) with
      | None => true
      | Some _ => false
      end
  end.

(** The [try] block of [handleTerminateLease]. *)
Definition terminate_try (r : TerminateEvent) : Sch unit :=
  if negb (t_Destination r =? cfg_address E)%string then throw throw_str
  else
    let hostingToken := getLeaseByIndex E (t_uriTokenId r) in
    on_board (updateLastIndexRecord (t_LedgerIndex r)) ;;;
    match hostingToken with
    | None => throw throw_str
    | Some hostingToken =>
      if negb (Owner hostingToken =? t_tenant r)%string then throw throw_str
      else
        cw <- get ;;
        match find (fun i => is_active (status i))
                   (filter (has_container (index hostingToken))
                           (leases (snd cw))) with
        | None => throw throw_str
        | Some instance =>
          match find (fun i => (containerName i =? container_name instance)%string)
                     (expiryList (snd cw)) with
          | Some item =>
              if negb (xrplHalted (fst cw)) then
                on_board (removeFromExpiryList (container_name instance)) ;;;
                expireInstance item
              else ret tt
          | None => ret tt
          end
        end
    end.

(** [handleTerminateLease]: an error is only logged. *)
Definition handleTerminateLease (r : TerminateEvent) : Sch unit :=
  try_catch (terminate_try r) (fun _ => ret tt).

(** One round of the clock scheduler ([#startSashimonoClockScheduler]):
    the halt check at [currentTime] (milliseconds), the expiry pass, the
    drain of the transaction queue. *)
Definition clock_round (currentTime : Z) : Sch unit :=
  modify (fun cw =>
            (mk_clock (Halt.checkLedgersForHalt currentTime (halt (fst cw)))
                      (instanceExpirationQueue (fst cw)), snd cw)) ;;;
  expireInstances ;;;
  on_board (processConcurrencyQueue E).

(** [n] drains of the transaction queue in a row. *)
Fixpoint drains (n : nat) (w : World) : World :=
  match n with
  | O => w
  | S n => drains n (processConcurrencyQueue E w)
  end.

End Jobs.

(** What a drain may leave of a queue: every action is either gone or
    still in its place, with the same callback, limit and delay and one
    attempt more. *)
Inductive Kept : list Action -> list Action -> Prop :=
| kept_nil : Kept [] []
| kept_gone (a : Action) (l l' : list Action) :
    Kept l l' -> Kept (a :: l) l'
| kept_again (a : Action) (refs : Refs) (l l' : list Action) :
    Kept l l' ->
    Kept (a :: l)
         (mk_action (callback a) refs (attempts a + 1) (maxAttempts a)
                    (delay a) :: l').

(** *** Connecting, with retries ([#connect]) *)

(** How one call of [client.connect] ends: it returns, or it throws the
    ledger's [actNotFound], or it throws something else. *)
Inductive ConnectOutcome :=
| Returned (ret : bool)
| ActNotFound
| Failed (e : Exn).

(** The delay before the next attempt, in seconds. *)
Definition retry_delay (attempts : Z) : Z :=
  if attempts >? 150 then 300 else 2 * attempts.

(** The [while (true)] loop of [#connect] on the outcomes of the
    successive calls: the result, the attempts made and the seconds
    waited.  [None]: the loop is still running when the outcomes end. *)
Fixpoint connect (outcomes : list ConnectOutcome) (attempts waited : Z)
  : option (Res unit * Z * Z) :=
  match outcomes with
  | [] => None
  | o :: rest =>
      let attempts := attempts + 1 in
      match o with
      | Returned true => Some (Ok tt, attempts, waited)
      | Returned false => connect rest attempts waited
      | ActNotFound => connect rest attempts (waited + retry_delay attempts)
      | Failed e => Some (Thrown e, attempts, waited)
      end
  end.

(** The seconds waited over [n] attempts in a row that end in
    [actNotFound]. *)
Definition total_backoff (n : Z) : Z :=
  if n <=? 150 then n * (n + 1) else 22650 + 300 * (n - 150).

(** *** Concrete boards for the examples *)

(** A ledger that rejects every submission and confirms nothing. *)
Definition ledger_down (n : nat) (t : Tx) : Outcome :=
  mk_outcome None (Some (mk_exn None None (Some "tecFAILED"))).

Definition env_down : Env :=
  mk_env "rHOST" (2 # 1) (100 # 1) "eth0" "rHOST" (2 # 1) 100 3600 1000
         (fun t => if (t =? "T1")%string then Some (token_T1 "rTENANT")
                   else None)
         (fun t => t / 3600)
         ledger_down (fun _ => false)
         1 (fun n => (1, inr (mk_create_res n "203.0.113.7")))
         (fun _ => None).

(** The clock's fields with the ledger running, and halted since 59 s. *)
Definition clock_running : Clock :=
  mk_clock (Halt.mk_halt false None None (Some 0)) [].

Definition clock_halted : Clock :=
  mk_clock (Halt.mk_halt true (Some 59000) None (Some 59000)) [].

(** The S1 board once the lease's moment is over. *)
Definition world_s1_late : World := advance_clock 3600 world_s1.

Definition terminate_T1 : TerminateEvent :=
  mk_terminate "T1" "rTENANT" "rHOST" 1003.

End Scheduler.

(* ================================================================== *)
(** * The acquire handler's outcomes *)
(* ================================================================== *)

Module Acquire.
Import MB.

Section Outcomes.
Variable E : Env.

(** The action a successful acquire queues. *)
Definition acquire_success_action (r : AcquireEvent) (tok : UriToken)
           (res : CreateRes) (created : Z) : Action :=
  mk_action (CbAcquireSuccess (acquireRefId r) (a_tenant r) res
                              (ip_address (URI tok))
                              (lastValidatedLedgerIndex E) created)
            None 0 5 0.

(** The action the handler's [catch] queues. *)
Definition acquire_error_action (r : AcquireEvent) (why : Content) : Action :=
  mk_action (CbAcquireError (acquireRefId r) (a_tenant r) (a_leaseAmount r) why)
            None 0 5 0.

(** The world when the daemon has answered the create request with an
    error. *)
Definition after_failed_create (r : AcquireEvent) (secs : Z) (w : World)
  : World :=
  advance_clock
    secs
    (log_sashi
       (SashiCreate (a_uriTokenId r))
       (advance_clock
          (sashi_wait E)
          (log_sashi SashiWait
             (set_leases
                (leases w
                 ++ [mk_lease 0 (acquireRefId r) (a_tenant r) 1
                              (a_uriTokenId r) None ACQUIRING])
                         (updateLastIndexRecord (a_LedgerIndex r) w))))).

End Outcomes.

(** *** Concrete boards for the examples *)

(** The board of [env_fine] with a daemon that answers every create
    request with the error [e] after one second. *)
Definition env_failing (e : Exn) : Env :=
  mk_env "rHOST" (2 # 1) (100 # 1) "eth0" "rHOST" (2 # 1) 100 3600 1000
         (fun t => if (t =? "T1")%string then Some (token_T1 "rTENANT")
                   else None)
         (fun t => t / 3600)
         ledger_ok (fun _ => true)
         1 (fun n => (1, inl e))
         (fun _ => None).

(** The daemon's answers when docker cannot create the container, and
    when the created instance cannot be initiated. *)
Definition create_error : Exn :=
  mk_exn (Some "create_error") (Some (CStr "container_start_error")) None.

Definition initiate_error : Exn :=
  mk_exn (Some "initiate_error") (Some (CObj "T1" "container_conf_error")) None.

End Acquire.

(* ------------------------------------------------------------------ *)
(** ** Event traces of the halt detector                               *)
(* ------------------------------------------------------------------ *)

Module HaltTrace.
Import Halt.

(** Every check of the trace comes less than [haltTimeout] after the
    ledger event before it ([last]: the latest ledger event so far). *)
Fixpoint timely (last : option Z) (es : list event) : bool :=
  match es with
  | [] => true
  | Ledger t :: rest => timely (Some t) rest
  | Check t :: rest =>
      match last with
      | Some l => t - l <? haltTimeout * 1000
      | None => true
      end && timely last rest
  end.

(** What holds of the detector's fields after any events. *)
Definition detector_ok (es : list event) (st : halt_state) : Prop :=
  (forall t, graceTimeoutRef st = Some t -> xrplHalted st = true)
  /\ (xrplHalted st = true ->
      exists h, lastHaltedTime st = Some h /\ In (Ledger h) es)
  /\ (forall l, lastLedgerTime st = Some l -> In (Ledger l) es).

Definition is_check (e : event) : bool :=
  match e with Check _ => true | Ledger _ => false end.

(** A ledger event every second for a minute, a check every two. *)
Definition steady_events : list event :=
  flat_map (fun s => Ledger (1000 * s)
                     :: (if s mod 2 =? 0 then [Check (1000 * s + 500)] else []))
           (map Z.of_nat (seq 0 60)).

End HaltTrace.

(* ================================================================== *)
(** * Part II: properties                                              *)
(* ================================================================== *)

(** ** The socket transport *)

Section CommFacts.
Import Comm.

Lemma store_length {A} (i : nat) (v : A) (a : list A) :
  length (store i v a) = length a.
Proof.
  revert i; induction a as [|h t IH]; intros [|i]; simpl; auto.
Qed.

Lemma byte_of_shift (x k : Z) :
  0 <= k -> to_uint8 (Z.land (Z.shiftr x k) 255) = (x / 2 ^ k) mod 256.
Proof.
  intros Hk. unfold to_uint8.
  change 255 with (Z.ones 8).
  rewrite Z.land_ones by lia.
  rewrite Z.shiftr_div_pow2 by lia.
  change (2 ^ 8) with 256.
  apply Z.mod_mod. lia.
Qed.

(** The four bytes [uint32_to_bytes] writes, and the four it leaves. *)
Lemma uint32_to_bytes_spec (b0 b1 b2 b3 b4 b5 b6 b7 x : Z) :
  uint32_to_bytes [b0; b1; b2; b3; b4; b5; b6; b7] x
  = [(x / 2 ^ 24) mod 256; (x / 2 ^ 16) mod 256; (x / 2 ^ 8) mod 256;
     x mod 256; b4; b5; b6; b7].
Proof.
  cbv [uint32_to_bytes store].
  rewrite !byte_of_shift by lia.
  rewrite Z.pow_0_r, Z.div_1_r. reflexivity.
Qed.

Lemma uint32_roundtrip (x : Z) :
  0 <= x < 4294967296 ->
  uint32_from_bytes
    [(x / 2 ^ 24) mod 256; (x / 2 ^ 16) mod 256; (x / 2 ^ 8) mod 256;
     x mod 256] = x.
Proof.
  intros Hx. cbv [uint32_from_bytes to_uint32 nth].
  rewrite !Z.shiftl_mul_pow2 by lia.
  replace (x / 2 ^ 24) with (x / 256 / 256 / 256)
    by (rewrite !Z.div_div by lia; reflexivity).
  replace (x / 2 ^ 16) with (x / 256 / 256)
    by (rewrite !Z.div_div by lia; reflexivity).
  change (2 ^ 24) with 16777216. change (2 ^ 16) with 65536.
  change (2 ^ 8) with 256.
  set (y1 := x / 256). set (y2 := y1 / 256). set (y3 := y2 / 256).
  pose proof (Z.div_mod x 256 ltac:(lia)) as E0.
  pose proof (Z.div_mod y1 256 ltac:(lia)) as E1.
  pose proof (Z.div_mod y2 256 ltac:(lia)) as E2.
  fold y1 in E0. fold y2 in E1. fold y3 in E2.
  assert (B1 : 0 <= y1 < 16777216)
    by (unfold y1; split; [apply Z.div_pos | apply Z.div_lt_upper_bound]; lia).
  assert (B2 : 0 <= y2 < 65536)
    by (unfold y2; split; [apply Z.div_pos | apply Z.div_lt_upper_bound]; lia).
  assert (B3 : 0 <= y3 < 256)
    by (unfold y3; split; [apply Z.div_pos | apply Z.div_lt_upper_bound]; lia).
  rewrite (Z.mod_small y3) by lia.
  rewrite Z.mod_small; lia.
Qed.

Lemma eight_bytes (l : bytes) :
  length l = 8%nat ->
  exists b0 b1 b2 b3 b4 b5 b6 b7, l = [b0; b1; b2; b3; b4; b5; b6; b7].
Proof.
  intros H.
  do 8 (destruct l as [|? l]; [discriminate|]).
  destruct l; [|discriminate].
  repeat eexists.
Qed.

Lemma nth_error_app_here {A} (l : list A) (x : A) (r : list A) :
  nth_error (l ++ x :: r) (length l) = Some x.
Proof.
  induction l; simpl; auto.
Qed.

(** C7, as the code has it.  Whenever [comm::send] gets its header
    out, the header is one record of eight bytes: the first four hold
    the message length as a big-endian unsigned 32-bit integer (the
    CLI's [uint32_from_bytes] reads the length back), and the last four
    are the bytes the uninitialised [length_buffer] already held; the
    daemon does not write them.  The message follows when its own write
    succeeds. *)
Theorem C7_header_length_big_endian
        (stack message : bytes) (ctx : comm_ctx) (io : sock_io) :
  data_socket ctx <> -1 ->
  length stack = 8%nat ->
  Z.of_nat (length message) < 4294967296 ->
  hd false (write_fail io) = false ->
  let n := Z.of_nat (length message) in
  let hdr := [(n / 2 ^ 24) mod 256; (n / 2 ^ 16) mod 256;
              (n / 2 ^ 8) mod 256; n mod 256] ++ skipn 4 stack in
  let io' := snd (send stack message ctx io) in
  sent_header io io' = Some hdr
  /\ length hdr = 8%nat
  /\ uint32_from_bytes hdr = n
  /\ data_socket (snd (fst (send stack message ctx io))) = -1
  /\ (hd false (tl (write_fail io)) = false ->
      wire io' = wire io ++ [hdr; message]
      /\ fst (fst (send stack message ctx io)) = 0).
Proof.
  intros Hsock Hlen Hn Hw n hdr io'.
  destruct (eight_bytes stack Hlen)
    as (b0 & b1 & b2 & b3 & b4 & b5 & b6 & b7 & ->).
  assert (Hrt : uint32_from_bytes hdr = n).
  { pose proof (uint32_roundtrip n ltac:(lia)) as R.
    unfold uint32_from_bytes in *. exact R. }
  assert (Hneg : (n =? -1) = false) by (apply Z.eqb_neq; lia).
  assert (Hfull : firstn (Z.to_nat n) message = message)
    by (unfold n; rewrite Nat2Z.id; apply firstn_all).
  assert (Hhdr : firstn (Z.to_nat 8) hdr = hdr) by reflexivity.
  subst io'. unfold send.
  apply Z.eqb_neq in Hsock. rewrite Hsock.
  unfold to_uint32. rewrite Z.mod_small by lia. fold n.
  rewrite uint32_to_bytes_spec.
  change ([(n / 2 ^ 24) mod 256; (n / 2 ^ 16) mod 256; (n / 2 ^ 8) mod 256;
           n mod 256; b4; b5; b6; b7]) with hdr.
  unfold sent_header, sys_write.
  destruct (write_fail io) as [|[|] [|[|] rest]];
    cbn [hd tl] in Hw |- *; try discriminate Hw.
  all: cbn [fst snd wire write_fail inbox data_socket disconnect];
    change (8 =? -1) with false; cbn iota;
    cbn [fst snd wire write_fail inbox data_socket disconnect];
    rewrite ?Hneg, ?Hhdr, ?Hfull.
  all: refine (conj _ (conj eq_refl (conj Hrt (conj eq_refl _)))).
  all: try (rewrite <- ?app_assoc; apply nth_error_app_here).
  all: intros Hw2; try discriminate Hw2.
  all: split; [rewrite <- app_assoc; reflexivity | reflexivity].
Qed.

(** The theorem at the two-byte message [{}] sent over a dirty stack,
    both writes going through. *)
Lemma C7_header_witness :
  sent_header io_idle (snd (send stack_dirty msg_ok ctx_connected io_idle))
  = Some [0; 0; 0; 2; 255; 255; 255; 255]
  /\ wire (snd (send stack_dirty msg_ok ctx_connected io_idle))
     = [[0; 0; 0; 2; 255; 255; 255; 255]; msg_ok].
Proof.
  pose proof (C7_header_length_big_endian
                stack_dirty msg_ok ctx_connected io_idle
                ltac:(discriminate) eq_refl eq_refl eq_refl) as H.
  cbv zeta in H. destruct H as (H1 & _ & _ & _ & H5).
  split; [exact H1 | exact (proj1 (H5 eq_refl))].
Defined.

(** C7 as the specification words it fails: the reserved half of the
    header is not zero when the stack was not. *)
Lemma C7_reserved_bytes_not_zeroed :
  exists hdr,
    sent_header io_idle (snd (send stack_dirty msg_ok ctx_connected io_idle))
    = Some hdr
    /\ skipn 4 hdr <> [0; 0; 0; 0].
Proof.
  exists [0; 0; 0; 2; 255; 255; 255; 255].
  split; [reflexivity | discriminate].
Qed.

(** C8, as the code has it.  One [read] takes the next record into the
    4096-byte buffer: a request of at most [BUFFER_SIZE] bytes arrives
    whole, a longer one is seen by [handle_message] cut to its first
    4096 bytes, and the rest of the record is gone.
    [DEFAULT_MAX_MSG_SIZE] plays no part. *)
Theorem C8_read_one_record_of_buffer_size
        (ctx : comm_ctx) (read_buffer : bytes) (io : sock_io)
        (request : bytes) (rest : list (option bytes)) :
  inbox io = Some request :: rest ->
  let '(ret, buf, io') := read_socket ctx read_buffer io in
  ret = Z.min (Z.of_nat (length request)) BUFFER_SIZE
  /\ message_view buf ret = firstn 4096 request
  /\ inbox io' = rest
  /\ (Z.of_nat (length request) <= BUFFER_SIZE ->
      message_view buf ret = request).
Proof.
  intros Hin. unfold read_socket, sys_read. rewrite Hin.
  change (Z.to_nat BUFFER_SIZE) with 4096%nat.
  set (got := firstn 4096 request).
  assert (Hgot : Z.of_nat (length got)
                 = Z.min (Z.of_nat (length request)) BUFFER_SIZE).
  { unfold got, BUFFER_SIZE. rewrite length_firstn. lia. }
  destruct (Z.of_nat (length got) =? -1) eqn:Eneg;
    [apply Z.eqb_eq in Eneg; lia|].
  assert (Hview : message_view (got ++ skipn (length got) read_buffer)
                               (Z.of_nat (length got)) = got).
  { unfold message_view. rewrite Nat2Z.id.
    rewrite firstn_app, Nat.sub_diag, firstn_all. simpl.
    apply app_nil_r. }
  repeat split; auto.
  intros Hle. rewrite Hview. unfold got.
  apply firstn_all2. unfold BUFFER_SIZE in Hle. lia.
Qed.

(** The theorem at a well-formed two-byte request read into the zeroed
    buffer. *)
Lemma C8_read_witness :
  message_view
    (snd (fst (read_socket ctx_connected (repeat 0 4096)
                           (mk_io [] [] [Some msg_ok]))))
    (fst (fst (read_socket ctx_connected (repeat 0 4096)
                           (mk_io [] [] [Some msg_ok]))))
  = msg_ok.
Proof.
  pose proof (C8_read_one_record_of_buffer_size
                ctx_connected (repeat 0 4096) (mk_io [] [] [Some msg_ok])
                msg_ok [] eq_refl) as H.
  destruct (read_socket ctx_connected (repeat 0 4096)
                        (mk_io [] [] [Some msg_ok]))
    as [[ret buf] io'].
  simpl. apply H. vm_compute. discriminate.
Defined.

(** C8 as the specification words it fails: a request of 5000 bytes,
    far below 1 MiB, reaches [handle_message] as 4096 bytes. *)
Lemma C8_request_of_5000_bytes_truncated :
  Z.of_nat (length request_5000) <= DEFAULT_MAX_MSG_SIZE
  /\ let '(ret, buf, _) :=
       read_socket ctx_connected (repeat 0 4096)
                   (mk_io [] [] [Some request_5000]) in
     ret = 4096
     /\ length (message_view buf ret) = 4096%nat
     /\ message_view buf ret <> request_5000.
Proof.
  split; [vm_compute; discriminate|].
  vm_compute. repeat split.
  intros H. apply (f_equal (@length Z)) in H. vm_compute in H. discriminate.
Qed.

End CommFacts.

(** ** The port allocator *)

Section HpFacts.
Import Hp.
Context {DB : Type} {SQL : Sqlite DB}.
Variable cfg : hp_conf.
Variable os : os_env.

Lemma same_globals_refl (a : hp_state DB) : same_globals a a.
Proof. repeat split. Qed.

Lemma same_globals_log (c : os_call) (a b : hp_state DB) :
  same_globals a b -> same_globals a (log_os c b).
Proof. intros (H1 & H2 & H3 & H4). repeat split; assumption. Qed.

Lemma ports_eqb_eq (a b : ports) : ports_eqb a b = true <-> a = b.
Proof.
  destruct a, b; unfold ports_eqb; simpl.
  rewrite !andb_true_iff, !Z.eqb_eq.
  split; [intros [[[-> ->] ->] ->]; reflexivity | intros H; inversion H; auto].
Qed.

Lemma pick_ports_vacant (st : hp_state DB) (v : list ports) (p : ports) :
  vacant_ports st = v ++ [p] ->
  pick_ports st
  = (p, mk_state (db st) (vacant_ports st) (last_assigned_ports st) true
                 (os_trace st)).
Proof.
  intros H. unfold pick_ports. rewrite H, rev_app_distr. reflexivity.
Qed.

Lemma pick_ports_fresh (st : hp_state DB) :
  vacant_ports st = [] ->
  pick_ports st
  = (next_ports (fresh_base st),
     mk_state (db st) [] (fresh_base st) false (os_trace st)).
Proof.
  intros H. unfold pick_ports, fresh_base. rewrite H. simpl.
  destruct st as [d v l [|] t]; simpl in *; subst; reflexivity.
Qed.

(** What [pick_ports] leaves of the globals. *)
Lemma pick_ports_globals (st st1 : hp_state DB) (p : ports) :
  pick_ports st = (p, st1) ->
  db st1 = db st /\ vacant_ports st1 = vacant_ports st
  /\ os_trace st1 = os_trace st
  /\ last_assigned_ports st1
     = (if match vacant_ports st with [] => true | _ => false end
           && last_port_assign_from_vacant st
        then get_max_ports (db st) (last_assigned_ports st)
        else last_assigned_ports st).
Proof.
  unfold pick_ports. intros H.
  destruct (vacant_ports st) as [|q v] eqn:Ev.
  - simpl in H. destruct (last_port_assign_from_vacant st);
      inversion H; subst; simpl; auto.
  - destruct (rev (q :: v)) as [|b r] eqn:Er.
    + apply (f_equal (@length ports)) in Er.
      rewrite length_rev in Er. discriminate.
    + inversion H; subst; simpl; auto.
Qed.

(** Every way [create_new_instance] can end. *)
Lemma create_new_instance_outcome
      (info0 : instance_info) (c owner contract image ipv6 netif : string)
      (st : hp_state DB) :
  let '(r, e, info', st') :=
    create_new_instance cfg os info0 c owner contract image ipv6 netif st in
  (r = -1 /\ st' = st
   /\ (e = INSTANCE_ALREADY_EXISTS \/ e = DB_READ_ERROR
       \/ e = MAX_ALLOCATION_REACHED \/ e = CONTRACT_ID_INVALID))
  \/ exists p st1,
      pick_ports st = (p, st1)
      /\ ((r = -1 /\ e = USER_INSTALL_ERROR
           /\ st' = log_os (OsInstallUser c p image) st1)
          \/ exists uid user,
              install_user_res os c p = Some (uid, user)
              /\ ((r = -1 /\ e = INSTANCE_ERROR /\ same_globals st1 st'
                   /\ exists mid,
                       os_trace st'
                       = os_trace st1 ++ OsInstallUser c p image :: mid
                         ++ [OsUninstallUser user p c])
                  \/ (r = -1 /\ e = DB_WRITE_ERROR /\ same_globals st1 st'
                      /\ exists mid,
                          os_trace st'
                          = os_trace st1 ++ OsInstallUser c p image :: mid
                            ++ [OsDockerRemove user c;
                                OsUninstallUser user p c])
                  \/ (r = 0 /\ assigned_ports info' = p
                      /\ exists st3 db',
                          same_globals st1 st3
                          /\ insert_hp_instance_row (db st3) info' = Some db'
                          /\ st' = commit_ports p db' st3))).
Proof.
  unfold create_new_instance.
  destruct (get_instance (db st) c); [left; auto|].
  destruct (get_allocated_instance_count (db st) =? -1); [left; auto|].
  destruct (to_size_t (get_allocated_instance_count (db st))
            >=? max_instance_count cfg); [left; auto 6|].
  destruct (negb (verify_uuid os contract)); [left; auto 6|].
  destruct (pick_ports st) as [p st1] eqn:Hp.
  unfold install_user.
  destruct (install_user_res os c p) as [[uid user]|] eqn:Hinst;
    [|right; exists p, st1; split; [reflexivity|]; left; auto].
  unfold create_contract.
  destruct (create_contract_res os user (get_user_contract_dir os user c))
    as [pk|].
  - change (0 =? -1) with false. cbv iota.
    unfold create_container.
    destruct (create_container_res os user c).
    + change (0 =? -1) with false. cbv iota.
      cbn [db log_os].
      match goal with
      | |- context [insert_hp_instance_row ?d ?i] =>
          destruct (insert_hp_instance_row d i) as [db'|] eqn:Hins
      end.
      * right; exists p, st1; split; [reflexivity|].
        right; exists uid, user; split; [exact Hinst|].
        right. right. split; [reflexivity|]. split; [reflexivity|].
        eexists _, db'. refine (conj _ (conj _ eq_refl)); [|exact Hins].
        repeat apply same_globals_log. apply same_globals_refl.
      * unfold docker_remove, uninstall_user.
        right; exists p, st1; split; [reflexivity|].
        right; exists uid, user; split; [exact Hinst|].
        right. left.
        split; [reflexivity|]. split; [reflexivity|]. split.
        { repeat apply same_globals_log. apply same_globals_refl. }
        eexists [_; _]. cbn [os_trace log_os].
        rewrite <- !app_assoc. reflexivity.
    + change (-1 =? -1) with true. cbv iota.
      unfold uninstall_user.
      right; exists p, st1; split; [reflexivity|].
      right; exists uid, user; split; [exact Hinst|].
      left.
      split; [reflexivity|]. split; [reflexivity|]. split.
      { repeat apply same_globals_log. apply same_globals_refl. }
      eexists [_; _]. cbn [os_trace log_os].
      rewrite <- !app_assoc. reflexivity.
  - change (-1 =? -1) with true. cbv iota.
    unfold uninstall_user.
    right; exists p, st1; split; [reflexivity|].
    right; exists uid, user; split; [exact Hinst|].
    left.
    split; [reflexivity|]. split; [reflexivity|]. split.
    { repeat apply same_globals_log. apply same_globals_refl. }
    eexists [_]. cbn [os_trace log_os].
    rewrite <- !app_assoc. reflexivity.
Qed.

Lemma create_new_instance_name_free
      (info0 : instance_info) (c owner contract image ipv6 netif : string)
      (st : hp_state DB) r e info' st' :
  create_new_instance cfg os info0 c owner contract image ipv6 netif st
  = (r, e, info', st') ->
  e <> INSTANCE_ALREADY_EXISTS ->
  get_instance (db st) c = None.
Proof.
  unfold create_new_instance.
  destruct (get_instance (db st) c); [|reflexivity].
  intros H; inversion H; subst. congruence.
Qed.

Lemma commit_ports_vacant (p : ports) (d : DB) (st : hp_state DB) :
  last_port_assign_from_vacant st = true ->
  vacant_ports (commit_ports p d st) = removelast (vacant_ports st)
  /\ last_assigned_ports (commit_ports p d st) = last_assigned_ports st.
Proof. intros H. unfold commit_ports. rewrite H. split; reflexivity. Qed.

Lemma commit_ports_fresh (p : ports) (d : DB) (st : hp_state DB) :
  last_port_assign_from_vacant st = false ->
  vacant_ports (commit_ports p d st) = vacant_ports st
  /\ last_assigned_ports (commit_ports p d st) = p.
Proof. intros H. unfold commit_ports. rewrite H. split; reflexivity. Qed.

(** A successful create that finds a vacant tuple takes the one at the
    back of the list and removes it. *)
Lemma create_takes_back
      (info0 : instance_info) (c owner contract image ipv6 netif : string)
      (st : hp_state DB) (v : list ports) (p : ports) e info' st' :
  vacant_ports st = v ++ [p] ->
  create_new_instance cfg os info0 c owner contract image ipv6 netif st
  = (0, e, info', st') ->
  assigned_ports info' = p /\ vacant_ports st' = v
  /\ last_assigned_ports st' = last_assigned_ports st.
Proof.
  intros Hv Hc.
  pose proof (create_new_instance_outcome info0 c owner contract image
                                          ipv6 netif st) as O.
  rewrite Hc in O.
  destruct O as [(Hr & _) | (q & st1 & Hp & O)]; [discriminate|].
  rewrite (pick_ports_vacant st v p Hv) in Hp.
  inversion Hp; subst q st1; clear Hp.
  destruct O as [(Hr & _) | (uid & user & _ & O)]; [discriminate|].
  destruct O as [(Hr & _) | [(Hr & _) | (_ & Hap & st3 & db' & G & _ & ->)]];
    try discriminate.
  destruct G as (G1 & G2 & G3 & G4). cbn in G1, G2, G3, G4.
  destruct (commit_ports_vacant p db' st3 (eq_sym G4)) as (C1 & C2).
  rewrite C1, C2, <- G2, <- G3, Hv, removelast_last. auto.
Qed.

(** A successful create that finds the vacant list empty counts on from
    the base. *)
Lemma create_counts_on
      (info0 : instance_info) (c owner contract image ipv6 netif : string)
      (st : hp_state DB) e info' st' :
  vacant_ports st = [] ->
  create_new_instance cfg os info0 c owner contract image ipv6 netif st
  = (0, e, info', st') ->
  assigned_ports info' = next_ports (fresh_base st)
  /\ last_assigned_ports st' = next_ports (fresh_base st)
  /\ vacant_ports st' = [].
Proof.
  intros Hv Hc.
  pose proof (create_new_instance_outcome info0 c owner contract image
                                          ipv6 netif st) as O.
  rewrite Hc in O.
  destruct O as [(Hr & _) | (q & st1 & Hp & O)]; [discriminate|].
  rewrite (pick_ports_fresh st Hv) in Hp.
  inversion Hp; subst q st1; clear Hp.
  destruct O as [(Hr & _) | (uid & user & _ & O)]; [discriminate|].
  destruct O as [(Hr & _) | [(Hr & _) | (_ & Hap & st3 & db' & G & _ & ->)]];
    try discriminate.
  destruct G as (G1 & G2 & G3 & G4). cbn in G1, G2, G3, G4.
  destruct (commit_ports_fresh (next_ports (fresh_base st)) db' st3
                               (eq_sym G4)) as (C1 & C2).
  rewrite C1, C2, <- G2. auto.
Qed.

(** A successful destroy of an instance whose tuple is not yet vacant
    and has its general-purpose ports puts the tuple at the back. *)
Lemma destroy_pushes_back
      (c : string) (i : instance_info) (st : hp_state DB) e st' :
  is_container_exists (db st) c = Some i ->
  gp_tcp_port_start (assigned_ports i) <> 0 ->
  existsb (ports_eqb (assigned_ports i)) (vacant_ports st) = false ->
  destroy_container cfg os c st = (0, e, st') ->
  vacant_ports st' = vacant_ports st ++ [assigned_ports i]
  /\ last_assigned_ports st' = last_assigned_ports st
  /\ last_port_assign_from_vacant st' = last_port_assign_from_vacant st.
Proof.
  intros Hi Hgp Hnew. unfold destroy_container, uninstall_user. rewrite Hi.
  destruct (uninstall_user_res os (username i) c);
    [change (0 =? -1) with false | change (-1 =? -1) with true];
    cbv iota; [|discriminate].
  cbn [db log_os vacant_ports last_assigned_ports
       last_port_assign_from_vacant os_trace].
  destruct (delete_hp_instance (db st) c) as [db'|]; [|discriminate].
  rewrite Hnew. unfold freed_ports.
  apply Z.eqb_neq in Hgp. rewrite Hgp.
  intros H; inversion H; subst; cbn. auto.
Qed.

Lemma next_ports_no_wrap (p : ports) :
  0 <= peer_port p < 65535 -> 0 <= user_port p < 65535 ->
  0 <= gp_tcp_port_start p < 65534 -> 0 <= gp_udp_port_start p < 65534 ->
  next_ports p
  = mk_ports (peer_port p + 1) (user_port p + 1)
             (gp_tcp_port_start p + 2) (gp_udp_port_start p + 2).
Proof.
  intros. unfold next_ports, to_uint16.
  rewrite !Z.mod_small by lia. reflexivity.
Qed.

(** C9, as the code has it.  For every state of the daemon:
    - a successful destroy of an instance whose port tuple carries its
      general-purpose ports and is not already vacant pushes that tuple
      to the back of the vacant list;
    - a successful create takes the tuple at the back of the vacant list
      (most recently freed first) and removes it;
    - with the vacant list empty, a successful create assigns the tuple
      after the base, +1 on the peer and user ports and +2 on both
      general-purpose starts (in 16 bits), and records it as last
      assigned; the base is the last assigned tuple, re-read from the
      instance table when the previous allocation came from the vacant
      list;
    - so such a destroy followed by a successful create reuses the
      freed tuple and leaves the vacant list as it was. *)
Theorem C9_freed_ports_reused_lifo :
  (forall (c : string) (i : instance_info) (st : hp_state DB) e st',
      is_container_exists (db st) c = Some i ->
      gp_tcp_port_start (assigned_ports i) <> 0 ->
      existsb (ports_eqb (assigned_ports i)) (vacant_ports st) = false ->
      destroy_container cfg os c st = (0, e, st') ->
      vacant_ports st' = vacant_ports st ++ [assigned_ports i])
  /\ (forall info0 c owner contract image ipv6 netif
             (st : hp_state DB) v p e info' st',
         vacant_ports st = v ++ [p] ->
         create_new_instance cfg os info0 c owner contract image ipv6 netif st
         = (0, e, info', st') ->
         assigned_ports info' = p /\ vacant_ports st' = v)
  /\ (forall info0 c owner contract image ipv6 netif
             (st : hp_state DB) e info' st',
         vacant_ports st = [] ->
         create_new_instance cfg os info0 c owner contract image ipv6 netif st
         = (0, e, info', st') ->
         assigned_ports info' = next_ports (fresh_base st)
         /\ last_assigned_ports st' = next_ports (fresh_base st)
         /\ (0 <= peer_port (fresh_base st) < 65535 ->
             0 <= user_port (fresh_base st) < 65535 ->
             0 <= gp_tcp_port_start (fresh_base st) < 65534 ->
             0 <= gp_udp_port_start (fresh_base st) < 65534 ->
             assigned_ports info'
             = mk_ports (peer_port (fresh_base st) + 1)
                        (user_port (fresh_base st) + 1)
                        (gp_tcp_port_start (fresh_base st) + 2)
                        (gp_udp_port_start (fresh_base st) + 2)))
  /\ (forall (c : string) (i : instance_info) (st : hp_state DB) e1 st1
             info0 c' owner contract image ipv6 netif e2 info' st2,
         is_container_exists (db st) c = Some i ->
         gp_tcp_port_start (assigned_ports i) <> 0 ->
         existsb (ports_eqb (assigned_ports i)) (vacant_ports st) = false ->
         destroy_container cfg os c st = (0, e1, st1) ->
         create_new_instance cfg os info0 c' owner contract image ipv6 netif
                             st1
         = (0, e2, info', st2) ->
         assigned_ports info' = assigned_ports i
         /\ vacant_ports st2 = vacant_ports st).
Proof.
  split; [|split; [|split]].
  - intros c i st e st' Hi Hgp Hnew Hd.
    apply (destroy_pushes_back c i st e st' Hi Hgp Hnew Hd).
  - intros info0 c owner contract image ipv6 netif st v p e info' st' Hv Hc.
    destruct (create_takes_back _ _ _ _ _ _ _ _ _ _ _ _ _ Hv Hc)
      as (H1 & H2 & _).
    auto.
  - intros info0 c owner contract image ipv6 netif st e info' st' Hv Hc.
    destruct (create_counts_on _ _ _ _ _ _ _ _ _ _ _ Hv Hc) as (H1 & H2 & _).
    split; [exact H1 | split; [exact H2|]].
    intros B1 B2 B3 B4. rewrite H1. apply next_ports_no_wrap; assumption.
  - intros c i st e1 st1 info0 c' owner contract image ipv6 netif e2 info' st2
           Hi Hgp Hnew Hd Hc.
    destruct (destroy_pushes_back c i st e1 st1 Hi Hgp Hnew Hd) as (Hv & _).
    destruct (create_takes_back _ _ _ _ _ _ _ _ _ _ _ _ _ Hv Hc)
      as (H1 & H2 & _).
    auto.
Qed.

(** C10, as the code has it.  When [create_new_instance] fails after the
    install script succeeded, with [instance_error] or [db_write_error],
    then before it returns the last requests made of the operating
    system are the rollback: the user's uninstall, preceded by the
    container's removal when the table insert was what failed.  The
    instance table is as it was and has no row of that name, and the
    vacant list is unchanged.  The last assigned tuple is never advanced
    to the failed instance's ports: it is unchanged, except that a create
    which found the vacant list empty after an allocation from it (or
    after start-up) has re-read it from the table. *)
Theorem C10_failed_create_rolls_back
        (info0 : instance_info) (c owner contract image ipv6 netif : string)
        (st : hp_state DB) e info' st' :
  create_new_instance cfg os info0 c owner contract image ipv6 netif st
  = (-1, e, info', st') ->
  e = INSTANCE_ERROR \/ e = DB_WRITE_ERROR ->
  db st' = db st
  /\ get_instance (db st') c = None
  /\ vacant_ports st' = vacant_ports st
  /\ last_assigned_ports st'
     = (if match vacant_ports st with [] => true | _ => false end
           && last_port_assign_from_vacant st
        then get_max_ports (db st) (last_assigned_ports st)
        else last_assigned_ports st)
  /\ exists p user mid,
      os_trace st'
      = os_trace st ++ OsInstallUser c p image :: mid
        ++ (if (e =? DB_WRITE_ERROR)%string
            then [OsDockerRemove user c; OsUninstallUser user p c]
            else [OsUninstallUser user p c]).
Proof.
  intros Hc He.
  assert (Hfree : get_instance (db st) c = None).
  { apply (create_new_instance_name_free _ _ _ _ _ _ _ _ _ _ _ _ Hc).
    destruct He as [-> | ->]; discriminate. }
  pose proof (create_new_instance_outcome info0 c owner contract image
                                          ipv6 netif st) as O.
  rewrite Hc in O.
  destruct O as [(_ & _ & Hpre) | (p & st1 & Hp & O)].
  { destruct He as [-> | ->];
      destruct Hpre as [H | [H | [H | H]]]; discriminate H. }
  destruct (pick_ports_globals st st1 p Hp) as (P1 & P2 & P3 & P4).
  destruct O as [(_ & Hu & _) | (uid & user & _ & O)].
  { destruct He as [-> | ->]; discriminate Hu. }
  destruct O as [(_ & Hi & G & mid & T)
                | [(_ & Hi & G & mid & T) | (Hr & _)]];
    [| |discriminate Hr];
    destruct G as (G1 & G2 & G3 & G4);
    (split; [congruence|]); (split; [congruence|]);
    (split; [congruence|]); (split; [congruence|]);
    exists p, user, mid; rewrite T, P3; subst e; reflexivity.
Qed.

End HpFacts.

(** The theorem on the S1 host.  With two instances, [T2] is destroyed
    and [T3] created in its place; right after start-up, with nothing
    vacant, [T2] is given the tuple after the table's largest. *)
Lemma C9_reuse_witness :
  (Hp.assigned_ports
     (snd (fst (Hp.create_s1 Hp.os_fine "T3"
                  (snd (Hp.destroy_s1 Hp.os_fine "T2" Hp.st_two)))))
   = Hp.ports_s1_next
   /\ Hp.vacant_ports
        (snd (Hp.create_s1 Hp.os_fine "T3"
                (snd (Hp.destroy_s1 Hp.os_fine "T2" Hp.st_two))))
      = Hp.vacant_ports Hp.st_two)
  /\ Hp.assigned_ports (snd (fst (Hp.create_s1 Hp.os_fine "T2" Hp.st_started)))
     = Hp.ports_s1_next.
Proof.
  pose proof (C9_freed_ports_reused_lifo (SQL := Hp.list_sqlite Hp.cfg_s1)
                                         Hp.cfg_s1 Hp.os_fine)
    as (_ & _ & Hfresh & Hreuse).
  split.
  - exact (Hreuse
             "T2" (Hp.inst "T2" Hp.ports_s1_next) Hp.st_two ""
             (snd (Hp.destroy_s1 Hp.os_fine "T2" Hp.st_two))
             Hp.info_empty "T3" "OWNER" "CID" "img--dev" "-" "-" ""
             (snd (fst (Hp.create_s1 Hp.os_fine "T3"
                          (snd (Hp.destroy_s1 Hp.os_fine "T2" Hp.st_two)))))
             (snd (Hp.create_s1 Hp.os_fine "T3"
                     (snd (Hp.destroy_s1 Hp.os_fine "T2" Hp.st_two))))
             eq_refl ltac:(discriminate) eq_refl eq_refl eq_refl).
  - exact (proj1 (Hfresh
                    Hp.info_empty "T2" "OWNER" "CID" "img--dev" "-" "-"
                    Hp.st_started ""
                    (snd (fst (Hp.create_s1 Hp.os_fine "T2" Hp.st_started)))
                    (snd (Hp.create_s1 Hp.os_fine "T2" Hp.st_started))
                    eq_refl eq_refl)).
Defined.

(** C9 as the specification words it fails: on a host whose instance
    was made without general-purpose ports, the destroy succeeds, the
    next create succeeds, and the tuple it is given is not the freed
    one; what went to the vacant list is not the instance's tuple. *)
Lemma C9_legacy_tuple_not_reused :
  let d := Hp.destroy_s1 Hp.os_fine "T1" Hp.st_legacy in
  let k := Hp.create_s1 Hp.os_fine "T1" (snd d) in
  Hp.is_container_exists (Sqlite := Hp.list_sqlite Hp.cfg_s1)
                         (Hp.db Hp.st_legacy) "T1"
  = Some (Hp.inst "T1" (Hp.mk_ports 22861 26201 0 0))
  /\ fst (fst d) = 0
  /\ Hp.vacant_ports (snd d) = [Hp.mk_ports 26201 22861 36525 39064]
  /\ fst (fst (fst k)) = 0
  /\ Hp.assigned_ports (snd (fst k)) = Hp.mk_ports 26201 22861 36525 39064
  /\ Hp.assigned_ports (snd (fst k)) <> Hp.mk_ports 22861 26201 0 0.
Proof.
  vm_compute. repeat split. discriminate.
Qed.

(** The theorem on the S1 host right after start-up: when the container
    runtime refuses the new container, and when the instance table
    cannot be written. *)
Lemma C10_rollback_witness :
  (Hp.db (snd (Hp.create_s1 Hp.os_no_container "T2" Hp.st_started))
   = Hp.db Hp.st_started
   /\ Hp.vacant_ports
        (snd (Hp.create_s1 Hp.os_no_container "T2" Hp.st_started))
      = []
   /\ Hp.os_trace (snd (Hp.create_s1 Hp.os_no_container "T2" Hp.st_started))
      = [Hp.OsInstallUser "T2" Hp.ports_s1_next "img--dev";
         Hp.OsCreateContract "sashiT2" "/home/sashiT2/T2" Hp.ports_s1_next;
         Hp.OsCreateContainer "sashiT2" "img" "T2" "/home/sashiT2/T2"
                              Hp.ports_s1_next;
         Hp.OsUninstallUser "sashiT2" Hp.ports_s1_next "T2"])
  /\ (Hp.db (snd (Hp.create_s1 Hp.os_fine "T2" Hp.st_readonly))
      = Hp.db Hp.st_readonly
      /\ Hp.os_trace (snd (Hp.create_s1 Hp.os_fine "T2" Hp.st_readonly))
         = [Hp.OsInstallUser "T2" Hp.ports_s1_next "img--dev";
            Hp.OsCreateContract "sashiT2" "/home/sashiT2/T2" Hp.ports_s1_next;
            Hp.OsCreateContainer "sashiT2" "img" "T2" "/home/sashiT2/T2"
                                 Hp.ports_s1_next;
            Hp.OsDockerRemove "sashiT2" "T2";
            Hp.OsUninstallUser "sashiT2" Hp.ports_s1_next "T2"]).
Proof.
  split.
  - pose proof (C10_failed_create_rolls_back
                  (SQL := Hp.list_sqlite Hp.cfg_s1) Hp.cfg_s1
                  Hp.os_no_container
                  Hp.info_empty "T2" "OWNER" "CID" "img--dev" "-" "-"
                  Hp.st_started Hp.INSTANCE_ERROR
                  (snd (fst (Hp.create_s1 Hp.os_no_container "T2"
                                          Hp.st_started)))
                  (snd (Hp.create_s1 Hp.os_no_container "T2" Hp.st_started))
                  eq_refl (or_introl eq_refl)) as (H1 & _ & H3 & _ & _).
    split; [exact H1 | split; [exact H3 | reflexivity]].
  - pose proof (C10_failed_create_rolls_back
                  (SQL := Hp.list_sqlite Hp.cfg_s1) Hp.cfg_s1 Hp.os_fine
                  Hp.info_empty "T2" "OWNER" "CID" "img--dev" "-" "-"
                  Hp.st_readonly Hp.DB_WRITE_ERROR
                  (snd (fst (Hp.create_s1 Hp.os_fine "T2" Hp.st_readonly)))
                  (snd (Hp.create_s1 Hp.os_fine "T2" Hp.st_readonly))
                  eq_refl (or_intror eq_refl)) as (H1 & _).
    split; [exact H1 | reflexivity].
Defined.

(** C10 as stated fails: the same failed create leaves the last
    assigned tuple changed, from the start-up value to the table's
    largest ports. *)
Lemma C10_last_assigned_changed_by_failed_create :
  let k := Hp.create_s1 Hp.os_no_container "T2" Hp.st_started in
  fst (fst (fst k)) = -1
  /\ snd (fst (fst k)) = Hp.INSTANCE_ERROR
  /\ Hp.last_assigned_ports Hp.st_started = Hp.mk_ports 0 0 0 0
  /\ Hp.last_assigned_ports (snd k) = Hp.ports_s1
  /\ Hp.last_assigned_ports (snd k) <> Hp.last_assigned_ports Hp.st_started.
Proof.
  vm_compute. repeat split. discriminate.
Qed.

(** ** The halt detector *)

Section HaltFacts.
Import Halt.

Ltac halt_fields st :=
  destruct st as [hl ht g ll];
  cbn [xrplHalted lastHaltedTime graceTimeoutRef lastLedgerTime] in *;
  subst;
  unfold checkLedgersForHalt;
  cbn [xrplHalted lastHaltedTime graceTimeoutRef lastLedgerTime negb andb].

Ltac gap_case now l :=
  match goal with
  | |- context [now - l >=? haltTimeout * 1000] =>
      destruct (now - l >=? haltTimeout * 1000) eqn:?; try lia
  | |- context [now - l <? haltTimeout * 1000] =>
      destruct (now - l <? haltTimeout * 1000) eqn:?; try lia
  end;
  cbn [xrplHalted lastHaltedTime graceTimeoutRef lastLedgerTime negb andb].

(** A check that finds the ledger silent for [haltTimeout] marks the
    halt and dates it from the last ledger event. *)
Lemma halt_detected (now l : Z) (st : halt_state) :
  lastLedgerTime st = Some l ->
  xrplHalted st = false ->
  haltTimeout * 1000 <= now - l ->
  xrplHalted (checkLedgersForHalt now st) = true
  /\ lastHaltedTime (checkLedgersForHalt now st) = Some l.
Proof.
  intros Hl Hh Hgap. halt_fields st.
  gap_case now l. gap_case now l. auto.
Qed.

(** While the gap stays below [haltTimeout], a ledger that is not halted
    is not marked. *)
Lemma halt_not_detected (now l : Z) (st : halt_state) :
  lastLedgerTime st = Some l ->
  xrplHalted st = false ->
  now - l < haltTimeout * 1000 ->
  checkLedgersForHalt now st = st.
Proof.
  intros Hl Hh Hgap. halt_fields st.
  gap_case now l. reflexivity.
Qed.

(** The first check after the ledger is heard again arms the grace
    timer: a quarter of the time since the halt's date. *)
Lemma grace_armed (now l h : Z) (st : halt_state) :
  xrplHalted st = true ->
  lastHaltedTime st = Some h ->
  graceTimeoutRef st = None ->
  lastLedgerTime st = Some l ->
  now - l < haltTimeout * 1000 ->
  checkLedgersForHalt now st
  = mk_halt true (Some h)
            (Some (mk_timeout now (inject_Z (now - h) * graceThreshold)%Q))
            (Some l).
Proof.
  intros Hh Ht Hg Hl Hgap. halt_fields st.
  gap_case now l. gap_case now l. reflexivity.
Qed.

(** A check that finds the ledger silent again while the grace timer is
    pending cancels the timer; the flag stays. *)
Lemma grace_cancelled (now l : Z) (t : timeout) (st : halt_state) :
  xrplHalted st = true ->
  graceTimeoutRef st = Some t ->
  lastLedgerTime st = Some l ->
  haltTimeout * 1000 <= now - l ->
  checkLedgersForHalt now st
  = mk_halt true (lastHaltedTime st) None (Some l).
Proof.
  intros Hh Hg Hl Hgap. halt_fields st.
  gap_case now l. gap_case now l. reflexivity.
Qed.

(** The pending timer clears the flag once its delay has passed, and
    not before. *)
Lemma grace_fires (now : Z) (t : timeout) (st : halt_state) :
  xrplHalted st = true ->
  graceTimeoutRef st = Some t ->
  ((inject_Z now < deadline t)%Q -> xrplHalted (fire_due now st) = true)
  /\ ((deadline t <= inject_Z now)%Q -> xrplHalted (fire_due now st) = false).
Proof.
  intros Hh Hg. unfold fire_due. rewrite Hg.
  destruct (Qle_bool (deadline t) (inject_Z now)) eqn:E.
  - apply Qle_bool_iff in E. split; [|reflexivity].
    intros Hlt. exfalso. apply (Qlt_not_le _ _ Hlt E).
  - split; [intros _; exact Hh|].
    intros Hle. apply Qle_bool_iff in Hle. congruence.
Qed.

Lemma no_timer_no_clear (now : Z) (st : halt_state) :
  graceTimeoutRef st = None -> fire_due now st = st.
Proof. intros Hg. unfold fire_due. rewrite Hg. reflexivity. Qed.

(** In S6 the halt is dated 59 s; whichever check at or after 240 s arms
    the timer, it is not due before 285.25 s. *)
Lemma s6_grace_not_before (c : Z) :
  240000 <= c ->
  (inject_Z 285250
   <= deadline (mk_timeout c (inject_Z (c - 59000) * graceThreshold)))%Q.
Proof.
  intros Hc. unfold deadline, graceThreshold, Qle, Qplus, Qmult, inject_Z.
  cbn [armed_at delay Qnum Qden]. lia.
Qed.

(** C6, as the code has it.  A scheduler check that finds the time
    since the last ledger event at [haltTimeout] (60 s) or more marks
    the ledger halted and dates the halt from that last event.  The
    first check after ledger events resume arms a grace timer of 25% of
    the time elapsed since that date, and the flag clears when the timer
    is due and not before; a check that finds the ledger silent again
    while the timer is pending cancels it and the flag stays.  In S6
    (ledger events each second from 0 to 59 s and from 240 s on, checks
    every two seconds) the flag is set at 120 s, the timer armed at
    240 s has a delay of 45.25 s, the flag is still set at 285 s and
    clears at 285.25 s; no check at or after 240 s could arm a timer
    due before 285.25 s. *)
Theorem C6_halt_and_grace :
  (forall now l st,
      lastLedgerTime st = Some l -> xrplHalted st = false ->
      haltTimeout * 1000 <= now - l ->
      xrplHalted (checkLedgersForHalt now st) = true
      /\ lastHaltedTime (checkLedgersForHalt now st) = Some l)
  /\ (forall now l h st,
         xrplHalted st = true -> lastHaltedTime st = Some h ->
         graceTimeoutRef st = None -> lastLedgerTime st = Some l ->
         now - l < haltTimeout * 1000 ->
         xrplHalted (checkLedgersForHalt now st) = true
         /\ graceTimeoutRef (checkLedgersForHalt now st)
            = Some (mk_timeout now (inject_Z (now - h) * (25 # 100))%Q))
  /\ (forall now t st,
         xrplHalted st = true -> graceTimeoutRef st = Some t ->
         ((inject_Z now < inject_Z (armed_at t) + delay t)%Q ->
          xrplHalted (fire_due now st) = true)
         /\ ((inject_Z (armed_at t) + delay t <= inject_Z now)%Q ->
             xrplHalted (fire_due now st) = false))
  /\ (forall now l t st later,
         xrplHalted st = true -> graceTimeoutRef st = Some t ->
         lastLedgerTime st = Some l -> haltTimeout * 1000 <= now - l ->
         graceTimeoutRef (checkLedgersForHalt now st) = None
         /\ xrplHalted (fire_due later (checkLedgersForHalt now st)) = true)
  /\ (halted_at s6_events 118000 = false
      /\ halted_at s6_events 120000 = true
      /\ graceTimeoutRef
           (run (filter (fun e => time_of e <=? 240000) s6_events) halt_init)
         = Some (mk_timeout 240000 (inject_Z (240000 - 59000) * (25 # 100))%Q)
      /\ halted_at s6_events 285000 = true
      /\ halted_at s6_events 285249 = true
      /\ halted_at s6_events 285250 = false
      /\ forall c, 240000 <= c ->
                   (inject_Z 285250
                    <= deadline (mk_timeout
                                   c (inject_Z (c - 59000) * graceThreshold)))%Q).
Proof.
  split; [|split; [|split; [|split]]].
  - intros now l st. apply halt_detected.
  - intros now l h st Hh Ht Hg Hl Hgap.
    rewrite (grace_armed now l h st Hh Ht Hg Hl Hgap). split; reflexivity.
  - intros now t st. apply grace_fires.
  - intros now l t st later Hh Hg Hl Hgap.
    rewrite (grace_cancelled now l t st Hh Hg Hl Hgap).
    split; reflexivity.
  - repeat (split; [vm_compute; reflexivity|]).
    apply s6_grace_not_before.
Qed.

(** The theorem at the states S6 goes through: the check at 120 s marks
    the halt and dates it 59 s; the check at 240 s arms a timer of
    45.25 s, which leaves the flag set at 285 s and clears it at
    285.25 s; a check at 310 s that finds the ledger silent since 241 s
    cancels the timer. *)
Lemma C6_halt_witness :
  (xrplHalted (checkLedgersForHalt 120000 (mk_halt false None None (Some 59000)))
   = true
   /\ lastHaltedTime
        (checkLedgersForHalt 120000 (mk_halt false None None (Some 59000)))
      = Some 59000)
  /\ graceTimeoutRef
       (checkLedgersForHalt
          240000 (mk_halt true (Some 59000) None (Some 240000)))
     = Some (mk_timeout 240000 (4525000 # 100))
  /\ xrplHalted
       (fire_due 285000
                 (mk_halt true (Some 59000)
                          (Some (mk_timeout 240000 (4525000 # 100)))
                          (Some 285000)))
     = true
  /\ xrplHalted
       (fire_due 285250
                 (mk_halt true (Some 59000)
                          (Some (mk_timeout 240000 (4525000 # 100)))
                          (Some 285000)))
     = false
  /\ graceTimeoutRef
       (checkLedgersForHalt
          310000 (mk_halt true (Some 59000)
                          (Some (mk_timeout 240000 (4525000 # 100)))
                          (Some 241000)))
     = None.
Proof.
  destruct C6_halt_and_grace as (Hhalt & Harm & Hfire & Hcancel & _).
  split; [|split; [|split; [|split]]].
  - apply (Hhalt 120000 59000 (mk_halt false None None (Some 59000))
                 eq_refl eq_refl).
    vm_compute. discriminate.
  - exact (proj2 (Harm 240000 240000 59000
                       (mk_halt true (Some 59000) None (Some 240000))
                       eq_refl eq_refl eq_refl eq_refl eq_refl)).
  - apply (proj1 (Hfire 285000 (mk_timeout 240000 (4525000 # 100))
                        (mk_halt true (Some 59000)
                                 (Some (mk_timeout 240000 (4525000 # 100)))
                                 (Some 285000))
                        eq_refl eq_refl)).
    reflexivity.
  - apply (proj2 (Hfire 285250 (mk_timeout 240000 (4525000 # 100))
                        (mk_halt true (Some 59000)
                                 (Some (mk_timeout 240000 (4525000 # 100)))
                                 (Some 285000))
                        eq_refl eq_refl)).
    vm_compute. discriminate.
  - apply (proj1 (Hcancel 310000 241000 (mk_timeout 240000 (4525000 # 100))
                          (mk_halt true (Some 59000)
                                   (Some (mk_timeout 240000 (4525000 # 100)))
                                   (Some 241000))
                          0 eq_refl eq_refl eq_refl
                          ltac:(vm_compute; discriminate))).
Defined.

(** C6 as the specification words it fails: in S6 the flag has not
    cleared at 285 s. *)
Lemma C6_s6_still_halted_at_285 :
  ~ (halted_at s6_events 120000 = true /\ halted_at s6_events 285000 = false).
Proof.
  intros [_ H]. vm_compute in H. discriminate H.
Qed.

End HaltFacts.

(** ** The transaction queue *)

(** Stepping through a callback: the monad's operations are unfolded, the
    board's own functions are left as they are. *)
Ltac cb_step :=
  cbv beta iota zeta
      delta [MB.bind MB.ret MB.throw MB.get MB.init_refs MB.modify
             MB.on_board MB.board MB.when MB.swallow MB.try_catch
             MB.lift_snd fst snd].

Ltac break_match :=
  match goal with
  | |- context [match MB.recorded ?x with _ => _ end] =>
      destruct (MB.recorded x) eqn:?
  | |- context [match MB.thrown ?x with _ => _ end] =>
      destruct (MB.thrown x) eqn:?
  | |- context [match ?x with _ => _ end] =>
      match type of x with
      | bool => destruct x eqn:?
      | option _ => destruct x eqn:?
      | list _ => destruct x eqn:?
      end
  end.

Section QueueFacts.
Import MB.
Variable E : Env.

Lemma uplift_fields (b : bool) (f : Z) (w : World) :
  applyFeeUpliftment (set_uplift b f w) = b
  /\ feeUpliftment (set_uplift b f w) = f
  /\ ledgerLog (set_uplift b f w) = ledgerLog w
  /\ leases (set_uplift b f w) = leases w
  /\ queue (set_uplift b f w) = queue w.
Proof. repeat split. Qed.









Definition offer_amount : Q :=
  if Qeq_bool (cfg_leaseAmount E) 0 then purchaserTargetPrice E
  else cfg_leaseAmount E.




End QueueFacts.




(** ** The extend handler *)

Section ExtendFacts.
Import MB.
Variable E : Env.





End ExtendFacts.



(** ** The acquire handler *)

Section AcquireFacts.
Import MB.
Variable E : Env.

Lemma db_update_fresh (h : string) (f : LeaseRow -> LeaseRow)
      (l : list LeaseRow) :
  existsb (has_tx (Some h)) l = false ->
  db_update (has_tx (Some h)) f l = l.
Proof.
  induction l as [|x l IH]; [reflexivity|].
  cbn [existsb]. intros H. apply orb_false_iff in H. destruct H as (Hx & Hl).
  unfold db_update in *. cbn [map]. rewrite Hx, (IH Hl). reflexivity.
Qed.

Lemma db_update_new_row (h : string) (f : LeaseRow -> LeaseRow)
      (l : list LeaseRow) (row : LeaseRow) :
  existsb (has_tx (Some h)) l = false ->
  tx_hash row = h ->
  db_update (has_tx (Some h)) f (l ++ [row]) = l ++ [f row].
Proof.
  intros Hl Hrow. unfold db_update. rewrite map_app.
  fold (db_update (has_tx (Some h)) f l). rewrite (db_update_fresh h f l Hl).
  cbn [map has_tx]. rewrite Hrow, String.eqb_refl. reflexivity.
Qed.


(** The row [createLeaseRecord] writes for an acquire. *)
Definition acquiring_row (r : AcquireEvent) (s : LeaseStatus) : LeaseRow :=
  mk_lease 0 (acquireRefId r) (a_tenant r) 1 (a_uriTokenId r) None s.

Definition reoffer_action (c : string) (tok : UriToken) : Action :=
  mk_action (CbRecreateLeaseOffer c (leaseIndex (URI tok))
                                  (ip_address (URI tok)) false)
            None 0 5 0.

(** An acquire that passes the handler's validation. *)
Definition acquire_valid (r : AcquireEvent) (tok : UriToken) (w : World)
  : Prop :=
  a_host r = cfg_address E
  /\ getLeaseByIndex E (a_uriTokenId r) = Some tok
  /\ Owner tok = a_tenant r
  /\ (a_leaseAmount r == leaseAmount (URI tok))%Q
  /\ existsb (has_tx (Some (acquireRefId r))) (leases w) = false.





Lemma Qgt_bool_false (a b : Q) : (a <= b)%Q -> Qgt_bool a b = false.
Proof.
  intros H. unfold Qgt_bool. apply Qle_bool_iff in H. rewrite H. reflexivity.
Qed.

(** The board once the daemon has answered the create request. *)
Definition after_create (r : AcquireEvent) (secs : Z) (res : CreateRes)
           (w : World) : World :=
  let w1 :=
    advance_clock
      (sashi_wait E)
      (log_sashi SashiWait
         (set_leases (leases w ++ [acquiring_row r ACQUIRING])
                     (updateLastIndexRecord (a_LedgerIndex r) w))) in
  let wc := advance_clock secs (log_sashi (SashiCreate (a_uriTokenId r)) w1) in
  set_sashiInstances (sashiInstances wc ++ [mk_sashi (cr_name res) (now wc)]) wc.

(** The board once that instance has been destroyed again. *)
Definition after_destroy (c : string) (w : World) : World :=
  let wd := log_sashi (SashiDestroy (Some c)) w in
  set_sashiInstances
    (filter (fun i => negb (name i =? c)%string) (sashiInstances wd)) wd.





End AcquireFacts.



(** ** The orphan pruner *)

Section PruneFacts.
Import MB.
Variable E : Env.

Ltac prune_step :=
  cbv beta iota zeta
      delta [bind ret throw get modify try_catch lift_snd swallow when
             on_world decrement_if_active fst snd sashi_destroyInstance].

Definition refund_action (lease : LeaseRow) (tok : UriToken) : Action :=
  mk_action (CbRefundTenant (tx_hash lease) (Owner tok) (leaseAmount (URI tok)))
            None 0 5 0.

Definition refund_if_acquiring_action (lease : LeaseRow) (tok : UriToken)
  : Action :=
  mk_action (CbRefundIfAcquiring (status lease) (tx_hash lease) (Owner tok)
                                 (leaseAmount (URI tok)))
            None 0 5 0.

(** The first loop's test on a lease-backed instance. *)
Definition instance_is_orphan (lease : LeaseRow) (uriToken : option UriToken)
  : bool :=
  status_eqb (status lease) ACQUIRING
  || status_eqb (status lease) DESTROYED
  || match uriToken with
     | None => true
     | Some tok => (Owner tok =? host_address E)%string
     end.

Lemma db_delete_gone (p : LeaseRow -> bool) (l : list LeaseRow) :
  existsb p (db_delete p l) = false.
Proof.
  unfold db_delete. induction l as [|x l IH]; [reflexivity|].
  cbn [filter]. destruct (p x) eqn:Hp; cbn [negb existsb]; [exact IH|].
  rewrite Hp, IH. reflexivity.
Qed.

(** What the first loop does with an orphan instance that the daemon
    destroys. *)
Lemma prune_instance_settled
      (inst : SashiInstance) (lease : LeaseRow) (ls : list LeaseRow) (n : Z)
      (w : World) :
  find (has_container (name inst)) ls = Some lease ->
  instance_is_orphan lease (getLeaseByIndex E (name inst)) = true ->
  sashi_destroy E (Some (name inst)) = None ->
  let w1 := after_destroy (name inst) w in
  let w2 := updateLeaseStatus (getLeaseTxHash (name inst) w1) DESTROYED w1 in
  prune_instance E inst ((ls, n), w)
  = (Ok tt,
     ((remove_first (has_container (name inst)) ls,
       if is_active (status lease) then n - 1 else n),
      match tenant_owned E (getLeaseByIndex E (name inst)) with
      | Some tok =>
          queueAction
            (CbRefundTenant (tx_hash lease) (Owner tok) (leaseAmount (URI tok)))
            (recreateLeaseOffer (name inst) (leaseIndex (URI tok))
                                (ip_address (URI tok)) false w2)
      | None => deleteLeaseRecord (Some (tx_hash lease)) w2
      end)).
Proof.
  intros Hfind Horphan Hdestroy.
  unfold prune_instance, settle_instance_lease. prune_step.
  rewrite Hfind. prune_step.
  unfold instance_is_orphan in Horphan. rewrite Horphan. prune_step.
  rewrite Hdestroy. prune_step.
  unfold after_destroy.
  destruct (tenant_owned E (getLeaseByIndex E (name inst))) as [tok|];
    prune_step; destruct (is_active (status lease)); reflexivity.
Qed.

(** What the second loop does with a lease that has no instance. *)
Lemma prune_lease_settled (lease : LeaseRow) (ls : list LeaseRow) (n : Z)
      (w : World) :
  filter (fun i => (name i =? container_name lease)%string) (sashiInstances w)
  = [] ->
  let w1 :=
    if negb (status_eqb (status lease) BURNED)
    then updateLeaseStatus (getLeaseTxHash (container_name lease) w)
                           DESTROYED w
    else w in
  prune_lease E lease ((ls, n), w)
  = (Ok tt,
     ((ls, if is_active (status lease) then n - 1 else n),
      match tenant_owned E (getLeaseByIndex E (container_name lease)) with
      | Some tok =>
          queueAction
            (CbRefundIfAcquiring (status lease) (tx_hash lease) (Owner tok)
                                 (leaseAmount (URI tok)))
            (recreateLeaseOffer (container_name lease) (leaseIndex (URI tok))
                                (ip_address (URI tok)) false w1)
      | None => deleteLeaseRecord (Some (tx_hash lease)) w1
      end)).
Proof.
  intros Hnone. unfold prune_lease. prune_step. rewrite Hnone.
  destruct (negb (status_eqb (status lease) BURNED)); prune_step;
    destruct (tenant_owned E (getLeaseByIndex E (container_name lease)))
      as [tok|];
    prune_step; destruct (is_active (status lease)); reflexivity.
Qed.

(** The refund closure of the first loop refunds. *)
Lemma refund_tenant_runs (h o : string) (a : Q) (w : World) :
  ledgerLog (snd (snd (run_callback E (CbRefundTenant h o a) (None, w))))
  = ledgerLog w ++ [refundTenant h o a].
Proof.
  cbn [run_callback]. unfold cb_single, validated_already, submit, ref_hash.
  cb_step. cbn [repeat nth].
  repeat (break_match; cb_step); reflexivity.
Qed.

(** The refund closure of the second loop refunds a lease that was read
    in [Acquiring], and no other. *)
Lemma refund_if_acquiring_runs
      (s : LeaseStatus) (h o : string) (a : Q) (w : World) :
  ledgerLog (snd (snd (run_callback E (CbRefundIfAcquiring s h o a) (None, w))))
  = ledgerLog w ++ (if status_eqb s ACQUIRING then [refundTenant h o a]
                    else []).
Proof.
  cbn [run_callback].
  unfold cb_refundIfAcquiring, validated_already, submit, ref_hash.
  cb_step. cbn [repeat nth].
  destruct (status_eqb s ACQUIRING); cb_step;
    [repeat (break_match; cb_step); reflexivity
    | cbn; rewrite app_nil_r; reflexivity].
Qed.

(** C3, as the code has it.  An orphan with a lease token owned by the
    tenant has its slot re-offered and a refund closure queued; any other
    orphan has its lease row deleted, and nothing is queued for it:
    neither re-offer nor refund.
    - For an orphan instance (destroyed by the daemon), the refund
      closure is unconditional: the tenant who owns the token is
      refunded whatever status the lease row was read in.
    - For an orphan lease (no instance of its name), the closure refunds
      if and only if the row was read in [Acquiring]. *)
Theorem C3_orphan_refunds :
  (forall inst lease ls n w,
      find (has_container (name inst)) ls = Some lease ->
      instance_is_orphan lease (getLeaseByIndex E (name inst)) = true ->
      sashi_destroy E (Some (name inst)) = None ->
      let w' := snd (snd (prune_instance E inst ((ls, n), w))) in
      sashiLog w' = sashiLog w ++ [SashiDestroy (Some (name inst))]
      /\ match tenant_owned E (getLeaseByIndex E (name inst)) with
         | Some tok =>
             queue w'
             = queue w ++ [reoffer_action (name inst) tok;
                           refund_action lease tok]
         | None =>
             queue w' = queue w
             /\ existsb (has_tx (Some (tx_hash lease))) (leases w') = false
         end)
  /\ (forall lease ls n w,
         filter (fun i => (name i =? container_name lease)%string)
                (sashiInstances w) = [] ->
         let w' := snd (snd (prune_lease E lease ((ls, n), w))) in
         sashiLog w' = sashiLog w
         /\ match tenant_owned E (getLeaseByIndex E (container_name lease)) with
            | Some tok =>
                queue w'
                = queue w ++ [reoffer_action (container_name lease) tok;
                              refund_if_acquiring_action lease tok]
            | None =>
                queue w' = queue w
                /\ existsb (has_tx (Some (tx_hash lease))) (leases w') = false
            end)
  /\ (forall lease tok w0,
         ledgerLog (snd (snd (run_callback E (callback (refund_action lease tok))
                                           (None, w0))))
         = ledgerLog w0
           ++ [refundTenant (tx_hash lease) (Owner tok) (leaseAmount (URI tok))])
  /\ (forall lease tok w0,
         ledgerLog (snd (snd (run_callback
                                E (callback (refund_if_acquiring_action lease tok))
                                (None, w0))))
         = ledgerLog w0
           ++ (if status_eqb (status lease) ACQUIRING
               then [refundTenant (tx_hash lease) (Owner tok)
                                  (leaseAmount (URI tok))]
               else [])).
Proof.
  split; [|split; [|split]].
  - intros inst lease ls n w Hfind Horphan Hdestroy w'. subst w'.
    rewrite (prune_instance_settled inst lease ls n w Hfind Horphan Hdestroy).
    cbn [fst snd].
    destruct (tenant_owned E (getLeaseByIndex E (name inst))) as [tok|].
    + split; [reflexivity|].
      unfold queueAction, queueAction_with, recreateLeaseOffer, queueAction,
             queueAction_with.
      cbn [queue set_queue]. rewrite <- app_assoc. reflexivity.
    + split; [reflexivity|]. split; [reflexivity|].
      unfold deleteLeaseRecord. cbn [leases set_leases].
      apply db_delete_gone.
  - intros lease ls n w Hnone w'. subst w'.
    rewrite (prune_lease_settled lease ls n w Hnone). cbn [fst snd].
    destruct (tenant_owned E (getLeaseByIndex E (container_name lease)))
      as [tok|];
      destruct (negb (status_eqb (status lease) BURNED)).
    + split; [reflexivity|].
      unfold queueAction, queueAction_with, recreateLeaseOffer, queueAction,
             queueAction_with.
      cbn [queue set_queue]. rewrite <- app_assoc. reflexivity.
    + split; [reflexivity|].
      unfold queueAction, queueAction_with, recreateLeaseOffer, queueAction,
             queueAction_with.
      cbn [queue set_queue]. rewrite <- app_assoc. reflexivity.
    + split; [reflexivity|]. split; [reflexivity|].
      unfold deleteLeaseRecord. cbn [leases set_leases].
      apply db_delete_gone.
    + split; [reflexivity|]. split; [reflexivity|].
      unfold deleteLeaseRecord. cbn [leases set_leases].
      apply db_delete_gone.
  - intros lease tok w0. apply refund_tenant_runs.
  - intros lease tok w0. apply refund_if_acquiring_runs.
Qed.

End PruneFacts.

(** The theorem on a board whose lease on [T1] is [Acquiring] and has no
    instance (scenario S5), and on one whose instance is still there,
    the token being the tenant's. *)
Lemma C3_orphan_lease_witness :
  MB.queue
    (snd (snd (MB.prune_lease
                 MB.env_fine
                 (MB.mk_lease 0 "TXA" "rTENANT" 1 "T1" None MB.ACQUIRING)
                 (([], 0), MB.world_lease MB.ACQUIRING false))))
  = [MB.mk_action (MB.CbRecreateLeaseOffer "T1" 0 None false) None 0 5 0;
     MB.mk_action (MB.CbRefundIfAcquiring MB.ACQUIRING "TXA" "rTENANT" (2 # 1))
                  None 0 5 0]
  /\ MB.queue
       (snd (snd (MB.prune_instance
                    MB.env_fine (MB.mk_sashi "T1" 0)
                    ((MB.leases (MB.world_lease MB.ACQUIRING true), 0),
                     MB.world_lease MB.ACQUIRING true))))
     = [MB.mk_action (MB.CbRecreateLeaseOffer "T1" 0 None false) None 0 5 0;
        MB.mk_action (MB.CbRefundTenant "TXA" "rTENANT" (2 # 1)) None 0 5 0].
Proof.
  destruct (C3_orphan_refunds MB.env_fine) as (Hinst & Hlease & _).
  split.
  - exact (proj2 (Hlease
                    (MB.mk_lease 0 "TXA" "rTENANT" 1 "T1" None MB.ACQUIRING)
                    [] 0 (MB.world_lease MB.ACQUIRING false) eq_refl)).
  - exact (proj2 (Hinst
                    (MB.mk_sashi "T1" 0)
                    (MB.mk_lease 0 "TXA" "rTENANT" 1 "T1" None MB.ACQUIRING)
                    (MB.leases (MB.world_lease MB.ACQUIRING true)) 0
                    (MB.world_lease MB.ACQUIRING true)
                    eq_refl eq_refl eq_refl)).
Defined.

(** C3 as the specification words it fails.  An orphan instance whose
    lease row is [Destroyed], not [Acquiring], and whose token the
    tenant owns: the pass destroys it, queues the re-offer and a refund,
    and the drain refunds the tenant.  And an orphan lease in
    [Acquiring] whose token the host still owns: its row is deleted and
    no re-offer is queued or submitted. *)
Lemma C3_refund_for_destroyed_lease :
  let w1 := snd (MB.pruneOrphanLeases MB.env_fine false
                                      (MB.world_lease MB.DESTROYED true)) in
  let w2 := MB.processConcurrencyQueue MB.env_fine w1 in
  let v1 := snd (MB.pruneOrphanLeases MB.env_unsold false
                                      (MB.world_lease MB.ACQUIRING false)) in
  let v2 := MB.processConcurrencyQueue MB.env_unsold v1 in
  (MB.sashiLog w1 = [MB.SashiDestroy (Some "T1")]
   /\ map MB.callback (MB.queue w1)
      = [MB.CbRecreateLeaseOffer "T1" 0 None false;
         MB.CbRefundTenant "TXA" "rTENANT" (2 # 1);
         MB.CbPrunedRegInfo 0]
   /\ MB.ledgerLog w2
      = [MB.expireLease "T1"; MB.offerLease 0 (2 # 1) None;
         MB.refundTenant "TXA" "rTENANT" (2 # 1)])
  /\ (MB.leases v1 = []
      /\ map MB.callback (MB.queue v1) = [MB.CbPrunedRegInfo 0]
      /\ MB.ledgerLog v2 = []).
Proof.
  vm_compute. repeat split.
Qed.

(** ** Command buffers *)

Section CmdFacts.
Import Ascii Cmd.
Local Open Scope string_scope.

Lemma append_length (a b : string) :
  String.length (a ++ b) = (String.length a + String.length b)%nat.
Proof. induction a; simpl; auto. Qed.

Lemma sprintf_step (c c2 : ascii) (rest2 : string) (args : list string) :
  sprintf (String c (String c2 rest2)) args
  = if Ascii.eqb c "%"%char && Ascii.eqb c2 "s"%char
    then hd "" args ++ sprintf rest2 (tl args)
    else String c (sprintf (String c2 rest2) args).
Proof. reflexivity. Qed.

Lemma fixed_chars_step (c c2 : ascii) (rest2 : string) :
  fixed_chars (String c (String c2 rest2))
  = if Ascii.eqb c "%"%char && Ascii.eqb c2 "s"%char
    then fixed_chars rest2
    else S (fixed_chars (String c2 rest2)).
Proof. reflexivity. Qed.

Lemma conversions_step (c c2 : ascii) (rest2 : string) :
  conversions (String c (String c2 rest2))
  = if Ascii.eqb c "%"%char && Ascii.eqb c2 "s"%char
    then S (conversions rest2)
    else conversions (String c2 rest2).
Proof. reflexivity. Qed.

Lemma sprintf_length_bounded (n : nat) :
  forall fmt args,
    (String.length fmt <= n)%nat ->
    String.length (sprintf fmt args)
    = (fixed_chars fmt + args_length (conversions fmt) args)%nat.
Proof.
  induction n as [|n IH]; intros fmt args Hn.
  - destruct fmt; [reflexivity | simpl in Hn; lia].
  - destruct fmt as [|c rest]; [reflexivity|].
    destruct rest as [|c2 rest2]; [reflexivity|].
    rewrite sprintf_step, fixed_chars_step, conversions_step.
    destruct (Ascii.eqb c "%"%char && Ascii.eqb c2 "s"%char).
    + rewrite append_length, IH by (cbn [String.length] in *; lia).
      cbn [args_length]. lia.
    + change (String.length (String c (sprintf (String c2 rest2) args)))
        with (S (String.length (sprintf (String c2 rest2) args))).
      rewrite IH by (cbn [String.length] in *; lia). lia.
Qed.

Lemma sprintf_length (fmt : string) (args : list string) :
  strlen (sprintf fmt args)
  = Z.of_nat (fixed_chars fmt) + Z.of_nat (args_length (conversions fmt) args).
Proof.
  unfold strlen. rewrite (sprintf_length_bounded (String.length fmt)) by lia.
  lia.
Qed.

Ltac measure fmt :=
  rewrite (sprintf_length fmt);
  let f := eval vm_compute in (fixed_chars fmt) in
  let c := eval vm_compute in (conversions fmt) in
  change (fixed_chars fmt) with f;
  change (conversions fmt) with c;
  cbn [args_length hd tl];
  unfold strlen.

(** X1.  Every shell command the daemon formats with [sprintf] fits the
    array declared for it, the terminating NUL included: the three
    container commands, the status query, the container creation with
    its twenty arguments, and the copy, move, ownership and permission
    commands of [create_contract] (whose temporary directory keeps the
    sixteen characters of its template). *)
Theorem daemon_commands_fit_their_buffers (exe_dir template : string) :
  (forall u c, fits (docker_start_command exe_dir u c))
  /\ (forall u c, fits (docker_stop_command exe_dir u c))
  /\ (forall u c, fits (docker_remove_command exe_dir u c))
  /\ (forall u c, fits (docker_status_command exe_dir u c))
  /\ (forall u i c d p, fits (docker_create_command exe_dir u i c d p))
  /\ (forall t, String.length t = 16%nat -> fits (copy_command template t))
  /\ (forall t d, String.length t = 16%nat -> fits (move_command t d))
  /\ (forall u d, fits (chown_command u d))
  /\ (forall d, fits (chmod_command d)).
Proof.
  unfold fits.
  repeat split; intros.
  - cbn [docker_start_command buf_len buf_text]. measure DOCKER_START. lia.
  - cbn [docker_stop_command buf_len buf_text]. measure DOCKER_STOP. lia.
  - cbn [docker_remove_command buf_len buf_text]. measure DOCKER_REMOVE. lia.
  - cbn [docker_status_command buf_len buf_text]. measure DOCKER_STATUS. lia.
  - cbv beta zeta delta [docker_create_command]. cbn [buf_len buf_text].
    measure DOCKER_CREATE. lia.
  - cbv beta zeta delta [copy_command]. cbn [buf_len buf_text].
    measure COPY_DIR. lia.
  - cbn [move_command buf_len buf_text]. measure MOVE_DIR. lia.
  - cbn [chown_command buf_len buf_text]. measure CHOWN_DIR. lia.
  - cbn [chmod_command buf_len buf_text]. measure CHMOD_DIR.
    cbn [String.length]. lia.
Qed.

(** The theorem at the temporary directory [/tmp/sashiAb12Cd]. *)
Lemma daemon_commands_fit_witness :
  fits (copy_command "/usr/bin/sashimono/contract_template" "/tmp/sashiAb12Cd")
  /\ fits (move_command "/tmp/sashiAb12Cd" "/home/sashi1/T1").
Proof.
  destruct (daemon_commands_fit_their_buffers
              "/usr/bin/sashimono" "/usr/bin/sashimono/contract_template")
    as (_ & _ & _ & _ & _ & Hcp & Hmv & _).
  split.
  - apply Hcp. reflexivity.
  - apply Hmv. reflexivity.
Defined.

(** X2.  The requests the CLI formats have exactly the size their string
    was given: what [execute_basic], [create] and [docker_exec] send is
    the JSON text alone, with no NUL behind it and nothing cut off.  The
    arguments are copied between the quotes as they are. *)
Theorem cli_requests_have_their_exact_size :
  (forall ty c,
      execute_basic_msg ty c
      = Some ("{" ++ dq ++ "type" ++ dq ++ ":" ++ dq ++ ty ++ dq ++ ","
              ++ dq ++ "container_name" ++ dq ++ ":" ++ dq ++ c ++ dq ++ "}"))
  /\ (forall c o id img ip6 nif,
         create_msg c o id img ip6 nif
         = Some ("{" ++ dq ++ "type" ++ dq ++ ":" ++ dq ++ "create" ++ dq ++ ","
                 ++ dq ++ "container_name" ++ dq ++ ":" ++ dq ++ c ++ dq ++ ","
                 ++ dq ++ "owner_pubkey" ++ dq ++ ":" ++ dq ++ o ++ dq ++ ","
                 ++ dq ++ "contract_id" ++ dq ++ ":" ++ dq ++ id ++ dq ++ ","
                 ++ dq ++ "image" ++ dq ++ ":" ++ dq ++ img ++ dq ++ ","
                 ++ dq ++ "outbound_ipv6" ++ dq ++ ":" ++ dq ++ ip6 ++ dq ++ ","
                 ++ dq ++ "outbound_net_interface" ++ dq ++ ":" ++ dq ++ nif
                 ++ dq ++ "," ++ dq ++ "config" ++ dq ++ ":{}}"))
  /\ (forall c,
         docker_exec_msg c
         = Some ("{" ++ dq ++ "type" ++ dq ++ ":" ++ dq ++ "inspect" ++ dq ++ ","
                 ++ dq ++ "container_name" ++ dq ++ ":" ++ dq ++ c ++ dq
                 ++ "}")).
Proof.
  assert (Hexact : forall n text,
             strlen text = n -> sprintf_into n text = Some text).
  { intros n text <-. unfold sprintf_into.
    rewrite Z.leb_refl, Z.sub_diag. cbn [Z.to_nat repeat string_of_list_ascii].
    f_equal. induction text; [reflexivity | cbn; congruence]. }
  repeat split; intros.
  - unfold execute_basic_msg.
    rewrite Hexact by (measure MSG_BASIC; lia). reflexivity.
  - unfold create_msg.
    rewrite Hexact by (measure MSG_CREATE; lia). reflexivity.
  - unfold docker_exec_msg.
    rewrite Hexact by (measure MSG_BASIC; cbn [String.length]; lia).
    reflexivity.
Qed.

(** X3.  The attach command of [docker_exec] never fits its array: the
    text the CLI formats is 24 characters longer than the array declared
    for it, 25 bytes with the terminating NUL, whatever the user, the
    directory and the container are. *)
Theorem attach_command_exceeds_its_buffer (user dir c : string) :
  strlen (buf_text (docker_attach_command user dir c)) + 1
  = buf_len (docker_attach_command user dir c) + 25
  /\ ~ fits (docker_attach_command user dir c).
Proof.
  assert (H : strlen (buf_text (docker_attach_command user dir c)) + 1
              = buf_len (docker_attach_command user dir c) + 25).
  { cbn [docker_attach_command buf_len buf_text]. measure DOCKER_ATTACH. lia. }
  split; [exact H | unfold fits; lia].
Qed.

Lemma substring_prefix (s rest : string) :
  String.substring 0 (String.length s) (s ++ rest) = s.
Proof.
  induction s as [|c s IH]; cbn [String.length append String.substring].
  - destruct rest; reflexivity.
  - rewrite IH. reflexivity.
Qed.

(** X4.  [check_instance_status] takes the status out of what the
    inspect command prints: from a status between double quotes with a
    newline behind it, as it fits the 20-byte buffer, it keeps exactly
    the status. *)
Theorem status_is_read_between_the_quotes (status : string) :
  strlen status <= 16 ->
  status_of_output (dq ++ status ++ dq ++ newline) = Some status.
Proof.
  intros Hfit. unfold status_of_output, substr, strlen in *.
  assert (Hlen : String.length (dq ++ status ++ dq ++ newline)
                 = (String.length status + 3)%nat).
  { rewrite !append_length. cbn [dq newline String.length]. lia. }
  rewrite Hlen.
  assert (Hgt : (1 >? Z.of_nat (String.length status + 3))%Z = false).
  { destruct (Z.gtb_spec 1 (Z.of_nat (String.length status + 3)));
      [lia | reflexivity]. }
  rewrite Hgt.
  assert (Hwrap : to_size_t (Z.of_nat (String.length status + 3) - 3)
                  = Z.of_nat (String.length status)).
  { unfold to_size_t. rewrite Z.mod_small; lia. }
  rewrite Hwrap, Z.min_l by lia. rewrite Nat2Z.id.
  change (Z.to_nat 1) with 1%nat.
  cbn [dq append String.substring].
  rewrite substring_prefix. reflexivity.
Qed.

End CmdFacts.

Lemma status_witness :
  Cmd.status_of_output
    (String.append Cmd.dq
       (String.append "running" (String.append Cmd.dq Cmd.newline)))
  = Some "running".
Proof.
  apply (status_is_read_between_the_quotes "running"). vm_compute.
  discriminate.
Defined.

(** ** Responses on the wire *)

Section WireFacts.
Import Comm Cli.

Lemma firstn_length_all {A} (l : list A) :
  firstn (Z.to_nat (Z.of_nat (length l))) l = l.
Proof. rewrite Nat2Z.id. apply firstn_all. Qed.

Lemma to_int_small (x : Z) : 0 <= x < 2147483648 -> to_int x = x.
Proof.
  intros H. unfold to_int. rewrite Z.mod_small by lia. lia.
Qed.

(** X5.  [comm::send] answers at most once per connection.  Without a
    connection it returns -1 and writes nothing.  With one, the
    connection is closed when it returns, whatever the two writes did;
    it returns 0 exactly when both went through; and when the header's
    write fails the message is not written at all. *)
Theorem send_closes_the_connection
        (stack message : bytes) (ctx : comm_ctx) (io : sock_io) :
  (data_socket ctx = -1 -> send stack message ctx io = (-1, ctx, io))
  /\ (data_socket ctx <> -1 ->
      let '(ret, ctx', io') := send stack message ctx io in
      data_socket ctx' = -1
      /\ connection_socket ctx' = connection_socket ctx
      /\ (ret = 0 \/ ret = -1)
      /\ (ret = 0 <->
          hd false (write_fail io) = false
          /\ hd false (tl (write_fail io)) = false)
      /\ (hd false (write_fail io) = true -> wire io' = wire io)).
Proof.
  split.
  - intros H. unfold send. rewrite H. reflexivity.
  - intros H. unfold send. apply Z.eqb_neq in H. rewrite H.
    unfold sys_write.
    assert (Hneg : (Z.of_nat (length message) =? -1) = false)
      by (apply Z.eqb_neq; lia).
    destruct (write_fail io) as [|[|] [|[|] rest]];
      cbn [hd tl fst snd wire write_fail inbox data_socket
           connection_socket disconnect];
      change (8 =? -1) with false; change (-1 =? -1) with true; cbn iota;
      cbn [hd tl fst snd wire write_fail inbox data_socket
           connection_socket disconnect];
      rewrite ?Hneg;
      repeat split; auto; try discriminate; try tauto;
        try (intros [? ?]; discriminate); try (intros; discriminate).
Qed.

(** The theorem on an open connection whose writes go through. *)
Lemma send_closes_witness :
  data_socket (snd (fst (send stack_dirty msg_ok ctx_connected io_idle))) = -1
  /\ fst (fst (send stack_dirty msg_ok ctx_connected io_idle)) = 0.
Proof.
  pose proof (proj2 (send_closes_the_connection
                       stack_dirty msg_ok ctx_connected io_idle)
                    ltac:(discriminate)) as H.
  destruct (send stack_dirty msg_ok ctx_connected io_idle) as [[ret c] i].
  destruct H as (H1 & _ & _ & H4 & _).
  split; [exact H1 | apply H4; split; reflexivity].
Defined.

(** The daemon's two records on a wire whose writes go through. *)
Lemma send_wire (stack message : bytes) (ctx : comm_ctx)
      (inbox_d : list (option bytes)) :
  data_socket ctx <> -1 ->
  length stack = 8%nat ->
  Z.of_nat (length message) < 4294967296 ->
  exists hdr,
    wire (snd (send stack message ctx (mk_io [] [] inbox_d))) = [hdr; message]
    /\ length hdr = 8%nat
    /\ uint32_from_bytes hdr = Z.of_nat (length message).
Proof.
  intros Hsock Hlen Hn.
  destruct (eight_bytes stack Hlen)
    as (b0 & b1 & b2 & b3 & b4 & b5 & b6 & b7 & ->).
  set (n := Z.of_nat (length message)) in *.
  exists [(n / 2 ^ 24) mod 256; (n / 2 ^ 16) mod 256; (n / 2 ^ 8) mod 256;
          n mod 256; b4; b5; b6; b7].
  split; [|split; [reflexivity|]].
  - unfold send. apply Z.eqb_neq in Hsock. rewrite Hsock.
    unfold to_uint32. fold n. rewrite (Z.mod_small n) by lia.
    rewrite uint32_to_bytes_spec.
    unfold sys_write. cbn [write_fail wire inbox fst snd app].
    change (8 =? -1) with false. cbn iota. cbn [snd wire].
    unfold n. rewrite firstn_length_all. reflexivity.
  - pose proof (uint32_roundtrip n ltac:(lia)) as R.
    unfold uint32_from_bytes in *. exact R.
Qed.

(** The CLI reading a header record and a message record. *)
Lemma read_two_records (stack_c old hdr message : bytes) :
  length hdr = 8%nat ->
  uint32_from_bytes hdr = Z.of_nat (length message) ->
  Z.of_nat (length message) < 2147483648 ->
  read_from_socket true stack_c old (mk_io [] [] [Some hdr; Some message])
  = (Z.of_nat (length message), message, mk_io [] [] []).
Proof.
  intros Hlen Hhdr Hn.
  assert (Hneg : forall k, 0 <= k < 2147483648 -> (to_int k =? -1) = false)
    by (intros k Hk; rewrite to_int_small by lia; apply Z.eqb_neq; lia).
  unfold read_from_socket. cbn [negb].
  unfold sys_read at 1. cbn [inbox wire write_fail].
  rewrite (firstn_all2 hdr) by (rewrite Hlen; reflexivity).
  rewrite Hlen. change (Z.of_nat 8) with 8. rewrite (Hneg 8) by lia.
  assert (Hview : uint32_from_bytes (hdr ++ skipn 8 stack_c)
                  = Z.of_nat (length message)).
  { rewrite <- Hhdr.
    destruct (eight_bytes hdr Hlen)
      as (b0 & b1 & b2 & b3 & b4 & b5 & b6 & b7 & ->).
    reflexivity. }
  rewrite Hview.
  unfold sys_read. cbn [inbox wire write_fail].
  rewrite firstn_length_all.
  rewrite (Hneg (Z.of_nat (length message))) by lia.
  rewrite to_int_small by lia.
  f_equal. f_equal.
  unfold resize.
  rewrite skipn_all2; [apply app_nil_r|].
  rewrite length_app, length_firstn, repeat_length. lia.
Qed.

(** X6.  What the daemon sends, the CLI reads back.  For every message
    shorter than 2^31 bytes sent on an open connection whose two writes
    go through, [read_from_socket], run on the records the daemon wrote,
    returns the message's length and leaves exactly the message in the
    caller's string, whatever the string and the two uninitialised length
    buffers held before; nothing is left unread. *)
Theorem response_round_trip
        (stack_d stack_c message old : bytes) (ctx : comm_ctx)
        (inbox_d : list (option bytes)) :
  data_socket ctx <> -1 ->
  length stack_d = 8%nat ->
  Z.of_nat (length message) < 2147483648 ->
  let io' := snd (send stack_d message ctx (mk_io [] [] inbox_d)) in
  read_from_socket true stack_c old (receiving io')
  = (Z.of_nat (length message), message, mk_io [] [] []).
Proof.
  intros Hsock Hlen Hn io'. subst io'.
  destruct (send_wire stack_d message ctx inbox_d Hsock Hlen ltac:(lia))
    as (hdr & Hwire & Hhdr_len & Hhdr).
  unfold receiving. rewrite Hwire. cbn [map].
  apply read_two_records; assumption.
Qed.

(** The theorem at the two-byte reply [{}]. *)
Lemma response_round_trip_witness :
  read_from_socket
    true stack_dirty [1; 2; 3]
    (receiving (snd (send stack_dirty msg_ok ctx_connected io_idle)))
  = (2, msg_ok, mk_io [] [] []).
Proof.
  apply (response_round_trip stack_dirty stack_dirty msg_ok [1; 2; 3]
                             ctx_connected []).
  - discriminate.
  - reflexivity.
  - reflexivity.
Defined.

End WireFacts.

(** ** The daemon's message loop *)

Section LoopFacts.
Import Comm Loop.
Variable respond : bytes -> bytes.
Variable stack : bytes.

(** One turn of the loop on a connection whose next record is empty. *)
Lemma empty_turn (st : loop_state) (rest : list (option bytes)) :
  data_socket (ctx st) <> -1 ->
  inbox (io st) = Some [] :: rest ->
  iteration respond stack st
  = (let io' := mk_io (wire (io st)) (write_fail (io st)) rest in
     if empty_read_count st + 1 =? EMPTY_READ_TRESHOLD then
       mk_loop (disconnect (ctx st)) 0 (read_buffer st) io' (pending st)
               (served st) (sleeps st + 1)
     else
       mk_loop (ctx st) (empty_read_count st + 1) (read_buffer st) io'
               (pending st) (served st) (sleeps st + 1)).
Proof.
  intros Hconn Hin. unfold iteration.
  apply Z.eqb_neq in Hconn. rewrite Hconn. cbn [negb].
  unfold read_socket, sys_read. rewrite Hin.
  cbn [firstn length Z.of_nat Z.eqb Z.gtb Z.compare app skipn
       ctx empty_read_count read_buffer io pending served sleeps].
  rewrite firstn_nil. cbn [length Z.of_nat Z.eqb Z.gtb Z.compare app skipn].
  destruct (empty_read_count st + 1 =? EMPTY_READ_TRESHOLD); reflexivity.
Qed.

(** Fewer than five empty records in a row only make the loop sleep. *)
Lemma silent_turns (k : nat) :
  forall (st : loop_state) (rest : list (option bytes)),
    data_socket (ctx st) <> -1 ->
    0 <= empty_read_count st ->
    empty_read_count st + Z.of_nat k < EMPTY_READ_TRESHOLD ->
    inbox (io st) = repeat (Some []) k ++ rest ->
    turns respond stack k st
    = mk_loop (ctx st) (empty_read_count st + Z.of_nat k) (read_buffer st)
              (mk_io (wire (io st)) (write_fail (io st)) rest)
              (pending st) (served st) (sleeps st + Z.of_nat k).
Proof.
  induction k as [|k IH]; intros st rest Hconn Hc Hk Hin.
  - cbn [turns repeat app Z.of_nat] in *. rewrite !Z.add_0_r, <- Hin.
    destruct st as [c e b i p s sl]. destruct i. reflexivity.
  - cbn [turns]. cbn [repeat app] in Hin.
    rewrite (empty_turn st _ Hconn Hin). cbv zeta.
    assert (Hne : (empty_read_count st + 1 =? EMPTY_READ_TRESHOLD) = false)
      by (apply Z.eqb_neq; lia).
    rewrite Hne. rewrite IH with (rest := rest);
      cbn [ctx empty_read_count read_buffer io pending served sleeps
           wire write_fail inbox];
      try assumption; try lia; try reflexivity.
    f_equal; lia.
Qed.

(** The record [read] hands over is what is left in the buffer's
    view. *)
Lemma view_of_read (got rb : bytes) :
  message_view (got ++ skipn (length got) rb) (Z.of_nat (length got)) = got.
Proof.
  unfold message_view. rewrite Nat2Z.id.
  rewrite firstn_app, Nat.sub_diag, firstn_all. cbn [firstn].
  apply app_nil_r.
Qed.

(** X7.  A connected client that sends its request after fewer than
    five empty records gets exactly one answer: the header and the
    response to the first 4096 bytes of the request are written, the
    connection is closed at once and the read buffer cleared, and what
    the client sent after the request is never read.  A client whose
    first five records are empty is disconnected at the fifth without
    an answer, and its request stays unread. *)
Theorem one_request_per_connection
        (k : nat) (req : bytes) (later : list (option bytes))
        (st : loop_state) :
  data_socket (ctx st) <> -1 ->
  empty_read_count st = 0 ->
  write_fail (io st) = [] ->
  inbox (io st) = repeat (Some []) k ++ Some req :: later ->
  req <> [] ->
  ((k < 5)%nat ->
   let st' := turns respond stack (k + 1) st in
   let answer := respond (firstn (Z.to_nat BUFFER_SIZE) req) in
   data_socket (ctx st') = -1
   /\ wire (io st')
      = wire (io st)
        ++ [firstn 8 (uint32_to_bytes stack
                                      (to_uint32 (Z.of_nat (length answer))));
            answer]
   /\ inbox (io st') = later
   /\ read_buffer st' = []
   /\ sleeps st' = sleeps st + Z.of_nat k)
  /\ ((5 <= k)%nat ->
      let st' := turns respond stack 5 st in
      data_socket (ctx st') = -1
      /\ empty_read_count st' = 0
      /\ wire (io st') = wire (io st)
      /\ inbox (io st') = repeat (Some []) (k - 5) ++ Some req :: later
      /\ sleeps st' = sleeps st + 5).
Proof.
  intros Hconn Hcount Hwf Hin Hreq. split.
  - intros Hk. cbv zeta.
    assert (Hturns : forall n m s, turns respond stack (n + m) s
                                   = turns respond stack m (turns respond stack n s)).
    { induction n as [|n IHn]; intros m s; [reflexivity|].
      cbn [Nat.add turns]. apply IHn. }
    rewrite Hturns.
    rewrite (silent_turns k st (Some req :: later) Hconn);
      [|lia | unfold EMPTY_READ_TRESHOLD; lia | exact Hin].
    cbn [turns]. unfold iteration.
    cbn [ctx empty_read_count read_buffer io pending served sleeps].
    apply Z.eqb_neq in Hconn. rewrite Hconn. cbn [negb].
    unfold read_socket, sys_read. cbn [inbox wire write_fail].
    set (got := firstn (Z.to_nat BUFFER_SIZE) req).
    assert (Hgot : got <> []).
    { subst got. destruct req as [|b req]; [contradiction|].
      cbn. discriminate. }
    assert (Hpos : 0 < Z.of_nat (length got)).
    { destruct got; [contradiction|]. cbn [length]. lia. }
    assert (H1 : (Z.of_nat (length got) =? -1) = false)
      by (apply Z.eqb_neq; lia).
    assert (H2 : (Z.of_nat (length got) >? 0) = true)
      by (apply Z.gtb_lt; lia).
    rewrite H1. cbn [ctx empty_read_count read_buffer io pending served sleeps].
    rewrite H1, H2. unfold handle_message.
    cbn [ctx empty_read_count read_buffer io pending served sleeps].
    rewrite view_of_read. unfold send. rewrite Hconn.
    unfold sys_write. cbn [write_fail wire inbox]. rewrite Hwf.
    cbn [write_fail wire inbox Z.eqb].
    cbn [ctx empty_read_count read_buffer io pending served sleeps
         wire inbox data_socket disconnect].
    rewrite Nat2Z.id, firstn_all, <- app_assoc. cbn [app].
    repeat split; reflexivity.
  - intros Hk. cbv zeta.
    assert (H5 : k = (4 + (1 + (k - 5)))%nat) by lia.
    rewrite H5 in Hin. rewrite repeat_app, <- app_assoc in Hin.
    change 5%nat with (4 + 1)%nat.
    assert (Hturns : forall n m s, turns respond stack (n + m) s
                                   = turns respond stack m (turns respond stack n s)).
    { induction n as [|n IHn]; intros m s; [reflexivity|].
      cbn [Nat.add turns]. apply IHn. }
    rewrite Hturns.
    rewrite (silent_turns 4 st (repeat (Some []) (1 + (k - 5))
                                ++ Some req :: later) Hconn);
      [|lia | unfold EMPTY_READ_TRESHOLD; lia | exact Hin].
    cbn [turns Nat.add repeat app].
    erewrite empty_turn;
      [|cbn [ctx]; exact Hconn | cbn [io inbox]; reflexivity].
    cbn [ctx empty_read_count read_buffer io pending served sleeps
         wire write_fail inbox].
    rewrite Hcount. cbn [Z.of_nat Z.add Pos.add Z.eqb EMPTY_READ_TRESHOLD Pos.eqb
                         Pos.of_succ_nat Pos.succ].
    cbn [ctx empty_read_count read_buffer io pending served sleeps
         wire write_fail inbox data_socket disconnect].
    repeat split; try reflexivity. lia.
Qed.

End LoopFacts.

(** A client that sends one empty record, then the request [{}] and
    something more; and one that is silent for five reads. *)
Lemma one_request_witness :
  (let st' := Loop.turns Loop.echo Comm.stack_dirty 2
                (Loop.connected_to [Some []; Some Comm.msg_ok; Some [1]]) in
   Comm.data_socket (Loop.ctx st') = -1
   /\ Comm.wire (Loop.io st') = [[0; 0; 0; 2; 255; 255; 255; 255]; [123; 125]]
   /\ Comm.inbox (Loop.io st') = [Some [1]])
  /\ (let st' := Loop.turns Loop.echo Comm.stack_dirty 5
                   (Loop.connected_to
                      (repeat (Some []) 5 ++ [Some Comm.msg_ok])) in
      Comm.data_socket (Loop.ctx st') = -1
      /\ Comm.wire (Loop.io st') = []
      /\ Comm.inbox (Loop.io st') = [Some Comm.msg_ok]).
Proof.
  split.
  - assert (Hreq : Comm.msg_ok <> []) by discriminate.
    assert (Hconn : Comm.data_socket
                      (Loop.ctx (Loop.connected_to
                                   [Some []; Some Comm.msg_ok; Some [1]])) <> -1)
      by discriminate.
    pose proof (one_request_per_connection
                  Loop.echo Comm.stack_dirty 1 Comm.msg_ok [Some [1]]
                  (Loop.connected_to [Some []; Some Comm.msg_ok; Some [1]])
                  Hconn eq_refl eq_refl eq_refl Hreq) as H.
    destruct H as (H & _). specialize (H ltac:(lia)).
    cbv zeta in H. destruct H as (H0 & H1 & H2 & _).
    cbv zeta. split; [exact H0 | split; [exact H1 | exact H2]].
  - assert (Hreq : Comm.msg_ok <> []) by discriminate.
    assert (Hconn : Comm.data_socket
                      (Loop.ctx (Loop.connected_to
                                   (repeat (Some []) 5 ++ [Some Comm.msg_ok])))
                    <> -1)
      by discriminate.
    pose proof (one_request_per_connection
                  Loop.echo Comm.stack_dirty 5 Comm.msg_ok []
                  (Loop.connected_to (repeat (Some []) 5 ++ [Some Comm.msg_ok]))
                  Hconn eq_refl eq_refl eq_refl Hreq) as H.
    destruct H as (_ & H). specialize (H ltac:(lia)).
    cbv zeta in H. destruct H as (H0 & _ & H1 & H2 & _).
    cbv zeta. split; [exact H0 | split; [exact H1 | exact H2]].
Defined.

(** ** The vacant ports found at start-up *)

Section VacantFacts.
Import Hp Vacant.

Section Slots.
Variable cfg : hp_conf.

Lemma to_uint16_add_l (a b : Z) : to_uint16 (to_uint16 a + b) = to_uint16 (a + b).
Proof. unfold to_uint16. apply Z.add_mod_idemp_l. lia. Qed.

Lemma next_slot (k : nat) :
  to_uint16 (init_peer_port cfg) + Z.of_nat k < 65535 ->
  next_ports (slot cfg k) = slot cfg (S k).
Proof.
  intros H. unfold next_ports, slot. cbn [peer_port user_port
    gp_tcp_port_start gp_udp_port_start].
  rewrite !to_uint16_add_l.
  assert (H0 : 0 <= to_uint16 (init_peer_port cfg))
    by (unfold to_uint16; apply Z.mod_pos_bound; lia).
  f_equal.
  - unfold to_uint16 at 1. rewrite Z.mod_small by lia. lia.
  - f_equal. lia.
  - f_equal. lia.
  - f_equal. lia.
Qed.

Lemma scan_closed (instances : list instance_info) (bound : Z) :
  bound < 65536 ->
  forall (m fuel k : nat) (v : list ports),
    (m <= fuel)%nat ->
    to_uint16 (init_peer_port cfg) + Z.of_nat k + Z.of_nat m = bound
    \/ (m = 0%nat /\ bound <= to_uint16 (init_peer_port cfg) + Z.of_nat k) ->
    scan fuel instances bound (slot cfg k) v
    = v ++ map (slot cfg)
               (filter (fun j => negb (peer_used
                                         instances
                                         (to_uint16 (init_peer_port cfg)
                                          + Z.of_nat j)))
                       (seq k m)).
Proof.
  intros Hb m. induction m as [|m IH]; intros fuel k v Hfuel Hm.
  - cbn [seq filter map]. rewrite app_nil_r.
    destruct fuel; [reflexivity|]. cbn [scan slot peer_port].
    replace (to_uint16 (init_peer_port cfg) + Z.of_nat k <? bound) with false;
      [reflexivity|].
    symmetry. apply Z.ltb_ge. lia.
  - destruct Hm as [Hm | [Hm _]]; [|discriminate Hm].
    destruct fuel as [|fuel]; [lia|].
    cbn [scan]. cbn [slot peer_port].
    replace (to_uint16 (init_peer_port cfg) + Z.of_nat k <? bound) with true
      by (symmetry; apply Z.ltb_lt; lia).
    fold (slot cfg k). rewrite next_slot by lia.
    rewrite IH by lia.
    cbn [seq filter]. unfold peer_used at 2.
    destruct (existsb _ instances); cbn [negb map].
    + reflexivity.
    + rewrite <- app_assoc. reflexivity.
Qed.

Lemma ascending_slots (l : list nat) (P0 : Z) :
  ascending (map Z.of_nat l) = true ->
  ascending (map (fun j => P0 + Z.of_nat j) l) = true.
Proof.
  induction l as [|a [|b l] IH]; intros H; [reflexivity | reflexivity |].
  cbn [map ascending] in *. apply andb_true_iff in H. destruct H as (H1 & H2).
  apply andb_true_iff. split; [|exact (IH H2)].
  apply Z.ltb_lt in H1. apply Z.ltb_lt. lia.
Qed.

Lemma ascending_filter_seq (f : nat -> bool) (m k : nat) :
  ascending (map Z.of_nat (filter f (seq k m))) = true.
Proof.
  assert (G : forall m k,
             ascending (map Z.of_nat (filter f (seq k m))) = true
             /\ forall x, In x (filter f (seq k m)) -> (k <= x)%nat).
  { clear. intros m. induction m as [|m IH]; intros k.
    - split; [reflexivity | intros x []].
    - destruct (IH (S k)) as (IH1 & IH2). cbn [seq filter].
      destruct (f k).
      + split.
        * cbn [map]. destruct (filter f (seq (S k) m)) as [|b l] eqn:E;
            [reflexivity|].
          cbn [map] in *. cbn [ascending]. fold ascending.
          apply andb_true_iff. split; [|exact IH1].
          apply Z.ltb_lt. specialize (IH2 b (or_introl eq_refl)). lia.
        * intros x [<- | Hx]; [lia | specialize (IH2 x Hx); lia].
      + split; [exact IH1 | intros x Hx; specialize (IH2 x Hx); lia]. }
  apply G.
Qed.

(** X8.  [get_vacant_ports_list] in closed form.  With no instance the
    list is left as it is.  Otherwise, [bound] being the peer port of
    the first instance with the largest user port, the function appends,
    in ascending order, the slot of every peer port from the configured
    initial one up to [bound] (excluded) that no instance holds, each
    with the user and general-purpose ports of its distance from the
    initial ports (+1 and +2 per slot, in 16 bits), and nothing else.
    So every appended tuple has a peer port no instance uses, and the
    back of the list, which the next create takes, is the highest free
    slot. *)
Theorem vacant_ports_are_the_unused_slots
        (first : instance_info) (rest : list instance_info) (v : list ports) :
  let instances := first :: rest in
  let bound := peer_port (assigned_ports (max_element first rest)) in
  let P0 := to_uint16 (init_peer_port cfg) in
  let free :=
    filter (fun j => negb (peer_used instances (P0 + Z.of_nat j)))
           (seq 0 (Z.to_nat (bound - P0))) in
  bound < 65536 ->
  get_vacant_ports_list cfg [] v = v
  /\ get_vacant_ports_list cfg instances v = v ++ map (slot cfg) free
  /\ (forall p, In p (map (slot cfg) free) ->
                P0 <= peer_port p < bound
                /\ peer_used instances (peer_port p) = false)
  /\ (forall q, P0 <= q < bound -> peer_used instances q = false ->
                exists p, In p (map (slot cfg) free) /\ peer_port p = q)
  /\ ascending (map peer_port (map (slot cfg) free)) = true.
Proof.
  intros instances bound P0 free Hb.
  assert (HP0 : 0 <= P0 < 65536)
    by (unfold P0, to_uint16; apply Z.mod_pos_bound; lia).
  split; [reflexivity|]. split; [|split; [|split]].
  - unfold get_vacant_ports_list. fold instances. fold bound.
    change (mk_ports (to_uint16 (init_peer_port cfg))
                     (to_uint16 (init_user_port cfg))
                     (to_uint16 (init_gp_tcp_port cfg))
                     (to_uint16 (init_gp_udp_port cfg)))
      with (mk_ports P0 (to_uint16 (init_user_port cfg))
                     (to_uint16 (init_gp_tcp_port cfg))
                     (to_uint16 (init_gp_udp_port cfg))).
    replace (mk_ports P0 (to_uint16 (init_user_port cfg))
                      (to_uint16 (init_gp_tcp_port cfg))
                      (to_uint16 (init_gp_udp_port cfg)))
      with (slot cfg 0).
    2:{ unfold slot, P0. cbn [Z.of_nat]. rewrite Z.mul_0_r, !Z.add_0_r.
        reflexivity. }
    apply (scan_closed instances bound Hb); [lia|].
    destruct (Z_lt_le_dec P0 bound) as [Hlt | Hle].
    + left. fold P0. lia.
    + right. fold P0. split; [|lia].
      replace (bound - P0) with (- (P0 - bound)) by lia.
      destruct (P0 - bound) eqn:E; try reflexivity. lia.
  - intros p Hp. apply in_map_iff in Hp. destruct Hp as (j & <- & Hj).
    apply filter_In in Hj. destruct Hj as (Hj & Hfree).
    apply in_seq in Hj. cbn [slot peer_port]. fold P0.
    split; [lia|]. apply negb_true_iff in Hfree. exact Hfree.
  - intros q Hq Hfree. exists (slot cfg (Z.to_nat (q - P0))).
    split.
    + apply in_map. apply filter_In. split.
      * apply in_seq. lia.
      * rewrite Z2Nat.id by lia. replace (P0 + (q - P0)) with q by lia.
        rewrite Hfree. reflexivity.
    + cbn [slot peer_port]. fold P0. rewrite Z2Nat.id by lia. lia.
  - rewrite map_map. cbn [slot peer_port]. fold P0.
    apply (ascending_slots free P0). apply ascending_filter_seq.
Qed.

End Slots.

(** The theorem on the S1 host with instances in its first and fourth
    slot: the second and third slot are vacant, the third at the back. *)
Lemma vacant_ports_witness :
  get_vacant_ports_list cfg_s1 instances_gap []
  = [mk_ports 22862 26202 36527 39066; mk_ports 22863 26203 36529 39068].
Proof.
  pose proof (vacant_ports_are_the_unused_slots
                cfg_s1 (inst "T1" ports_s1)
                [inst "T4" (mk_ports 22864 26204 36531 39070)] []) as H.
  cbv zeta in H. destruct (H ltac:(vm_compute; reflexivity)) as (_ & H2 & _).
  exact H2.
Defined.

End VacantFacts.

(** ** The vacant list across destructions *)

Section DestroyFacts.
Import Hp.
Context {DB : Type} {SQL : Sqlite DB}.
Variable cfg : hp_conf.
Variable os : os_env.

Lemma ports_eqb_refl (p : ports) : ports_eqb p p = true.
Proof. unfold ports_eqb. rewrite !Z.eqb_refl. reflexivity. Qed.

Lemma existsb_ports_In (p : ports) (l : list ports) :
  In p l -> existsb (ports_eqb p) l = true.
Proof.
  intros Hin. apply existsb_exists. exists p.
  split; [exact Hin|]. apply ports_eqb_refl.
Qed.

(** X9.  Destroying instances never puts a port tuple on the vacant
    list twice: when the list holds no tuple twice and the instance's
    tuple has general-purpose ports, it holds none twice after
    [destroy_container], whether the call succeeds or fails.  A call
    that fails leaves the list and the table as they were. *)
Theorem destroy_keeps_vacant_ports_distinct
        (container : string) (st : hp_state DB) :
  NoDup (vacant_ports st) ->
  (forall info, is_container_exists (db st) container = Some info ->
                gp_tcp_port_start (assigned_ports info) <> 0) ->
  let out := destroy_container cfg os container st in
  NoDup (vacant_ports (snd out))
  /\ (fst (fst out) = -1 ->
      vacant_ports (snd out) = vacant_ports st /\ db (snd out) = db st)
  /\ (fst (fst out) = 0 ->
      exists info,
        is_container_exists (db st) container = Some info
        /\ In (assigned_ports info) (vacant_ports (snd out))
        /\ delete_hp_instance (db st) container = Some (db (snd out))).
Proof.
  intros Hnd Hgp. cbv zeta. unfold destroy_container.
  destruct (is_container_exists (db st) container) as [info|] eqn:Hinfo.
  2:{ cbn [fst snd]. split; [exact Hnd|]. split; [intros _; split; reflexivity|].
      intros Hc. discriminate Hc. }
  specialize (Hgp info eq_refl).
  unfold uninstall_user, log_os. cbn [fst snd db vacant_ports].
  destruct (uninstall_user_res os (username info) container);
    cbn [Z.eqb Z.opp Pos.eqb fst snd].
  2:{ cbn [vacant_ports db]. split; [exact Hnd|].
      split; [intros _; split; reflexivity | intros Hc; discriminate Hc]. }
  cbn [db vacant_ports].
  destruct (delete_hp_instance (db st) container) as [db'|] eqn:Hdel.
  2:{ cbn [fst snd vacant_ports db]. split; [exact Hnd|].
      split; [intros _; split; reflexivity | intros Hc; discriminate Hc]. }
  cbn [fst snd vacant_ports db].
  assert (Hfreed : freed_ports cfg (assigned_ports info) = assigned_ports info).
  { unfold freed_ports. apply Z.eqb_neq in Hgp. rewrite Hgp. reflexivity. }
  destruct (existsb (ports_eqb (assigned_ports info)) (vacant_ports st)) eqn:Hex.
  - split; [exact Hnd|]. split; [intros Hc; discriminate Hc|].
    intros _. exists info. split; [reflexivity|]. split; [|reflexivity].
    apply existsb_exists in Hex. destruct Hex as (p & Hin & Heq).
    assert (Hp : p = assigned_ports info).
    { unfold ports_eqb in Heq.
      repeat (apply andb_true_iff in Heq; destruct Heq as (Heq & ?)).
      repeat match goal with H : (_ =? _) = true |- _ => apply Z.eqb_eq in H end.
      destruct p, (assigned_ports info). cbn in *. congruence. }
    rewrite <- Hp. exact Hin.
  - rewrite Hfreed. split.
    + apply NoDup_app; [exact Hnd | repeat constructor; intros [] |].
      intros p Hin [Hp|[]]. subst p.
      rewrite (existsb_ports_In _ _ Hin) in Hex. discriminate Hex.
    + split; [intros Hc; discriminate Hc|].
      intros _. exists info. split; [reflexivity|]. split; [|reflexivity].
      apply in_or_app. right. left. reflexivity.
Qed.

End DestroyFacts.

Lemma destroy_distinct_witness :
  let out := Hp.destroy_s1 Hp.os_fine "T1" Hp.st_two in
  NoDup (Hp.vacant_ports (snd out))
  /\ In Hp.ports_s1 (Hp.vacant_ports (snd out)).
Proof.
  assert (Hgp : forall info,
             Hp.is_container_exists (Sqlite := Hp.list_sqlite Hp.cfg_s1)
                                    (Hp.db Hp.st_two) "T1" = Some info ->
             Hp.gp_tcp_port_start (Hp.assigned_ports info) <> 0).
  { intros info Hinfo. cbn in Hinfo. inversion Hinfo; subst info.
    discriminate. }
  pose proof (destroy_keeps_vacant_ports_distinct
                (SQL := Hp.list_sqlite Hp.cfg_s1) Hp.cfg_s1 Hp.os_fine "T1"
                Hp.st_two (NoDup_nil _) Hgp) as H.
  cbv zeta in H. destruct H as (H1 & _ & H2).
  cbv zeta. split; [exact H1|].
  destruct (H2 eq_refl) as (info & Hinfo & Hin & _).
  cbn in Hinfo. inversion Hinfo; subst info. exact Hin.
Defined.

(** ** Starting, stopping and initiating an instance *)

Section LifeFacts.
Import Hp Lifecycle.
Context {DB : Type} {SQL : Sqlite DB}.
Variable Json : Type.
Variable Config : Type.
Variable sys : sys_env (DB := DB) Json Config.

Ltac life_unfold :=
  unfold docker_start, docker_stop, hpfs_start, hpfs_stop,
    hpfs_update_service_conf, log_sys, set_db.

Ltac life_case :=
  match goal with
  | |- context [match is_container_exists ?d ?c with _ => _ end] =>
      destruct (is_container_exists d c) eqn:?
  | |- context [if negb ?b then _ else _] => destruct b eqn:?; cbn [negb]
  | |- context [match read_json_file ?s ?p with _ => _ end] =>
      destruct (read_json_file s p) eqn:?
  | |- context [match write_json_values ?s ?d ?c with _ => _ end] =>
      destruct (write_json_values s d c) eqn:?
  | |- context [match read_json_values ?s ?d with _ => _ end] =>
      destruct (read_json_values s d) as [[? ?]|] eqn:?
  | |- context [match update_status_in_container ?s ?d ?c ?v with _ => _ end] =>
      destruct (update_status_in_container s d c v) eqn:?
  | |- context [if ?b then 0 else -1] => destruct b eqn:?
  end;
  cbn [fst snd l_db l_trace Z.eqb Z.opp Pos.eqb].

(** X10.  [stop_container] touches nothing unless the instance is in the
    table as running.  Once the runtime has stopped the container and
    the table has been updated the row says stopped whether or not the
    hpfs service could be stopped, and the call reports failure in the
    second case; when the runtime or the table update fails the table
    is unchanged and hpfs is not asked to stop. *)
Theorem stop_container_outcomes (container : string) (st : life_state DB) :
  let out := stop_container sys container st in
  (is_container_exists (l_db st) container = None -> out = (-1, st))
  /\ (forall info,
        is_container_exists (l_db st) container = Some info ->
        (status info <> STATE_RUNNING -> out = (-1, st))
        /\ (status info = STATE_RUNNING ->
            let user := username info in
            if docker_stop_res sys user container then
              match update_status_in_container sys (l_db st) container
                                               STATE_STOPPED with
              | Some db' =>
                  out = ((if stop_hpfs_systemd sys user then 0 else -1),
                         mk_life db' (l_trace st
                                      ++ [SysDockerStop user container;
                                          SysStopHpfs user]))
              | None =>
                  out = (-1, mk_life (l_db st)
                                     (l_trace st
                                      ++ [SysDockerStop user container]))
              end
            else
              out = (-1, mk_life (l_db st)
                                 (l_trace st ++ [SysDockerStop user container])))).
Proof.
  cbv zeta. unfold stop_container. split.
  - intros Hnone. rewrite Hnone. reflexivity.
  - intros info Hinfo. rewrite Hinfo. split.
    + intros Hstatus.
      destruct (String.eqb_spec (status info) STATE_RUNNING) as [Heq|_];
        [contradiction | reflexivity].
    + intros Hstatus. rewrite Hstatus, String.eqb_refl. cbn [negb].
      life_unfold. cbn [fst snd l_db l_trace].
      destruct (docker_stop_res sys (username info) container);
        cbn [Z.eqb Z.opp Pos.eqb]; [|reflexivity].
      destruct (update_status_in_container sys (l_db st) container STATE_STOPPED);
        [|reflexivity].
      cbn [l_db l_trace]. rewrite <- app_assoc. cbn [app].
      destruct (stop_hpfs_systemd sys (username info)); reflexivity.
Qed.

(** X11.  [start_container] changes the table only when it returns 0.
    It asks nothing of the system unless the instance is in the table
    as stopped.  With the configuration read, the service configured
    and hpfs started, it starts the container and marks the row
    running; when the table update fails the container and hpfs are
    stopped again, and when the runtime fails to start the container
    hpfs is left running. *)
Theorem start_container_outcomes (container : string) (st : life_state DB) :
  let out := start_container sys container st in
  (fst out = 0 \/ fst out = -1)
  /\ (fst out = -1 -> l_db (snd out) = l_db st)
  /\ (is_container_exists (l_db st) container = None -> out = (-1, st))
  /\ (forall info,
        is_container_exists (l_db st) container = Some info ->
        (status info <> STATE_STOPPED -> out = (-1, st))
        /\ (forall d level full,
              status info = STATE_STOPPED ->
              let user := username info in
              let path := String.append (contract_dir_of sys user container)
                                        "/cfg/hp.cfg" in
              open_config sys path = true ->
              read_json_file sys path = Some d ->
              read_json_values sys d = Some (level, full) ->
              update_service_conf sys user level full = true ->
              start_hpfs_systemd sys user = true ->
              let tr := l_trace st
                        ++ [SysUpdateServiceConf user level full;
                            SysStartHpfs user;
                            SysDockerStart user container] in
              if docker_start_res sys user container then
                match update_status_in_container sys (l_db st) container
                                                 STATE_RUNNING with
                | Some db' => out = (0, mk_life db' tr)
                | None =>
                    out = (-1, mk_life (l_db st)
                                       (tr ++ [SysDockerStop user container;
                                               SysStopHpfs user]))
                end
              else out = (-1, mk_life (l_db st) tr))).
Proof.
  cbv zeta. unfold start_container. split; [|split; [|split; [|]]].
  - life_unfold. repeat life_case; auto.
  - life_unfold. repeat life_case; intros H; try reflexivity; discriminate H.
  - intros Hnone. rewrite Hnone. reflexivity.
  - intros info Hinfo. rewrite Hinfo. split.
    + intros Hstatus.
      destruct (String.eqb_spec (status info) STATE_STOPPED) as [Heq|_];
        [contradiction | reflexivity].
    + intros d level full Hstatus Hopen Hread Hvalues Hconf Hhpfs.
      rewrite Hstatus, String.eqb_refl. cbn [negb].
      change (append (contract_dir_of sys (username info) container) "/cfg/hp.cfg")
        with (String.append (contract_dir_of sys (username info) container)
                            "/cfg/hp.cfg").
      rewrite Hopen. cbn [negb]. rewrite Hread, Hvalues.
      life_unfold. cbn [fst snd l_db l_trace].
      rewrite Hconf, Hhpfs. cbn [Z.eqb Z.opp Pos.eqb].
      rewrite <- !app_assoc. cbn [app].
      destruct (docker_start_res sys (username info) container);
        cbn [Z.eqb Z.opp Pos.eqb]; [|reflexivity].
      cbn [l_db l_trace].
      destruct (update_status_in_container sys (l_db st) container STATE_RUNNING);
        reflexivity.
Qed.

(** X12.  [initiate_instance] changes the table only when it returns 0,
    and gives the reason otherwise.  It refuses an instance that is not
    in the table ([no_container]) or not in status created
    ([dup_container]) without touching anything.  With the
    configuration written, the service configured and hpfs started: a
    runtime that fails to start the container has hpfs stopped again
    ([container_start_error]); a table update that fails has the
    container and hpfs stopped again ([container_update_error]); the
    rewritten configuration file stays in both cases. *)
Theorem initiate_instance_outcomes
        (container : string) (config : Config) (st : life_state DB) :
  let out := initiate_instance sys container config st in
  let ret := fst (fst out) in
  let error_msg := snd (fst out) in
  (ret = 0 /\ error_msg = EmptyString
   \/ ret = -1
      /\ l_db (snd out) = l_db st
      /\ In error_msg [NO_CONTAINER; DUP_CONTAINER; CONF_READ_ERROR;
                       CONTAINER_CONF_ERROR; CONTAINER_START_ERROR;
                       CONTAINER_UPDATE_ERROR])
  /\ (is_container_exists (l_db st) container = None ->
      out = (-1, NO_CONTAINER, st))
  /\ (forall info,
        is_container_exists (l_db st) container = Some info ->
        (status info <> STATE_CREATED -> out = (-1, DUP_CONTAINER, st))
        /\ (forall d d' level full,
              status info = STATE_CREATED ->
              let user := username info in
              let path := String.append (contract_dir_of sys user container)
                                        "/cfg/hp.cfg" in
              open_config sys path = true ->
              read_json_file sys path = Some d ->
              write_json_values sys d config = Some d' ->
              read_json_values sys d' = Some (level, full) ->
              write_json_file sys path d' = true ->
              update_service_conf sys user level full = true ->
              start_hpfs_systemd sys user = true ->
              let tr := l_trace st
                        ++ [SysWriteConfig path;
                            SysUpdateServiceConf user level full;
                            SysStartHpfs user;
                            SysDockerStart user container] in
              if docker_start_res sys user container then
                match update_status_in_container sys (l_db st) container
                                                 STATE_RUNNING with
                | Some db' => out = (0, EmptyString, mk_life db' tr)
                | None =>
                    out = (-1, CONTAINER_UPDATE_ERROR,
                           mk_life (l_db st)
                                   (tr ++ [SysDockerStop user container;
                                           SysStopHpfs user]))
                end
              else
                out = (-1, CONTAINER_START_ERROR,
                       mk_life (l_db st) (tr ++ [SysStopHpfs user])))).
Proof.
  cbv zeta. unfold initiate_instance. split; [|split].
  - life_unfold.
    repeat life_case;
      first [ left; split; reflexivity
            | right; split; [reflexivity|]; split; [reflexivity|];
              cbn [In]; tauto ].
  - intros Hnone. rewrite Hnone. reflexivity.
  - intros info Hinfo. rewrite Hinfo. split.
    + intros Hstatus.
      destruct (String.eqb_spec (status info) STATE_CREATED) as [Heq|_];
        [contradiction | reflexivity].
    + intros d d' level full Hstatus Hopen Hread Hwrite Hvalues Hfile Hconf Hhpfs.
      rewrite Hstatus, String.eqb_refl. cbn [negb].
      change (append (contract_dir_of sys (username info) container) "/cfg/hp.cfg")
        with (String.append (contract_dir_of sys (username info) container)
                            "/cfg/hp.cfg").
      rewrite Hopen. cbn [negb]. rewrite Hread, Hwrite, Hvalues.
      life_unfold. cbn [fst snd l_db l_trace].
      rewrite Hfile. cbn [negb]. rewrite Hconf, Hhpfs.
      cbn [Z.eqb Z.opp Pos.eqb].
      rewrite <- !app_assoc. cbn [app].
      destruct (docker_start_res sys (username info) container);
        cbn [Z.eqb Z.opp Pos.eqb l_db l_trace].
      * destruct (update_status_in_container sys (l_db st) container STATE_RUNNING);
          reflexivity.
      * reflexivity.
Qed.

End LifeFacts.

(** The instance [T1] of the S1 host: stopping it when the hpfs service
    cannot be stopped, starting it on a table that cannot be written,
    and initiating it when the runtime cannot start the container. *)
Lemma stop_container_witness :
  Lifecycle.stop_T1 (Lifecycle.sys_of true false)
                    (Lifecycle.life_T1 Hp.STATE_RUNNING true)
  = (-1, Lifecycle.mk_life
           (Lifecycle.l_db (Lifecycle.life_T1 Hp.STATE_STOPPED true))
           [Lifecycle.SysDockerStop "sashiT1" "T1";
            Lifecycle.SysStopHpfs "sashiT1"]).
Proof.
  pose proof (stop_container_outcomes
                (SQL := Hp.list_sqlite Hp.cfg_s1) (string * string) unit
                (Lifecycle.sys_of true false) "T1"
                (Lifecycle.life_T1 Hp.STATE_RUNNING true)) as H.
  cbv zeta in H. destruct H as (_ & H).
  destruct (H _ eq_refl) as (_ & H1). exact (H1 eq_refl).
Defined.

Lemma start_container_witness :
  Lifecycle.start_T1 (Lifecycle.sys_of true true)
                     (Lifecycle.life_T1 Hp.STATE_STOPPED false)
  = (-1, Lifecycle.mk_life
           (Lifecycle.l_db (Lifecycle.life_T1 Hp.STATE_STOPPED false))
           [Lifecycle.SysUpdateServiceConf "sashiT1" "inf" true;
            Lifecycle.SysStartHpfs "sashiT1";
            Lifecycle.SysDockerStart "sashiT1" "T1";
            Lifecycle.SysDockerStop "sashiT1" "T1";
            Lifecycle.SysStopHpfs "sashiT1"]).
Proof.
  pose proof (start_container_outcomes
                (SQL := Hp.list_sqlite Hp.cfg_s1) (string * string) unit
                (Lifecycle.sys_of true true) "T1"
                (Lifecycle.life_T1 Hp.STATE_STOPPED false)) as H.
  cbv zeta in H. destruct H as (_ & _ & _ & H).
  destruct (H _ eq_refl) as (_ & H1).
  exact (H1 ("inf", "full") "inf" true eq_refl eq_refl eq_refl eq_refl
            eq_refl eq_refl).
Defined.

Lemma initiate_instance_witness :
  Lifecycle.initiate_T1 (Lifecycle.sys_of false true)
                        (Lifecycle.life_T1 Hp.STATE_CREATED true)
  = (-1, Lifecycle.CONTAINER_START_ERROR,
     Lifecycle.mk_life
       (Lifecycle.l_db (Lifecycle.life_T1 Hp.STATE_CREATED true))
       [Lifecycle.SysWriteConfig "/home/sashiT1/T1/cfg/hp.cfg";
        Lifecycle.SysUpdateServiceConf "sashiT1" "inf" true;
        Lifecycle.SysStartHpfs "sashiT1";
        Lifecycle.SysDockerStart "sashiT1" "T1";
        Lifecycle.SysStopHpfs "sashiT1"]).
Proof.
  pose proof (initiate_instance_outcomes
                (SQL := Hp.list_sqlite Hp.cfg_s1) (string * string) unit
                (Lifecycle.sys_of false true) "T1" tt
                (Lifecycle.life_T1 Hp.STATE_CREATED true)) as H.
  cbv zeta in H. destruct H as (_ & _ & H).
  destruct (H _ eq_refl) as (_ & H1).
  exact (H1 ("inf", "full") ("inf", "full") "inf" true eq_refl eq_refl eq_refl
            eq_refl eq_refl eq_refl eq_refl eq_refl).
Defined.

(** ** Drains of the transaction queue *)

Section DrainFacts.
Import MB Scheduler.
Variable E : Env.

Lemma kept_snoc_gone (a : Action) (l l' : list Action) :
  Kept l l' -> Kept (l ++ [a]) l'.
Proof.
  induction 1; cbn [app].
  - apply kept_gone, kept_nil.
  - apply kept_gone. assumption.
  - apply kept_again. assumption.
Qed.

Lemma kept_snoc_again (a : Action) (refs : Refs) (l l' : list Action) :
  Kept l l' ->
  Kept (l ++ [a])
       (l' ++ [mk_action (callback a) refs (attempts a + 1) (maxAttempts a)
                         (delay a)]).
Proof.
  induction 1; cbn [app].
  - apply kept_again, kept_nil.
  - apply kept_gone. assumption.
  - apply kept_again. assumption.
Qed.

(** One step of the drain, by cases. *)
Lemma process_action_cases (a : Action) (toKeep : list Action) (w : World) :
  let '(toKeep', w') := process_action E (toKeep, w) a in
  toKeep' = toKeep
  \/ exists refs,
      toKeep' = toKeep ++ [mk_action (callback a) refs (attempts a + 1)
                                     (maxAttempts a) (delay a)].
Proof.
  unfold process_action.
  destruct (run_callback E (callback a) (submissionRefs a, w))
    as [[u | e] [refs w1]].
  - left. reflexivity.
  - destruct (attempts a <? maxAttempts a); [|left; reflexivity].
    cbn [callback attempts maxAttempts delay].
    destruct (delay a >? 0); [left; reflexivity|].
    right. exists refs. reflexivity.
Qed.

Lemma drain_keeps (l : list Action) :
  forall done toKeep w,
    Kept done toKeep ->
    Kept (done ++ l) (fst (fold_left (process_action E) l (toKeep, w))).
Proof.
  induction l as [|a l IH]; intros done toKeep w HK.
  - rewrite app_nil_r. exact HK.
  - cbn [fold_left].
    pose proof (process_action_cases a toKeep w) as C.
    destruct (process_action E (toKeep, w) a) as [toKeep' w'].
    replace (done ++ a :: l) with ((done ++ [a]) ++ l)
      by (rewrite <- app_assoc; reflexivity).
    apply IH.
    destruct C as [-> | (refs & ->)].
    + apply kept_snoc_gone. exact HK.
    + apply kept_snoc_again. exact HK.
Qed.

Lemma kept_length (l l' : list Action) :
  Kept l l' -> (length l' <= length l)%nat.
Proof. induction 1; cbn [length]; lia. Qed.

(** X13.  A drain never reorders, duplicates or invents work: what
    [#processConcurrencyQueue] leaves in the queue is the old queue with
    some actions gone and every other one still in its place, with the
    same callback, limit and delay and exactly one attempt more.  So the
    queue does not grow in a drain. *)
Theorem drain_keeps_actions_in_order (w : World) :
  Kept (queue w) (queue (processConcurrencyQueue E w))
  /\ (length (queue (processConcurrencyQueue E w)) <= length (queue w))%nat.
Proof.
  assert (H : Kept (queue w) (queue (processConcurrencyQueue E w))).
  { unfold processConcurrencyQueue.
    pose proof (drain_keeps (queue w) [] [] w kept_nil) as K.
    destruct (fold_left (process_action E) (queue w) ([], w)) as [toKeep w'].
    exact K. }
  split; [exact H | apply kept_length; exact H].
Qed.

(** A drain of a queue that holds one action. *)
Lemma drain_single (a : Action) (w : World) :
  queue w = [a] ->
  processConcurrencyQueue E w
  = set_queue (fst (process_action E ([], w) a))
              (snd (process_action E ([], w) a)).
Proof.
  intros Hq. unfold processConcurrencyQueue. rewrite Hq. cbn [fold_left].
  destruct (process_action E ([], w) a). reflexivity.
Qed.

Lemma failing_action_retried (cb : Callback) (N : Z) :
  (forall refs w, exists e refs' w',
        run_callback E cb (refs, w) = (Thrown e, (refs', w'))) ->
  forall (k : nat) (refs : Refs) (a0 : Z) (w : World),
    queue w = [mk_action cb refs a0 N 0] ->
    a0 + Z.of_nat k <= N ->
    exists refs',
      queue (drains E k w) = [mk_action cb refs' (a0 + Z.of_nat k) N 0].
Proof.
  intros Hfail k. induction k as [|k IH]; intros refs a0 w Hq Hk.
  - exists refs. cbn [drains Z.of_nat]. rewrite Z.add_0_r. exact Hq.
  - cbn [drains]. rewrite (drain_single _ w Hq).
    destruct (Hfail refs w) as (e & refs' & w' & Hrun).
    unfold process_action. cbn [callback submissionRefs attempts maxAttempts
                                delay].
    rewrite Hrun.
    replace (a0 <? N) with true by (symmetry; apply Z.ltb_lt; lia).
    change (0 >? 0) with false. cbn iota. cbn [fst snd app].
    match goal with
    | |- context [set_queue [?a] ?w2] =>
        destruct (IH refs' (a0 + 1) (set_queue [a] w2) eq_refl ltac:(lia))
          as (refs'' & Hd)
    end.
    exists refs''. rewrite Hd. f_equal. f_equal. lia.
Qed.

(** X14.  The attempt limit is off by one.  An action queued with the
    limit [N] whose callback throws every time is run [N + 1] times: it
    is still queued, with [k] attempts counted, after each of the first
    [N] drains, and the drain after that runs it once more and drops
    it.  With the default limit of five that is six runs. *)
Theorem failing_action_runs_once_more_than_its_limit
        (cb : Callback) (N : Z) (w : World) :
  (forall refs w, exists e refs' w',
        run_callback E cb (refs, w) = (Thrown e, (refs', w'))) ->
  0 <= N ->
  queue w = [mk_action cb None 0 N 0] ->
  (forall k : nat,
      Z.of_nat k <= N ->
      exists refs', queue (drains E k w) = [mk_action cb refs' (Z.of_nat k) N 0])
  /\ queue (drains E (S (Z.to_nat N)) w) = []
  /\ exists refs,
      queue (drains E (Z.to_nat N) w) = [mk_action cb refs N N 0]
      /\ drains E (S (Z.to_nat N)) w
         = set_queue
             [] (snd (snd (run_callback E cb (refs, drains E (Z.to_nat N) w)))).
Proof.
  intros Hfail HN Hq.
  assert (Hk : forall k : nat,
             Z.of_nat k <= N ->
             exists refs',
               queue (drains E k w) = [mk_action cb refs' (Z.of_nat k) N 0]).
  { intros k Hk.
    destruct (failing_action_retried cb N Hfail k None 0 w Hq ltac:(lia))
      as (refs' & H).
    exists refs'. exact H. }
  assert (Hlast : forall n v, drains E (S n) v
                              = processConcurrencyQueue E (drains E n v)).
  { clear. intros n. induction n as [|n IH]; intros v; [reflexivity|].
    cbn [drains] in *. rewrite <- IH. reflexivity. }
  destruct (Hk (Z.to_nat N) ltac:(lia)) as (refs' & HqN).
  rewrite Z2Nat.id in HqN by lia.
  destruct (Hfail refs' (drains E (Z.to_nat N) w)) as (e & r1 & w1 & Hrun).
  assert (Hend : drains E (S (Z.to_nat N)) w = set_queue [] w1).
  { rewrite Hlast, (drain_single _ _ HqN).
    unfold process_action. cbn [callback submissionRefs attempts maxAttempts
                                delay].
    rewrite Hrun, Z.ltb_irrefl. reflexivity. }
  split; [exact Hk|]. split.
  - rewrite Hend. reflexivity.
  - exists refs'. rewrite Hrun. cbn [snd]. split; [exact HqN | exact Hend].
Qed.

(** A callback throws only if a submission does. *)
Lemma callback_completes (cb : Callback) (refs : Refs) (w : World) :
  (forall n tx, thrown (submit_outcome E n tx) = None) ->
  fst (run_callback E cb (refs, w)) = Ok tt.
Proof.
  intros Hok.
  destruct cb; cbn [run_callback];
    unfold cb_recreateLeaseOffer, cb_expiredRegInfo, cb_acquireSuccess,
           cb_acquireError, cb_single, cb_refundIfAcquiring,
           cb_prunedRegInfo, validated_already, submit, ref_hash;
    cb_step; rewrite ?Hok;
    repeat (first [ rewrite Hok
                  | match goal with
                    | |- context [match ?x with _ => _ end] =>
                        match type of x with
                        | bool => destruct x eqn:?
                        | option _ => destruct x eqn:?
                        | list _ => destruct x eqn:?
                        | LeaseStatus => destruct x eqn:?
                        end
                    | |- context [if ?x then _ else _] => destruct x eqn:?
                    end ];
            cb_step);
    try reflexivity.
Qed.

Lemma drain_all_complete (l : list Action) :
  (forall n tx, thrown (submit_outcome E n tx) = None) ->
  forall w,
    fst (fold_left (process_action E) l ([], w)) = []
    /\ (l <> [] ->
        applyFeeUpliftment (snd (fold_left (process_action E) l ([], w))) = false
        /\ feeUpliftment (snd (fold_left (process_action E) l ([], w))) = 0).
Proof.
  intros Hok.
  assert (Hstep : forall a w, exists w1,
               process_action E ([], w) a = ([], set_uplift false 0 w1)).
  { intros a w. unfold process_action.
    pose proof (callback_completes (callback a) (submissionRefs a) w Hok) as C.
    destruct (run_callback E (callback a) (submissionRefs a, w))
      as [[[] | e] [refs w1]]; [|discriminate C].
    exists w1. reflexivity. }
  induction l as [|a l IH] using rev_ind; intros w.
  - split; [reflexivity | intros H; contradiction].
  - rewrite fold_left_app. cbn [fold_left].
    destruct (IH w) as (IH1 & _).
    destruct (fold_left (process_action E) l ([], w)) as [toKeep w0].
    cbn [fst] in IH1. subst toKeep.
    destruct (Hstep a w0) as (w1 & ->).
    split; [reflexivity | intros _; split; reflexivity].
Qed.

(** X15.  On a ledger that accepts every submission one drain empties
    the queue, whatever it holds: every action completes and leaves, and
    a queue that was not empty leaves the fee uplift reset to zero and
    switched off. *)
Theorem drain_on_accepting_ledger_empties_the_queue (w : World) :
  (forall n tx, thrown (submit_outcome E n tx) = None) ->
  queue (processConcurrencyQueue E w) = []
  /\ (queue w <> [] ->
      applyFeeUpliftment (processConcurrencyQueue E w) = false
      /\ feeUpliftment (processConcurrencyQueue E w) = 0).
Proof.
  intros Hok. unfold processConcurrencyQueue.
  pose proof (drain_all_complete (queue w) Hok w) as (H1 & H2).
  destruct (fold_left (process_action E) (queue w) ([], w)) as [toKeep w'].
  cbn [fst snd] in *. subst toKeep.
  split; [reflexivity | exact H2].
Qed.

End DrainFacts.

(** The theorem on the board with the re-offer of [T1] queued. *)
Lemma drain_on_accepting_ledger_witness :
  MB.queue (MB.processConcurrencyQueue MB.env_fine MB.world_reoffer) = [].
Proof.
  apply (drain_on_accepting_ledger_empties_the_queue MB.env_fine
                                                      MB.world_reoffer).
  reflexivity.
Defined.

(** On a ledger that rejects every submission a refund throws every
    time. *)
Lemma refund_fails_when_ledger_down (h o : string) (a : Q) :
  forall refs w, exists e refs' w',
      MB.run_callback Scheduler.env_down (MB.CbRefundTenant h o a) (refs, w)
      = (MB.Thrown e, (refs', w')).
Proof.
  intros refs w. cbn [MB.run_callback].
  unfold MB.cb_single, MB.validated_already, MB.submit, MB.ref_hash.
  cb_step. cbn [Scheduler.env_down MB.getTransactionValidatedResults
                MB.submit_outcome Scheduler.ledger_down MB.thrown MB.recorded].
  destruct refs as [[|[x|] l]|]; cbn [nth repeat];
    rewrite ?andb_false_r; cbn iota; repeat eexists.
Qed.

(** The theorem for a refund queued with the default limit on a ledger
    that rejects everything: still queued after five drains, gone after
    the sixth. *)
Lemma failing_action_witness :
  (exists refs,
      MB.queue (Scheduler.drains
                  Scheduler.env_down 5
                  (MB.queueAction (MB.CbRefundTenant "TXA" "rTENANT" (2 # 1))
                                  MB.world_empty))
      = [MB.mk_action (MB.CbRefundTenant "TXA" "rTENANT" (2 # 1)) refs 5 5 0])
  /\ MB.queue (Scheduler.drains
                 Scheduler.env_down 6
                 (MB.queueAction (MB.CbRefundTenant "TXA" "rTENANT" (2 # 1))
                                 MB.world_empty))
     = [].
Proof.
  destruct (failing_action_runs_once_more_than_its_limit
              Scheduler.env_down (MB.CbRefundTenant "TXA" "rTENANT" (2 # 1)) 5
              (MB.queueAction (MB.CbRefundTenant "TXA" "rTENANT" (2 # 1))
                              MB.world_empty)
              (refund_fails_when_ledger_down "TXA" "rTENANT" (2 # 1))
              ltac:(lia) eq_refl) as (H1 & H2 & _).
  split; [exact (H1 5%nat ltac:(lia)) | exact H2].
Defined.

(** ** The expiry pass and lease termination *)

Section ExpiryFacts.
Import MB Scheduler.
Variable E : Env.

Ltac sch_go :=
  cbv beta iota zeta
      delta [bind ret throw get modify try_catch lift_snd when on_board
             set_expirationQueue fst snd destroyInstance
             sashi_destroyInstance].

Ltac board_cbn :=
  cbn [recreateLeaseOffer queueAction queueAction_with
       updateLeaseStatus updateLastIndexRecord removeFromExpiryList
       set_leases set_lastWatchedLedger
       set_expiryList set_activeInstanceCount set_queue
       set_sashiInstances log_sashi
       leases lastWatchedLedger expiryList
       activeInstanceCount queue sashiInstances ledgerLog sashiLog now
       halt instanceExpirationQueue fst snd].

(** What one [#expireInstance] does: it never throws; the entry's
    container leaves the expiration queue and the count goes down
    unless the daemon fails to destroy the instance. *)
Lemma expireInstance_effect (item : ExpiryItem) (c : Clock) (w : World) :
  exists c' w',
    expireInstance E item (c, w) = (Ok tt, (c', w'))
    /\ halt c' = halt c
    /\ instanceExpirationQueue c'
       = (if expires_cleanly E item
          then filter (other_container (containerName item))
                      (instanceExpirationQueue c)
          else instanceExpirationQueue c)
    /\ sashiLog w'
       = sashiLog w
         ++ (if has_token E item
             then [SashiDestroy (Some (containerName item))] else [])
    /\ activeInstanceCount w'
       = activeInstanceCount w - (if expires_cleanly E item then 1 else 0)
    /\ expiryList w' = expiryList w
    /\ ledgerLog w' = ledgerLog w
    /\ now w' = now w
    /\ lastWatchedLedger w' = lastWatchedLedger w
    /\ queue w'
       = queue w
         ++ (if expires_cleanly E item
             then match getLeaseByIndex E (containerName item) with
                  | Some tok => [reoffer_action (containerName item) tok]
                  | None => []
                  end
                  ++ [mk_action CbExpiredRegInfo None 0 5 0]
             else [])
    /\ leases w'
       = (if expires_cleanly E item && has_token E item
          then db_update (has_tx (getLeaseTxHash (containerName item) w))
                         (with_status DESTROYED) (leases w)
          else leases w).
Proof.
  unfold expireInstance, has_token, expires_cleanly, reoffer_action.
  destruct (getLeaseByIndex E (containerName item)) as [tok|].
  - sch_go. destruct (sashi_destroy E (Some (containerName item))) as [e|].
    + sch_go. eexists. eexists. split; [reflexivity|]. board_cbn.
      rewrite app_nil_r.
      repeat split; try reflexivity. lia.
    + sch_go. eexists. eexists. split; [reflexivity|].
      unfold getLeaseTxHash. board_cbn. rewrite <- app_assoc.
      repeat split; reflexivity.
  - sch_go. eexists. eexists. split; [reflexivity|]. board_cbn.
    rewrite app_nil_r. repeat split; reflexivity.
Qed.

(** The entries of [q] whose container is none of those of [items]. *)
Lemma filter_other_twice (n : string) (q : list ExpiryItem) :
  filter (other_container n) (filter (other_container n) q)
  = filter (other_container n) q.
Proof.
  induction q as [|x q IH]; [reflexivity|].
  cbn [filter]. destruct (other_container n x) eqn:Hx; [|exact IH].
  cbn [filter]. rewrite Hx, IH. reflexivity.
Qed.

(** The loop of the expiry pass on a running ledger. *)
Lemma expire_loop_running (items : list ExpiryItem) :
  forall (c : Clock) (w : World),
    xrplHalted c = false ->
    exists c' w',
      expire_loop E items (c, w) = (Ok tt, (c', w'))
      /\ halt c' = halt c
      /\ instanceExpirationQueue c'
         = filter (fun i => forallb (fun it => other_container (containerName it) i)
                                    items)
                  (instanceExpirationQueue c)
      /\ sashiLog w'
         = sashiLog w
           ++ map (fun i => SashiDestroy (Some (containerName i)))
                  (filter (has_token E) items)
      /\ activeInstanceCount w'
         = activeInstanceCount w
           - Z.of_nat (length (filter (expires_cleanly E) items))
      /\ expiryList w' = expiryList w
      /\ ledgerLog w' = ledgerLog w
      /\ now w' = now w
      /\ lastWatchedLedger w' = lastWatchedLedger w.
Proof.
  induction items as [|item items IH]; intros c w Hrun.
  - exists c, w. cbn [expire_loop forallb filter map length]. unfold ret.
    rewrite app_nil_r, Z.sub_0_r.
    repeat split; try reflexivity.
    induction (instanceExpirationQueue c) as [|x q IHq]; [reflexivity|].
    cbn [filter]. rewrite <- IHq. reflexivity.
  - destruct (expireInstance_effect item c w)
      as (c1 & w1 & Hrun1 & Hh1 & Hq1 & Hs1 & Ha1 & He1 & Hl1 & Hn1 & Hw1 & _).
    set (c2 := mk_clock (halt c1)
                        (filter (other_container (containerName item))
                                (instanceExpirationQueue c1))).
    assert (Hrun2 : xrplHalted c2 = false).
    { unfold xrplHalted in *. subst c2. cbn [halt]. rewrite Hh1. exact Hrun. }
    destruct (IH c2 w1 Hrun2)
      as (c' & w' & Hloop & Hh & Hq & Hs & Ha & He & Hl & Hn & Hw).
    exists c', w'. split.
    { cbn [expire_loop]. unfold bind at 1. unfold get at 1. cbn [fst].
      rewrite Hrun. cbn [negb].
      unfold bind at 1. unfold try_catch at 1. unfold bind at 1.
      rewrite Hrun1. sch_go. fold c2. exact Hloop. }
    split; [rewrite Hh; subst c2; cbn [halt]; exact Hh1|].
    split.
    { rewrite Hq. subst c2. cbn [instanceExpirationQueue]. rewrite Hq1.
      assert (Hsame :
        filter (other_container (containerName item))
               (if expires_cleanly E item
                then filter (other_container (containerName item))
                            (instanceExpirationQueue c)
                else instanceExpirationQueue c)
        = filter (other_container (containerName item))
                 (instanceExpirationQueue c)).
      { destruct (expires_cleanly E item); [apply filter_other_twice|reflexivity]. }
      rewrite Hsame. clear.
      induction (instanceExpirationQueue c) as [|x q IHq]; [reflexivity|].
      cbn [filter forallb].
      destruct (other_container (containerName item) x);
        cbn [filter andb]; [|exact IHq].
      destruct (forallb (fun it => other_container (containerName it) x) items);
        rewrite IHq; reflexivity. }
    split.
    { rewrite Hs, Hs1. cbn [filter]. destruct (has_token E item);
        cbn [map]; rewrite <- app_assoc; reflexivity. }
    split.
    { rewrite Ha, Ha1. cbn [filter]. destruct (expires_cleanly E item);
        cbn [length]; lia. }
    split; [congruence|]. split; [congruence|]. split; congruence.
Qed.

(** Looping over the whole queue empties it. *)
Lemma filter_own_containers (q : list ExpiryItem) :
  filter (fun i => forallb (fun it => other_container (containerName it) i) q) q
  = [].
Proof.
  assert (H : forall l,
             (forall i, In i l -> In i q) ->
             filter (fun i => forallb (fun it => other_container (containerName it) i) q) l
             = []).
  { induction l as [|x l IH]; intros Hsub; [reflexivity|].
    cbn [filter].
    assert (Hx : forallb (fun it => other_container (containerName it) x) q = false).
    { destruct (forallb (fun it => other_container (containerName it) x) q) eqn:Hall;
        [|reflexivity].
      rewrite forallb_forall in Hall.
      specialize (Hall x (Hsub x (or_introl eq_refl))).
      unfold other_container in Hall. rewrite String.eqb_refl in Hall.
      discriminate Hall. }
    rewrite Hx. apply IH. intros i Hi. apply Hsub. right. exact Hi. }
  apply H. intros i Hi. exact Hi.
Qed.

(** X16.  The expiry pass on a running ledger never throws and leaves
    the expiration queue empty: the expiry list keeps exactly the
    entries that are not yet due, and for every entry that was parked or
    fell due the daemon is asked once to destroy the instance (when the
    lease token still exists).  The instance count goes down by the
    number of entries whose token is gone or whose instance the daemon
    destroyed; an entry whose destroy failed leaves the queue all the
    same, so it is not tried again by a later pass. *)
Theorem expiry_pass_on_running_ledger (c : Clock) (w : World) :
  xrplHalted c = false ->
  let due :=
    instanceExpirationQueue c
    ++ filter (fun x => expiryTimestamp x <? now w) (expiryList w) in
  exists c' w',
    expireInstances E (c, w) = (Ok tt, (c', w'))
    /\ halt c' = halt c
    /\ instanceExpirationQueue c' = []
    /\ expiryList w' = filter (fun x => expiryTimestamp x >=? now w) (expiryList w)
    /\ sashiLog w'
       = sashiLog w
         ++ map (fun i => SashiDestroy (Some (containerName i)))
                (filter (has_token E) due)
    /\ activeInstanceCount w'
       = activeInstanceCount w
         - Z.of_nat (length (filter (expires_cleanly E) due))
    /\ ledgerLog w' = ledgerLog w.
Proof.
  intros Hrun due. unfold expireInstances.
  unfold bind at 1. unfold get at 1. cbn [fst snd].
  destruct (filter (fun x => expiryTimestamp x <? now w) (expiryList w))
    as [|x expired] eqn:Hexp.
  - (* nothing falls due *)
    assert (Hkeep : filter (fun x => expiryTimestamp x >=? now w) (expiryList w)
                    = expiryList w).
    { clear - Hexp. induction (expiryList w) as [|y l IH]; [reflexivity|].
      cbn [filter] in *.
      destruct (expiryTimestamp y <? now w) eqn:Hy; [discriminate Hexp|].
      assert (Hge : (expiryTimestamp y >=? now w) = true)
        by (apply Z.geb_le; apply Z.ltb_ge in Hy; lia).
      rewrite Hge, (IH Hexp). reflexivity. }
    subst due. rewrite app_nil_r. sch_go. rewrite Hrun. cbn [negb andb].
    destruct (instanceExpirationQueue c) as [|q0 q] eqn:Hq.
    + exists c, w. sch_go. rewrite Hkeep, app_nil_r, Z.sub_0_r. cbn [filter map length].
      repeat split; try reflexivity. exact Hq.
    + destruct (expire_loop_running (q0 :: q) c w Hrun)
        as (c' & w' & Hloop & Hh & Hq' & Hs & Ha & He & Hl & _).
      exists c', w'. rewrite Hloop.
      split; [reflexivity|]. split; [exact Hh|].
      split; [rewrite Hq', Hq; apply filter_own_containers|].
      split; [rewrite He, Hkeep; reflexivity|].
      split; [exact Hs|]. split; [exact Ha | exact Hl].
  - (* some entries fall due *)
    sch_go.
    set (c1 := mk_clock (halt c) (instanceExpirationQueue c ++ x :: expired)).
    set (w1 := set_expiryList
                 (filter (fun x => expiryTimestamp x >=? now w) (expiryList w)) w).
    assert (Hrun1 : xrplHalted c1 = false) by exact Hrun.
    change (xrplHalted c1) with (xrplHalted c) at 1.
    rewrite Hrun. cbn [negb andb instanceExpirationQueue].
    destruct (instanceExpirationQueue c ++ x :: expired) as [|q0 q] eqn:Hq.
    { destruct (instanceExpirationQueue c); discriminate Hq. }
    destruct (expire_loop_running (q0 :: q) c1 w1 Hrun1)
      as (c' & w' & Hloop & Hh & Hq' & Hs & Ha & He & Hl & _).
    exists c', w'.
    split; [exact Hloop|].
    split; [exact Hh|].
    split; [rewrite Hq'; apply filter_own_containers|].
    split; [rewrite He; reflexivity|].
    split; [exact Hs|]. split; [exact Ha | exact Hl].
Qed.

(** X17.  While the ledger is halted the expiry pass destroys nothing:
    the entries that fell due move from the expiry list to the end of
    the expiration queue, in order, and the lease table, the instance
    count, the transaction queue and the daemon are left alone. *)
Theorem expiry_pass_while_halted (c : Clock) (w : World) :
  xrplHalted c = true ->
  let out := expireInstances E (c, w) in
  fst out = Ok tt
  /\ halt (fst (snd out)) = halt c
  /\ instanceExpirationQueue (fst (snd out))
     = instanceExpirationQueue c
       ++ filter (fun x => expiryTimestamp x <? now w) (expiryList w)
  /\ expiryList (snd (snd out))
     = filter (fun x => expiryTimestamp x >=? now w) (expiryList w)
  /\ leases (snd (snd out)) = leases w
  /\ activeInstanceCount (snd (snd out)) = activeInstanceCount w
  /\ queue (snd (snd out)) = queue w
  /\ sashiLog (snd (snd out)) = sashiLog w
  /\ ledgerLog (snd (snd out)) = ledgerLog w.
Proof.
  intros Hhalt out. subst out. unfold expireInstances. sch_go.
  destruct (filter (fun x => expiryTimestamp x <? now w) (expiryList w))
    as [|x expired] eqn:Hexp.
  - assert (Hkeep : filter (fun x => expiryTimestamp x >=? now w) (expiryList w)
                    = expiryList w).
    { clear - Hexp. induction (expiryList w) as [|y l IH]; [reflexivity|].
      cbn [filter] in *.
      destruct (expiryTimestamp y <? now w) eqn:Hy; [discriminate Hexp|].
      assert (Hge : (expiryTimestamp y >=? now w) = true)
        by (apply Z.geb_le; apply Z.ltb_ge in Hy; lia).
      rewrite Hge, (IH Hexp). reflexivity. }
    cbv beta iota. rewrite Hhalt. cbn [negb andb]. board_cbn.
    rewrite Hkeep, app_nil_r. repeat split; reflexivity.
  - cbv beta iota.
    change (xrplHalted
              (mk_clock (halt c) (instanceExpirationQueue c ++ x :: expired)))
      with (xrplHalted c).
    rewrite Hhalt. cbn [negb andb]. board_cbn.
    repeat split; reflexivity.
Qed.

(** The halted pass as an equation. *)
Lemma expiry_pass_halted_state (c : Clock) (w : World) :
  xrplHalted c = true ->
  exists w1,
    expireInstances E (c, w)
    = (Ok tt,
       (mk_clock (halt c)
                 (instanceExpirationQueue c
                  ++ filter (fun x => expiryTimestamp x <? now w) (expiryList w)),
        w1))
    /\ expiryList w1
       = filter (fun x => expiryTimestamp x >=? now w) (expiryList w)
    /\ leases w1 = leases w
    /\ queue w1 = queue w
    /\ activeInstanceCount w1 = activeInstanceCount w
    /\ sashiLog w1 = sashiLog w
    /\ ledgerLog w1 = ledgerLog w
    /\ now w1 = now w.
Proof.
  intros Hhalt. unfold expireInstances. sch_go.
  destruct (filter (fun x => expiryTimestamp x <? now w) (expiryList w))
    as [|x expired] eqn:Hexp.
  - assert (Hkeep : filter (fun x => expiryTimestamp x >=? now w) (expiryList w)
                    = expiryList w).
    { clear - Hexp. induction (expiryList w) as [|y l IH]; [reflexivity|].
      cbn [filter] in *.
      destruct (expiryTimestamp y <? now w) eqn:Hy; [discriminate Hexp|].
      assert (Hge : (expiryTimestamp y >=? now w) = true)
        by (apply Z.geb_le; apply Z.ltb_ge in Hy; lia).
      rewrite Hge, (IH Hexp). reflexivity. }
    cbv beta iota. rewrite Hhalt. cbn [negb andb]. exists w.
    rewrite Hkeep, app_nil_r. destruct c as [h q]. cbn [halt instanceExpirationQueue].
    repeat split; reflexivity.
  - cbv beta iota.
    change (xrplHalted
              (mk_clock (halt c) (instanceExpirationQueue c ++ x :: expired)))
      with (xrplHalted c).
    rewrite Hhalt. cbn [negb andb]. eexists. split; [reflexivity|].
    board_cbn. repeat split; reflexivity.
Qed.

(** X18.  A round of the clock scheduler that finds the ledger halted
    still drains the transaction queue: the round parks the entries
    that fell due, destroys nothing, and then runs
    [#processConcurrencyQueue] on the queue as it was, so the actions
    queued before or during a halt use up their attempts while the
    ledger is down. *)
Theorem halted_round_still_drains (t : Z) (c : Clock) (w : World) :
  Halt.xrplHalted (Halt.checkLedgersForHalt t (halt c)) = true ->
  exists w1,
    clock_round E t (c, w)
    = (Ok tt,
       (mk_clock (Halt.checkLedgersForHalt t (halt c))
                 (instanceExpirationQueue c
                  ++ filter (fun x => expiryTimestamp x <? now w) (expiryList w)),
        processConcurrencyQueue E w1))
    /\ expiryList w1
       = filter (fun x => expiryTimestamp x >=? now w) (expiryList w)
    /\ leases w1 = leases w
    /\ queue w1 = queue w
    /\ activeInstanceCount w1 = activeInstanceCount w
    /\ sashiLog w1 = sashiLog w
    /\ ledgerLog w1 = ledgerLog w.
Proof.
  intros Hhalt.
  destruct (expiry_pass_halted_state
              (mk_clock (Halt.checkLedgersForHalt t (halt c))
                        (instanceExpirationQueue c)) w Hhalt)
    as (w1 & Hrun & He & Hl & Hq & Ha & Hs & Hg & _).
  exists w1. split.
  - unfold clock_round. unfold bind at 1. unfold modify at 1. cbn [fst snd].
    unfold bind at 1. rewrite Hrun. reflexivity.
  - repeat split; assumption.
Qed.

(** X19.  While the ledger is halted a terminate request is dropped,
    without an error: whatever the request, the lease table, the expiry
    list, the expiration queue, the instance count and the transaction
    queue stay as they are and the daemon is not asked anything, so the
    instance keeps running until its lease expires. *)
Theorem terminate_while_halted_is_dropped
        (r : TerminateEvent) (c : Clock) (w : World) :
  xrplHalted c = true ->
  let out := handleTerminateLease E r (c, w) in
  fst out = Ok tt
  /\ fst (snd out) = c
  /\ leases (snd (snd out)) = leases w
  /\ expiryList (snd (snd out)) = expiryList w
  /\ activeInstanceCount (snd (snd out)) = activeInstanceCount w
  /\ queue (snd (snd out)) = queue w
  /\ sashiLog (snd (snd out)) = sashiLog w
  /\ ledgerLog (snd (snd out)) = ledgerLog w.
Proof.
  intros Hhalt out. subst out. unfold handleTerminateLease, terminate_try.
  destruct (negb (t_Destination r =? cfg_address E)%string);
    [sch_go; repeat split; reflexivity|].
  sch_go.
  destruct (getLeaseByIndex E (t_uriTokenId r)) as [tok|];
    [|sch_go; repeat split; reflexivity].
  destruct (negb (Owner tok =? t_tenant r)%string);
    [sch_go; repeat split; reflexivity|].
  sch_go. board_cbn.
  destruct (find (fun i => is_active (status i))
                 (filter (has_container (index tok)) (leases w)))
    as [inst|]; [|repeat split; reflexivity].
  destruct (find (fun i => (containerName i =? container_name inst)%string)
                 (expiryList w)) as [item|]; [|repeat split; reflexivity].
  rewrite Hhalt. cbn [negb]. repeat split; reflexivity.
Qed.

(** A valid terminate on a running ledger comes down to one
    [#expireInstance]. *)
Lemma terminate_runs
      (r : TerminateEvent) (tok : UriToken) (inst : LeaseRow)
      (item : ExpiryItem) (c : Clock) (w : World) :
  xrplHalted c = false ->
  t_Destination r = cfg_address E ->
  getLeaseByIndex E (t_uriTokenId r) = Some tok ->
  Owner tok = t_tenant r ->
  find (fun i => is_active (status i))
       (filter (has_container (index tok)) (leases w)) = Some inst ->
  find (fun i => (containerName i =? container_name inst)%string)
       (expiryList w) = Some item ->
  handleTerminateLease E r (c, w)
  = expireInstance E item
      (c, removeFromExpiryList (container_name inst)
                               (updateLastIndexRecord (t_LedgerIndex r) w)).
Proof.
  intros Hrun Hdest Htok Hown Hinst Hitem.
  unfold handleTerminateLease, terminate_try.
  rewrite Hdest, String.eqb_refl. cbn [negb].
  rewrite Htok, Hown, String.eqb_refl. cbn [negb].
  sch_go.
  cbn [updateLastIndexRecord set_lastWatchedLedger leases expiryList].
  rewrite Hinst, Hitem, Hrun. cbn [negb].
  destruct (expireInstance_effect
              item c
              (removeFromExpiryList
                 (container_name inst)
                 (updateLastIndexRecord (t_LedgerIndex r) w)))
    as (c1 & w1 & Hrun1 & _).
  rewrite Hrun1. reflexivity.
Qed.

(** X20.  A valid terminate on a running ledger takes every entry of
    the container off the expiry list and asks the daemon to destroy
    the instance.  When the destroy succeeds the lease row ends
    [Destroyed], the count goes down by one, and the re-offer and the
    registry update are queued; no refund is ever queued.  When the
    daemon fails the expiry entry is gone all the same while the row,
    the count and the queue stay as they were. *)
Theorem terminate_on_running_ledger
        (r : TerminateEvent) (tok : UriToken) (inst : LeaseRow)
        (item : ExpiryItem) (c : Clock) (w : World) :
  xrplHalted c = false ->
  t_Destination r = cfg_address E ->
  getLeaseByIndex E (t_uriTokenId r) = Some tok ->
  Owner tok = t_tenant r ->
  find (fun i => is_active (status i))
       (filter (has_container (index tok)) (leases w)) = Some inst ->
  find (fun i => (containerName i =? container_name inst)%string)
       (expiryList w) = Some item ->
  let out := handleTerminateLease E r (c, w) in
  fst out = Ok tt
  /\ expiryList (snd (snd out))
     = filter (other_container (container_name inst)) (expiryList w)
  /\ lastWatchedLedger (snd (snd out)) = t_LedgerIndex r
  /\ sashiLog (snd (snd out))
     = sashiLog w
       ++ (if has_token E item
           then [SashiDestroy (Some (container_name inst))] else [])
  /\ activeInstanceCount (snd (snd out))
     = activeInstanceCount w - (if expires_cleanly E item then 1 else 0)
  /\ queue (snd (snd out))
     = queue w
       ++ (if expires_cleanly E item
           then match getLeaseByIndex E (containerName item) with
                | Some tok' => [reoffer_action (containerName item) tok']
                | None => []
                end
                ++ [mk_action CbExpiredRegInfo None 0 5 0]
           else [])
  /\ leases (snd (snd out))
     = (if expires_cleanly E item && has_token E item
        then db_update (has_tx (getLeaseTxHash (container_name inst) w))
                       (with_status DESTROYED) (leases w)
        else leases w)
  /\ ledgerLog (snd (snd out)) = ledgerLog w.
Proof.
  intros Hrun Hdest Htok Hown Hinst Hitem out. subst out.
  assert (Hname : containerName item = container_name inst).
  { apply find_some in Hitem. destruct Hitem as (_ & Hn).
    apply String.eqb_eq in Hn. exact Hn. }
  rewrite (terminate_runs r tok inst item c w Hrun Hdest Htok Hown Hinst Hitem).
  destruct (expireInstance_effect
              item c
              (removeFromExpiryList (container_name inst)
                                    (updateLastIndexRecord (t_LedgerIndex r) w)))
    as (c1 & w1 & Hrun1 & _ & _ & Hs & Ha & He & Hl & _ & Hw & Hq & Hle).
  rewrite Hrun1. cbn [fst snd].
  rewrite He, Hw, Hs, Ha, Hq, Hle, Hl, <- Hname.
  unfold getLeaseTxHash. board_cbn.
  repeat split; reflexivity.
Qed.

End ExpiryFacts.

Lemma expiry_pass_witness :
  exists c' w',
    Scheduler.expireInstances MB.env_fine
                              (Scheduler.clock_running, Scheduler.world_s1_late)
    = (MB.Ok tt, (c', w'))
    /\ Scheduler.instanceExpirationQueue c' = []
    /\ MB.expiryList w' = []
    /\ MB.sashiLog w' = [MB.SashiDestroy (Some "T1")]
    /\ MB.activeInstanceCount w' = 0.
Proof.
  destruct (expiry_pass_on_running_ledger
              MB.env_fine Scheduler.clock_running Scheduler.world_s1_late
              eq_refl)
    as (c' & w' & H0 & _ & H1 & H2 & H3 & H4 & _).
  exists c', w'.
  split; [exact H0 | split; [exact H1 | split; [exact H2 | split;
    [exact H3 | exact H4]]]].
Defined.

Lemma expiry_pass_halted_witness :
  let out := Scheduler.expireInstances
               MB.env_fine (Scheduler.clock_halted, Scheduler.world_s1_late) in
  Scheduler.instanceExpirationQueue (fst (snd out))
  = [MB.mk_expiry "TXA" "T1" "rTENANT" 1003600]
  /\ MB.expiryList (snd (snd out)) = []
  /\ MB.leases (snd (snd out)) = MB.leases Scheduler.world_s1_late
  /\ MB.sashiLog (snd (snd out)) = [].
Proof.
  pose proof (expiry_pass_while_halted
                MB.env_fine Scheduler.clock_halted Scheduler.world_s1_late
                eq_refl) as H.
  cbv zeta in H. destruct H as (_ & _ & H1 & H2 & H3 & _ & _ & H4 & _).
  cbv zeta. split; [exact H1 | split; [exact H2 | split; [exact H3 | exact H4]]].
Defined.

Lemma terminate_halted_witness :
  let out := Scheduler.handleTerminateLease
               MB.env_fine Scheduler.terminate_T1
               (Scheduler.clock_halted, MB.world_s1) in
  fst out = MB.Ok tt
  /\ MB.leases (snd (snd out)) = MB.leases MB.world_s1
  /\ MB.expiryList (snd (snd out)) = MB.expiryList MB.world_s1
  /\ MB.sashiLog (snd (snd out)) = MB.sashiLog MB.world_s1.
Proof.
  pose proof (terminate_while_halted_is_dropped
                MB.env_fine Scheduler.terminate_T1 Scheduler.clock_halted
                MB.world_s1 eq_refl) as H.
  cbv zeta in H. destruct H as (H0 & _ & H1 & H2 & _ & _ & H3 & _).
  cbv zeta. split; [exact H0 | split; [exact H1 | split; [exact H2 | exact H3]]].
Defined.

Lemma terminate_running_witness :
  let out := Scheduler.handleTerminateLease
               MB.env_fine Scheduler.terminate_T1
               (Scheduler.clock_running, MB.world_s1) in
  fst out = MB.Ok tt
  /\ MB.expiryList (snd (snd out)) = []
  /\ MB.sashiLog (snd (snd out)) = [MB.SashiDestroy (Some "T1")]
  /\ MB.activeInstanceCount (snd (snd out)) = 0
  /\ MB.leases (snd (snd out))
     = [MB.mk_lease 1000000 "TXA" "rTENANT" 1 "T1" (Some 1000) MB.DESTROYED].
Proof.
  pose proof (terminate_on_running_ledger
                MB.env_fine Scheduler.terminate_T1 (MB.token_T1 "rTENANT")
                (MB.mk_lease 1000000 "TXA" "rTENANT" 1 "T1" (Some 1000)
                             MB.ACQUIRED)
                (MB.mk_expiry "TXA" "T1" "rTENANT" 1003600)
                Scheduler.clock_running MB.world_s1
                eq_refl eq_refl eq_refl eq_refl eq_refl eq_refl) as H.
  cbv zeta in H. destruct H as (H0 & H1 & _ & H2 & H3 & _ & H4 & _).
  cbv zeta.
  split; [exact H0 | split; [exact H1 | split; [exact H2 | split;
    [exact H3 | exact H4]]]].
Defined.

Lemma halted_round_witness :
  exists w1,
    Scheduler.clock_round MB.env_fine 121000
                          (Scheduler.clock_halted, Scheduler.world_s1_late)
    = (MB.Ok tt,
       (Scheduler.mk_clock
          (Halt.checkLedgersForHalt 121000 (Scheduler.halt Scheduler.clock_halted))
          [MB.mk_expiry "TXA" "T1" "rTENANT" 1003600],
        MB.processConcurrencyQueue MB.env_fine w1))
    /\ MB.expiryList w1 = []
    /\ MB.leases w1 = MB.leases Scheduler.world_s1_late
    /\ MB.sashiLog w1 = [].
Proof.
  destruct (halted_round_still_drains
              MB.env_fine 121000 Scheduler.clock_halted Scheduler.world_s1_late
              eq_refl)
    as (w1 & H0 & H1 & H2 & _ & _ & H3 & _).
  exists w1.
  split; [exact H0 | split; [exact H1 | split; [exact H2 | exact H3]]].
Defined.

(** ** The re-offer of a lease slot *)

Section ReofferFacts.
Import MB.
Variable E : Env.

Lemma find_db_update_same (h : string) (f : LeaseRow -> LeaseRow)
      (l : list LeaseRow) (r : LeaseRow) :
  (forall x, tx_hash (f x) = tx_hash x) ->
  find (has_tx (Some h)) l = Some r ->
  find (has_tx (Some h)) (db_update (has_tx (Some h)) f l) = Some (f r).
Proof.
  intros Hf. induction l as [|x l IH]; [discriminate|].
  cbn [find db_update map]. destruct (has_tx (Some h) x) eqn:Hx.
  - intros [= <-]. cbn [find].
    replace (has_tx (Some h) (f x)) with true; [reflexivity|].
    unfold has_tx in *. rewrite Hf. symmetry. exact Hx.
  - intros H. cbn [find]. rewrite Hx. apply IH. exact H.
Qed.

Lemma find_no_hash (l : list LeaseRow) : find (has_tx None) l = None.
Proof. induction l; [reflexivity | exact IHl]. Qed.

Lemma db_delete_after_update (h : option string) (st : LeaseStatus)
      (l : list LeaseRow) :
  db_delete (has_tx h) (db_update (has_tx h) (with_status st) l)
  = db_delete (has_tx h) l.
Proof.
  unfold db_delete, db_update.
  induction l as [|x l IH]; [reflexivity|].
  cbn [map filter]. destruct (has_tx h x) eqn:Hx.
  - replace (has_tx h (with_status st x)) with true
      by (unfold has_tx in *; destruct h; auto).
    cbn [negb]. exact IH.
  - rewrite Hx. cbn [negb]. f_equal. exact IH.
Qed.

(** The closure's first run on a row that is to be re-offered, on a
    ledger that takes both submissions. *)
Lemma reoffer_runs (t : string) (i : Z) (ip : option string) (w : World)
      (hh : string) (row : LeaseRow) :
  getLeaseTxHash t w = Some hh ->
  find (has_tx (Some hh)) (leases w) = Some row ->
  reoffer_status (Some (status row)) = true ->
  thrown (submit_outcome E (length (ledgerLog w)) (expireLease t)) = None ->
  thrown (submit_outcome E (S (length (ledgerLog w)))
                         (offerLease i (offer_amount E) ip)) = None ->
  exists refs,
    run_callback E (CbRecreateLeaseOffer t i ip false) (None, w)
    = (Ok tt,
       (refs,
        deleteLeaseRecord
          (Some hh)
          (log_tx (offerLease i (offer_amount E) ip)
                  (updateLeaseStatus (Some hh) BURNED
                                     (log_tx (expireLease t) w))))).
Proof.
  intros Hh Hrow Hs Hx Ho.
  assert (Hstatus : getLeaseStatus (Some hh) w = Some (status row))
    by (unfold getLeaseStatus; rewrite Hrow; reflexivity).
  assert (Hburn : getLeaseStatus
                    (Some hh)
                    (updateLeaseStatus (Some hh) BURNED
                                       (log_tx (expireLease t) w))
                  = Some BURNED).
  { unfold getLeaseStatus, updateLeaseStatus.
    cbn [leases log_tx set_leases].
    rewrite (find_db_update_same hh (with_status BURNED) _ row
                                 ltac:(reflexivity) Hrow).
    reflexivity. }
  cbn [run_callback].
  unfold cb_recreateLeaseOffer, validated_already, submit, ref_hash.
  cb_step. cbn [repeat nth negb andb orb].
  rewrite Hh, Hstatus, Hs. cbn [nth negb andb orb]. cb_step.
  rewrite Hx. cb_step. cbn [negb]. cb_step.
  destruct (recorded (submit_outcome E (length (ledgerLog w)) (expireLease t)));
    cbn [option_map store nth]; cb_step; cbn [negb andb orb];
    rewrite Hburn; cbn [is_burned]; cb_step;
    cbn [ledgerLog log_tx updateLeaseStatus set_leases];
    rewrite length_app; cbn [length]; rewrite Nat.add_1_r;
    fold (offer_amount E); rewrite Ho; cb_step; cbn [negb]; cb_step;
    eexists; reflexivity.
Qed.

(** X21.  The re-offer closure acts on the state of the lease row, and
    never touches a lease that is in use.  With the first lease row of
    the token's container in any state but [Destroyed], [Failed],
    [SashiTimeout] or [Burned], or with no such row, the closure submits
    nothing and changes nothing.  With the row in [Destroyed], [Failed]
    or [SashiTimeout] and a ledger that takes both submissions, it
    expires the token, makes the new offer at the configured amount, and
    deletes the row; nothing else is submitted. *)
Theorem reoffer_follows_the_lease_status
        (t : string) (i : Z) (ip : option string) (w : World) :
  let h := getLeaseTxHash t w in
  let s := getLeaseStatus h w in
  let start := Some (repeat (@None string) 2) in
  (reoffer_status s = false -> is_burned s = false ->
   run_callback E (CbRecreateLeaseOffer t i ip false) (None, w)
   = (Ok tt, (start, w)))
  /\ (reoffer_status s = true ->
      thrown (submit_outcome E (length (ledgerLog w)) (expireLease t)) = None ->
      thrown (submit_outcome E (S (length (ledgerLog w)))
                             (offerLease i (offer_amount E) ip)) = None ->
      let w' := snd (snd (run_callback E (CbRecreateLeaseOffer t i ip false)
                                       (None, w))) in
      fst (run_callback E (CbRecreateLeaseOffer t i ip false) (None, w))
      = Ok tt
      /\ ledgerLog w'
         = ledgerLog w ++ [expireLease t; offerLease i (offer_amount E) ip]
      /\ leases w' = db_delete (has_tx h) (leases w)
      /\ existsb (has_tx h) (leases w') = false).
Proof.
  cbv zeta. split.
  - intros Hs Hb. cbn [run_callback].
    unfold cb_recreateLeaseOffer, validated_already, submit, ref_hash.
    cb_step. cbn [repeat nth negb andb orb].
    rewrite Hs. cbn [nth negb andb orb]. cb_step. cbn [nth negb andb orb].
    rewrite Hb. reflexivity.
  - intros Hs Hx Ho.
    destruct (getLeaseTxHash t w) as [hh|] eqn:Hh.
    2:{ unfold getLeaseStatus in Hs. rewrite find_no_hash in Hs.
        discriminate Hs. }
    unfold getLeaseStatus in Hs.
    destruct (find (has_tx (Some hh)) (leases w)) as [row|] eqn:Hrow;
      [|discriminate Hs].
    destruct (reoffer_runs t i ip w hh row Hh Hrow Hs Hx Ho) as (refs & ->).
    cbn [fst snd]. split; [reflexivity|].
    cbn [ledgerLog leases log_tx updateLeaseStatus deleteLeaseRecord
         set_leases].
    split; [rewrite <- app_assoc; reflexivity|].
    rewrite db_delete_after_update.
    split; [reflexivity | apply db_delete_gone].
Qed.

End ReofferFacts.

(** The theorem on the board whose lease on [T1] is [Destroyed], and on
    the one whose lease is [Acquired]. *)
Lemma reoffer_witness :
  MB.ledgerLog
    (snd (snd (MB.run_callback
                 MB.env_fine (MB.CbRecreateLeaseOffer "T1" 0 None false)
                 (None, MB.world_lease MB.DESTROYED false))))
  = [MB.expireLease "T1"; MB.offerLease 0 (2 # 1) None]
  /\ MB.run_callback MB.env_fine (MB.CbRecreateLeaseOffer "T1" 0 None false)
                     (None, MB.world_lease MB.ACQUIRED true)
     = (MB.Ok tt, (Some [None; None], MB.world_lease MB.ACQUIRED true)).
Proof.
  split.
  - pose proof (reoffer_follows_the_lease_status
                  MB.env_fine "T1" 0 None (MB.world_lease MB.DESTROYED false))
      as H.
    cbv zeta in H. destruct H as (_ & H).
    destruct (H eq_refl eq_refl eq_refl) as (_ & H2 & _). exact H2.
  - pose proof (reoffer_follows_the_lease_status
                  MB.env_fine "T1" 0 None (MB.world_lease MB.ACQUIRED true))
      as H.
    cbv zeta in H. destruct H as (H & _).
    exact (H eq_refl eq_refl).
Defined.

(** ** The acquire handler, beyond its timeouts *)

Section AcquireMore.
Import MB Acquire.
Variable E : Env.

Ltac acq_go :=
  cbv beta iota zeta
      delta [bind ret throw get modify try_catch lift_snd swallow when
             var world clock fst snd createLeaseRecord sashi_wait_until_free
             sashi_createInstance sashi_destroyInstance destroyInstance].

Ltac acq_go_light :=
  cbv beta iota zeta
      delta [bind ret throw get modify try_catch lift_snd when
             var world clock fst snd createLeaseRecord sashi_wait_until_free
             sashi_createInstance].

Ltac world_flat :=
  cbv beta iota zeta
      delta [recreateLeaseOffer queueAction queueAction_with
             updateLeaseStatus deleteLeaseRecord getLeaseTxHash
             updateLastIndexRecord set_leases set_lastWatchedLedger
             set_expiryList set_activeInstanceCount set_queue
             set_parked set_uplift set_sashiInstances log_tx
             log_sashi advance_clock addToExpiryList
             leases lastWatchedLedger expiryList
             activeInstanceCount queue parked applyFeeUpliftment
             feeUpliftment sashiInstances ledgerLog sashiLog now].

Ltac world_cbn :=
  cbn [recreateLeaseOffer queueAction queueAction_with
       updateLeaseStatus deleteLeaseRecord
       updateLastIndexRecord set_leases set_lastWatchedLedger
       set_expiryList set_activeInstanceCount set_queue
       set_parked set_uplift set_sashiInstances log_tx
       log_sashi advance_clock addToExpiryList
       leases lastWatchedLedger expiryList
       activeInstanceCount queue parked applyFeeUpliftment
       feeUpliftment sashiInstances ledgerLog sashiLog now].

(** The handler when the daemon is free in time and creates the
    instance in time. *)
Lemma acquire_in_time
      (r : AcquireEvent) (tok : UriToken) (w : World)
      (secs : Z) (res : CreateRes) :
  acquire_valid E r tok w ->
  (inject_Z (sashi_wait E)
   <= inject_Z (leaseAcquireWindow E) * ACQUIRE_LEASE_WAIT_TIMEOUT_THRESHOLD)%Q ->
  sashi_create E (a_uriTokenId r) = (secs, inr res) ->
  (inject_Z (sashi_wait E + secs)
   <= inject_Z (leaseAcquireWindow E) * ACQUIRE_LEASE_TIMEOUT_THRESHOLD)%Q ->
  let created := now w + sashi_wait E + secs in
  let w1 := after_create E r secs res w in
  handleAcquireLease E r w
  = (Ok tt,
     set_queue
       (queue w ++ [acquire_success_action E r tok res created])
       (set_activeInstanceCount
          (activeInstanceCount w + 1)
          (set_expiryList
             (expiryList w
              ++ [mk_expiry (acquireRefId r) (cr_name res) (a_tenant r)
                            (created + 1 * momentSize E)])
             w1))).
Proof.
  intros (Hhost & Htok & Hown & Hamt & Hfresh) Hwait Hcreate Hintime.
  unfold handleAcquireLease, acquire_try. acq_go.
  rewrite Hhost, String.eqb_refl. cbn [negb]. acq_go.
  rewrite Htok. acq_go.
  rewrite Hown, String.eqb_refl. cbn [negb]. acq_go.
  apply Qeq_bool_iff in Hamt. rewrite Hamt. cbn [negb]. acq_go.
  cbn [leases updateLastIndexRecord set_lastWatchedLedger].
  unfold db_insert; cbn [tx_hash]; rewrite Hfresh. acq_go.
  cbn [now advance_clock log_sashi set_leases updateLastIndexRecord
       set_lastWatchedLedger].
  rewrite Z.add_simpl_l.
  rewrite (Qgt_bool_false _ _ Hwait). acq_go.
  rewrite Hcreate. acq_go.
  cbn [now advance_clock log_sashi set_leases updateLastIndexRecord
       set_lastWatchedLedger set_sashiInstances].
  replace (now w + sashi_wait E + secs - now w) with (sashi_wait E + secs)
    by lia.
  rewrite (Qgt_bool_false _ _ Hintime). acq_go.
  unfold after_create, acquire_success_action, getExpiryTimestamp,
         acquiring_row.
  world_flat. reflexivity.
Qed.

(** The acquire-success closure's first run on a ledger that takes its
    two submissions. *)
Lemma acquire_success_runs
      (ref tn : string) (c : CreateRes) (o : option string) (l ts : Z)
      (w : World) :
  thrown (submit_outcome E (length (ledgerLog w))
                         (updateRegInfo (activeInstanceCount w))) = None ->
  thrown (submit_outcome E (S (length (ledgerLog w)))
                         (acquireSuccess ref tn (cr_name c) (cr_ip c))) = None ->
  exists refs,
    run_callback E (CbAcquireSuccess ref tn c o l ts) (None, w)
    = (Ok tt,
       (refs,
        updateAcquiredRecord
          ref l ts
          (log_tx (acquireSuccess ref tn (cr_name c) (cr_ip c))
                  (log_tx (updateRegInfo (activeInstanceCount w)) w)))).
Proof.
  intros H1 H2. cbn [run_callback].
  unfold cb_acquireSuccess, validated_already, submit, ref_hash.
  cb_step. cbn [repeat nth negb andb orb]. cb_step.
  rewrite H1. cb_step.
  destruct (recorded (submit_outcome E (length (ledgerLog w))
                                     (updateRegInfo (activeInstanceCount w))));
    cbn [option_map store nth negb andb]; cb_step;
    cbn [ledgerLog log_tx]; rewrite length_app; cbn [length];
    rewrite Nat.add_1_r, H2; cb_step; eexists; reflexivity.
Qed.

(** X22.  The acquire that goes through.  For an acquire that passes
    validation, with the daemon free within 40% of the acquire window
    and the instance created within 80% of it, the handler submits
    nothing itself: it leaves the new lease row in [Acquiring], records
    the instance's expiry one moment after its creation, counts one
    active instance more and queues the acquire-success closure.  When
    that closure runs on a ledger that takes its two submissions, it
    reports the active instance count and the acquire success, and only
    then turns the row to [Acquired], stamped with the creation time and
    the ledger index. *)
Theorem acquire_in_time_is_recorded_and_confirmed
        (r : AcquireEvent) (tok : UriToken) (w : World)
        (secs : Z) (res : CreateRes) :
  acquire_valid E r tok w ->
  (inject_Z (sashi_wait E) <= inject_Z (leaseAcquireWindow E) * (4 # 10))%Q ->
  sashi_create E (a_uriTokenId r) = (secs, inr res) ->
  (inject_Z (sashi_wait E + secs)
   <= inject_Z (leaseAcquireWindow E) * (8 # 10))%Q ->
  let w' := snd (handleAcquireLease E r w) in
  let created := now w + sashi_wait E + secs in
  (fst (handleAcquireLease E r w) = Ok tt
   /\ leases w' = leases w ++ [acquiring_row r ACQUIRING]
   /\ expiryList w'
      = expiryList w ++ [mk_expiry (acquireRefId r) (cr_name res) (a_tenant r)
                                   (created + momentSize E)]
   /\ activeInstanceCount w' = activeInstanceCount w + 1
   /\ sashiLog w' = sashiLog w ++ [SashiWait; SashiCreate (a_uriTokenId r)]
   /\ ledgerLog w' = ledgerLog w
   /\ queue w' = queue w ++ [acquire_success_action E r tok res created])
  /\ (thrown (submit_outcome E (length (ledgerLog w'))
                             (updateRegInfo (activeInstanceCount w'))) = None ->
      thrown (submit_outcome
                E (S (length (ledgerLog w')))
                (acquireSuccess (acquireRefId r) (a_tenant r) (cr_name res)
                                (cr_ip res))) = None ->
      let w2 := snd (snd (run_callback
                            E (callback (acquire_success_action
                                           E r tok res created))
                            (None, w'))) in
      ledgerLog w2
      = ledgerLog w ++ [updateRegInfo (activeInstanceCount w + 1);
                        acquireSuccess (acquireRefId r) (a_tenant r)
                                       (cr_name res) (cr_ip res)]
      /\ leases w2
         = leases w ++ [mk_lease created (acquireRefId r) (a_tenant r) 1
                                 (a_uriTokenId r)
                                 (Some (lastValidatedLedgerIndex E))
                                 ACQUIRED]).
Proof.
  intros Hvalid Hwait Hcreate Hintime w' created.
  pose proof Hvalid as (_ & _ & _ & _ & Hfresh).
  pose proof (acquire_in_time r tok w secs res Hvalid Hwait Hcreate Hintime)
    as Hrun.
  cbv zeta in Hrun. subst w'. rewrite Hrun. cbn [fst snd].
  split.
  - unfold after_create. world_flat. rewrite Z.mul_1_l.
    repeat split. rewrite <- app_assoc. reflexivity.
  - intros H1 H2. cbn [callback acquire_success_action].
    destruct (acquire_success_runs (acquireRefId r) (a_tenant r) res
                                   (ip_address (URI tok))
                                   (lastValidatedLedgerIndex E) created _
                                   H1 H2) as (refs & ->).
    cbn [snd]. unfold after_create, updateAcquiredRecord. world_cbn.
    split; [rewrite <- app_assoc; reflexivity|].
    rewrite (db_update_new_row
               (acquireRefId r)
               (fun r0 => mk_lease created (tx_hash r0) (tenant_xrp_address r0)
                                   (life_moments r0) (container_name r0)
                                   (Some (lastValidatedLedgerIndex E)) ACQUIRED)
               (leases w) (acquiring_row r ACQUIRING) Hfresh eq_refl).
    reflexivity.
Qed.

(** The handler up to the daemon's error. *)
Lemma acquire_create_fails
      (r : AcquireEvent) (tok : UriToken) (w : World) (secs : Z) (e : Exn) :
  acquire_valid E r tok w ->
  (inject_Z (sashi_wait E)
   <= inject_Z (leaseAcquireWindow E) * ACQUIRE_LEASE_WAIT_TIMEOUT_THRESHOLD)%Q ->
  sashi_create E (a_uriTokenId r) = (secs, inl e) ->
  handleAcquireLease E r w
  = (let '(res, (_, w')) :=
       acquire_catch E r e
         (mk_vars true None (leaseIndex (URI tok)) (ip_address (URI tok)),
          after_failed_create E r secs w) in
     (res, w')).
Proof.
  intros (Hhost & Htok & Hown & Hamt & Hfresh) Hwait Hcreate.
  unfold handleAcquireLease, acquire_try.
  cbv beta iota zeta
      delta [bind ret throw get modify try_catch lift_snd when
             var world clock fst snd createLeaseRecord sashi_wait_until_free
             sashi_createInstance].
  rewrite Hhost, String.eqb_refl. cbn [negb].
  acq_go_light.
  rewrite Htok. acq_go_light.
  rewrite Hown, String.eqb_refl. cbn [negb]. acq_go_light.
  apply Qeq_bool_iff in Hamt. rewrite Hamt. cbn [negb]. acq_go_light.
  cbn [leases updateLastIndexRecord set_lastWatchedLedger].
  unfold db_insert; cbn [tx_hash]; rewrite Hfresh. acq_go_light.
  cbn [now advance_clock log_sashi set_leases updateLastIndexRecord
       set_lastWatchedLedger].
  rewrite Z.add_simpl_l.
  rewrite (Qgt_bool_false _ _ Hwait). acq_go_light.
  rewrite Hcreate. acq_go_light.
  cbn [requestValidated createRes v_leaseIndex instanceOutboundIPAddress].
  reflexivity.
Qed.

(** X23.  A valid acquire whose create request the daemon answers with
    an error is never left half done: the lease row ends [Failed], the
    lease offer is queued for re-creation and the refund
    ([acquireError] with the tenant's amount and the daemon's error
    text, or "invalid_acquire_lease" when there is none) is queued
    behind it.  The daemon is asked to destroy an instance only for an
    [initiate_error], and then the one named in the error; a failure
    of that destroy changes nothing else. *)
Theorem failed_create_is_refunded_and_reoffered
        (r : AcquireEvent) (tok : UriToken) (w : World) (secs : Z) (e : Exn) :
  acquire_valid E r tok w ->
  (inject_Z (sashi_wait E)
   <= inject_Z (leaseAcquireWindow E) * ACQUIRE_LEASE_WAIT_TIMEOUT_THRESHOLD)%Q ->
  sashi_create E (a_uriTokenId r) = (secs, inl e) ->
  0 <= leaseIndex (URI tok) ->
  let out := handleAcquireLease E r w in
  (is_initiate_error e = false ->
   fst out = Ok tt
   /\ leases (snd out) = leases w ++ [acquiring_row r FAILED]
   /\ sashiLog (snd out)
      = sashiLog w ++ [SashiWait; SashiCreate (a_uriTokenId r)]
   /\ sashiInstances (snd out) = sashiInstances w
   /\ expiryList (snd out) = expiryList w
   /\ ledgerLog (snd out) = ledgerLog w
   /\ queue (snd out)
      = queue w ++ [reoffer_action (a_uriTokenId r) tok;
                    acquire_error_action
                      r (content_or e "invalid_acquire_lease")])
  /\ (forall n err,
        is_initiate_error e = true ->
        e_content e = Some (CObj n err) ->
        fst out = Ok tt
        /\ leases (snd out) = leases w ++ [acquiring_row r FAILED]
        /\ sashiLog (snd out)
           = sashiLog w ++ [SashiWait; SashiCreate (a_uriTokenId r);
                            SashiDestroy (Some n)]
        /\ expiryList (snd out) = expiryList w
        /\ ledgerLog (snd out) = ledgerLog w
        /\ queue (snd out)
           = queue w ++ [reoffer_action (a_uriTokenId r) tok;
                         acquire_error_action r (CObj n err)]).
Proof.
  intros Hv Hwait Hcreate Hidx out. subst out.
  rewrite (acquire_create_fails r tok w secs e Hv Hwait Hcreate).
  destruct Hv as (Hhost & Htok & Hown & Hamt & Hfresh).
  assert (Hge : (leaseIndex (URI tok) >=? 0) = true)
    by (apply Z.geb_le; exact Hidx).
  assert (Hrow : db_update (has_tx (Some (acquireRefId r))) (with_status FAILED)
                           (leases w ++ [acquiring_row r ACQUIRING])
                 = leases w ++ [acquiring_row r FAILED]).
  { rewrite (db_update_new_row (acquireRefId r) (with_status FAILED)
                               (leases w) (acquiring_row r ACQUIRING) Hfresh eq_refl).
    reflexivity. }
  unfold acquiring_row in Hrow |- *.
  split.
  - intros Hinit.
    unfold acquire_catch, after_failed_create. acq_go_light.
    cbn [requestValidated createRes v_leaseIndex instanceOutboundIPAddress orb].
    rewrite Hinit, Hge. acq_go_light.
    unfold recreateLeaseOffer, queueAction, queueAction_with, updateLeaseStatus,
      updateLastIndexRecord, reoffer_action, acquire_error_action.
    world_cbn. rewrite Hrow, <- app_assoc, <- app_assoc. cbn [app].
    repeat split; reflexivity.
  - intros n err Hinit Hcontent.
    unfold acquire_catch, after_failed_create. acq_go_light.
    cbn [requestValidated createRes v_leaseIndex instanceOutboundIPAddress orb].
    rewrite Hinit, Hge, Hcontent. acq_go_light.
    unfold swallow, sashi_destroyInstance, content_or. rewrite Hcontent.
    acq_go_light.
    destruct (sashi_destroy E (Some n)) as [ed|];
      unfold recreateLeaseOffer, queueAction, queueAction_with, updateLeaseStatus,
        updateLastIndexRecord, reoffer_action, acquire_error_action;
      acq_go_light; world_cbn;
      rewrite Hrow, <- !app_assoc; cbn [app];
      repeat split; reflexivity.
Qed.

(** X24.  An acquire request that fails validation (sent to another
    host, for a token the ledger does not know, for a token the tenant
    does not own, or with an amount other than the token's) writes no
    lease row, asks nothing of the daemon, re-offers nothing and leaves
    the expiry list alone: all it does is queue the refund with the
    reason "invalid_acquire_lease".  The last watched ledger moves to
    the request's unless the request was for another host. *)
Theorem invalid_acquire_only_queues_the_refund
        (r : AcquireEvent) (w : World) :
  a_host r <> cfg_address E
  \/ getLeaseByIndex E (a_uriTokenId r) = None
  \/ (exists tok,
        getLeaseByIndex E (a_uriTokenId r) = Some tok
        /\ (Owner tok <> a_tenant r
            \/ ~ (a_leaseAmount r == leaseAmount (URI tok))%Q)) ->
  let out := handleAcquireLease E r w in
  fst out = Ok tt
  /\ leases (snd out) = leases w
  /\ sashiLog (snd out) = sashiLog w
  /\ sashiInstances (snd out) = sashiInstances w
  /\ expiryList (snd out) = expiryList w
  /\ activeInstanceCount (snd out) = activeInstanceCount w
  /\ ledgerLog (snd out) = ledgerLog w
  /\ queue (snd out)
     = queue w ++ [acquire_error_action r (CStr "invalid_acquire_lease")]
  /\ lastWatchedLedger (snd out)
     = (if (a_host r =? cfg_address E)%string then a_LedgerIndex r
        else lastWatchedLedger w).
Proof.
  intros Hbad out. subst out.
  unfold handleAcquireLease, acquire_try.
  destruct (String.eqb_spec (a_host r) (cfg_address E)) as [Hhost|Hhost].
  2:{ cbn [negb]. acq_go_light. unfold acquire_catch. acq_go_light.
      cbn [requestValidated createRes v_leaseIndex instanceOutboundIPAddress
           vars_init orb is_initiate_error throw_str e_type e_content
           content_or Z.geb Z.compare].
      acq_go_light. unfold acquire_error_action. world_cbn.
      repeat split; reflexivity. }
  destruct Hbad as [Hbad | [Hnone | (tok & Htok & Hbad)]];
    [contradiction | | ].
  - cbn [negb]. acq_go_light. rewrite Hnone. acq_go_light.
    unfold acquire_catch. acq_go_light.
    cbn [requestValidated createRes v_leaseIndex instanceOutboundIPAddress
         vars_init orb is_initiate_error throw_str e_type e_content
         content_or Z.geb Z.compare].
    acq_go_light. unfold acquire_error_action. world_cbn.
    repeat split; reflexivity.
  - cbn [negb]. acq_go_light. rewrite Htok. acq_go_light.
    destruct (String.eqb_spec (Owner tok) (a_tenant r)) as [Hown|Hown].
    + destruct Hbad as [Hbad|Hbad]; [contradiction|].
      assert (Hne : Qeq_bool (a_leaseAmount r) (leaseAmount (URI tok)) = false).
      { destruct (Qeq_bool (a_leaseAmount r) (leaseAmount (URI tok))) eqn:Hq;
          [|reflexivity].
        exfalso. apply Hbad. apply Qeq_bool_iff. exact Hq. }
      cbn [negb]. acq_go_light. rewrite Hne. cbn [negb]. acq_go_light.
      unfold acquire_catch. acq_go_light.
      cbn [requestValidated createRes v_leaseIndex instanceOutboundIPAddress
           vars_init orb is_initiate_error throw_str e_type e_content
           content_or Z.geb Z.compare].
      acq_go_light. unfold acquire_error_action. world_cbn.
      repeat split; reflexivity.
    + cbn [negb]. acq_go_light.
      unfold acquire_catch. acq_go_light.
      cbn [requestValidated createRes v_leaseIndex instanceOutboundIPAddress
           vars_init orb is_initiate_error throw_str e_type e_content
           content_or Z.geb Z.compare].
      acq_go_light. unfold acquire_error_action. world_cbn.
      repeat split; reflexivity.
Qed.

End AcquireMore.

Lemma failed_create_witness :
  (let out := MB.handleAcquireLease (Acquire.env_failing Acquire.create_error)
                                    MB.acquire_T1 MB.world_empty in
   MB.leases (snd out) = [MB.mk_lease 0 "TXA" "rTENANT" 1 "T1" None MB.FAILED]
   /\ MB.sashiLog (snd out) = [MB.SashiWait; MB.SashiCreate "T1"]
   /\ MB.queue (snd out)
      = [MB.mk_action (MB.CbRecreateLeaseOffer "T1" 0 None false) None 0 5 0;
         MB.mk_action (MB.CbAcquireError "TXA" "rTENANT" (2 # 1)
                                         (MB.CStr "container_start_error"))
                      None 0 5 0])
  /\ (let out := MB.handleAcquireLease (Acquire.env_failing Acquire.initiate_error)
                                       MB.acquire_T1 MB.world_empty in
      MB.leases (snd out) = [MB.mk_lease 0 "TXA" "rTENANT" 1 "T1" None MB.FAILED]
      /\ MB.sashiLog (snd out)
         = [MB.SashiWait; MB.SashiCreate "T1"; MB.SashiDestroy (Some "T1")]
      /\ MB.queue (snd out)
         = [MB.mk_action (MB.CbRecreateLeaseOffer "T1" 0 None false) None 0 5 0;
            MB.mk_action (MB.CbAcquireError "TXA" "rTENANT" (2 # 1)
                                            (MB.CObj "T1" "container_conf_error"))
                         None 0 5 0]).
Proof.
  split.
  - pose proof (failed_create_is_refunded_and_reoffered
                  (Acquire.env_failing Acquire.create_error) MB.acquire_T1
                  (MB.token_T1 "rTENANT") MB.world_empty 1 Acquire.create_error
                  (conj eq_refl (conj eq_refl (conj eq_refl
                     (conj (Qeq_refl _) eq_refl))))
                  ltac:(vm_compute; discriminate) eq_refl
                  ltac:(vm_compute; discriminate)) as H.
    cbv zeta in H. destruct H as (H & _).
    destruct (H eq_refl) as (_ & H1 & H2 & _ & _ & _ & H3).
    cbv zeta. split; [exact H1 | split; [exact H2 | exact H3]].
  - pose proof (failed_create_is_refunded_and_reoffered
                  (Acquire.env_failing Acquire.initiate_error) MB.acquire_T1
                  (MB.token_T1 "rTENANT") MB.world_empty 1 Acquire.initiate_error
                  (conj eq_refl (conj eq_refl (conj eq_refl
                     (conj (Qeq_refl _) eq_refl))))
                  ltac:(vm_compute; discriminate) eq_refl
                  ltac:(vm_compute; discriminate)) as H.
    cbv zeta in H. destruct H as (_ & H).
    destruct (H "T1" "container_conf_error" eq_refl eq_refl)
      as (_ & H1 & H2 & _ & _ & H3).
    cbv zeta. split; [exact H1 | split; [exact H2 | exact H3]].
Defined.

(** The theorem in scenario S1: the daemon free after one second, the
    instance made in one more. *)
Lemma acquire_in_time_witness :
  MB.leases (snd (MB.handleAcquireLease MB.env_fine MB.acquire_T1
                                        MB.world_empty))
  = [MB.mk_lease 0 "TXA" "rTENANT" 1 "T1" None MB.ACQUIRING]
  /\ MB.expiryList (snd (MB.handleAcquireLease MB.env_fine MB.acquire_T1
                                               MB.world_empty))
     = [MB.mk_expiry "TXA" "T1" "rTENANT" 1003602]
  /\ MB.queue (snd (MB.handleAcquireLease MB.env_fine MB.acquire_T1
                                          MB.world_empty))
     = [MB.mk_action
          (MB.CbAcquireSuccess "TXA" "rTENANT"
                               (MB.mk_create_res "T1" "203.0.113.7") None
                               1000 1000002)
          None 0 5 0].
Proof.
  pose proof (acquire_in_time_is_recorded_and_confirmed
                MB.env_fine MB.acquire_T1 (MB.token_T1 "rTENANT")
                MB.world_empty 1 (MB.mk_create_res "T1" "203.0.113.7")
                (conj eq_refl
                      (conj eq_refl
                            (conj eq_refl (conj (Qeq_refl _) eq_refl))))
                ltac:(vm_compute; discriminate) eq_refl
                ltac:(vm_compute; discriminate)) as H.
  cbv zeta in H. destruct H as ((_ & H1 & H2 & _ & _ & _ & H3) & _).
  split; [exact H1 | split; [exact H2 | exact H3]].
Defined.

Lemma invalid_acquire_witness :
  (let out := MB.handleAcquireLease
                MB.env_fine
                (MB.mk_acquire "TXA" "T1" (3 # 1) "rTENANT" "rHOST" 1001)
                MB.world_s1 in
   fst out = MB.Ok tt
   /\ MB.leases (snd out) = MB.leases MB.world_s1
   /\ MB.sashiLog (snd out) = MB.sashiLog MB.world_s1
   /\ MB.queue (snd out)
      = MB.queue MB.world_s1
        ++ [Acquire.acquire_error_action
              (MB.mk_acquire "TXA" "T1" (3 # 1) "rTENANT" "rHOST" 1001)
              (MB.CStr "invalid_acquire_lease")])
  /\ (let out := MB.handleAcquireLease MB.env_unsold MB.acquire_T1
                                       MB.world_empty in
      fst out = MB.Ok tt
      /\ MB.leases (snd out) = MB.leases MB.world_empty
      /\ MB.sashiLog (snd out) = MB.sashiLog MB.world_empty
      /\ MB.queue (snd out)
         = MB.queue MB.world_empty
           ++ [Acquire.acquire_error_action
                 MB.acquire_T1 (MB.CStr "invalid_acquire_lease")]).
Proof.
  split.
  - assert (Hbad :
        MB.a_host (MB.mk_acquire "TXA" "T1" (3 # 1) "rTENANT" "rHOST" 1001)
        <> MB.cfg_address MB.env_fine
        \/ MB.getLeaseByIndex MB.env_fine "T1" = None
        \/ (exists tok,
              MB.getLeaseByIndex MB.env_fine "T1" = Some tok
              /\ (MB.Owner tok <> "rTENANT"
                  \/ ~ (3 # 1 == MB.leaseAmount (MB.URI tok))%Q))).
    { right. right. exists (MB.token_T1 "rTENANT").
      split; [reflexivity | right; vm_compute; discriminate]. }
    pose proof (invalid_acquire_only_queues_the_refund
                  MB.env_fine
                  (MB.mk_acquire "TXA" "T1" (3 # 1) "rTENANT" "rHOST" 1001)
                  MB.world_s1 Hbad) as H.
    cbv zeta in H. destruct H as (H0 & H1 & H2 & _ & _ & _ & _ & H3 & _).
    cbv zeta.
    split; [exact H0 | split; [exact H1 | split; [exact H2 | exact H3]]].
  - assert (Hbad :
        MB.a_host MB.acquire_T1 <> MB.cfg_address MB.env_unsold
        \/ MB.getLeaseByIndex MB.env_unsold "T1" = None
        \/ (exists tok,
              MB.getLeaseByIndex MB.env_unsold "T1" = Some tok
              /\ (MB.Owner tok <> "rTENANT"
                  \/ ~ (2 # 1 == MB.leaseAmount (MB.URI tok))%Q))).
    { right. right. exists (MB.token_T1 "rHOST").
      split; [reflexivity | left; vm_compute; discriminate]. }
    pose proof (invalid_acquire_only_queues_the_refund
                  MB.env_unsold MB.acquire_T1 MB.world_empty Hbad) as H.
    cbv zeta in H. destruct H as (H0 & H1 & H2 & _ & _ & _ & _ & H3 & _).
    cbv zeta.
    split; [exact H0 | split; [exact H1 | split; [exact H2 | exact H3]]].
Defined.

(** ** The extend handler, when it succeeds *)

Section ExtendMore.
Import MB.
Variable E : Env.


(** The loop finds nothing when the container has no entry. *)
Lemma extend_expiry_none (c : string) (m : Z) (l : list ExpiryItem) :
  (forall i, In i l -> containerName i <> c) ->
  extend_expiry E c m l = None.
Proof.
  intros Hl. induction l as [|x l IH]; [reflexivity|].
  cbn [extend_expiry].
  destruct (String.eqb_spec (containerName x) c) as [Hx|Hx].
  - exfalso. apply (Hl x); [left; reflexivity | exact Hx].
  - rewrite IH; [reflexivity|]. intros i Hi. apply Hl. right. exact Hi.
Qed.


(** X26.  An extend for a token none of whose lease rows is [Acquired]
    or [Extended], or whose container has no expiry entry, is refused
    whatever was paid: [extendError] with the whole payment is queued,
    and neither the lease table nor the expiry list changes. *)
Theorem extension_without_a_running_lease_is_refused
        (r : ExtendEvent) (tok : UriToken) (w : World) :
  getLeaseByIndex E (x_uriTokenId r) = Some tok ->
  (forall row, In row (leases w) ->
               container_name row = index tok ->
               is_active (status row) = false)
  \/ (forall i, In i (expiryList w) -> containerName i <> index tok) ->
  let out := handleExtendLease E r w in
  fst out = Ok tt
  /\ leases (snd out) = leases w
  /\ expiryList (snd out) = expiryList w
  /\ queue (snd out) = queue w ++ [extend_error_action r]
  /\ ledgerLog (snd out) = ledgerLog w.
Proof.
  intros Htok Hno out. subst out.
  unfold handleExtendLease, extend_try, content_or, throw_str,
    extend_error_action, queueAction, queueAction_with.
  cbv beta iota zeta delta [bind ret throw get modify try_catch e_content].
  destruct (negb (x_Destination r =? cfg_address E)%string);
    [repeat split; reflexivity|].
  rewrite Htok.
  destruct (negb (Owner tok =? x_tenant r)%string);
    [repeat split; reflexivity|].
  destruct (Qle_bool (leaseAmount (URI tok)) 0); [repeat split; reflexivity|].
  destruct (Qfloor (payment r / leaseAmount (URI tok)) <? 1);
    [repeat split; reflexivity|].
  cbn [updateLastIndexRecord set_lastWatchedLedger leases expiryList].
  destruct (find (fun i => is_active (status i))
                 (filter (has_container (index tok)) (leases w)))
    as [inst|] eqn:Hfind; [|repeat split; reflexivity].
  apply find_some in Hfind. destruct Hfind as (Hin & Hact).
  apply filter_In in Hin. destruct Hin as (Hin & Hc).
  unfold has_container in Hc. apply String.eqb_eq in Hc.
  destruct Hno as [Hno|Hno].
  - rewrite (Hno inst Hin Hc) in Hact. discriminate Hact.
  - rewrite (extend_expiry_none (container_name inst)); [repeat split; reflexivity|].
    rewrite Hc. exact Hno.
Qed.

End ExtendMore.


Lemma extension_refused_witness :
  let out := MB.handleExtendLease MB.env_fine (MB.extend_T1 (5 # 1))
                                  (MB.world_lease MB.DESTROYED false) in
  fst out = MB.Ok tt
  /\ MB.leases (snd out) = MB.leases (MB.world_lease MB.DESTROYED false)
  /\ MB.expiryList (snd out) = MB.expiryList (MB.world_lease MB.DESTROYED false)
  /\ MB.queue (snd out)
     = MB.queue (MB.world_lease MB.DESTROYED false)
       ++ [MB.extend_error_action (MB.extend_T1 (5 # 1))].
Proof.
  assert (Hno :
    (forall row, In row (MB.leases (MB.world_lease MB.DESTROYED false)) ->
                 MB.container_name row = MB.index (MB.token_T1 "rTENANT") ->
                 MB.is_active (MB.status row) = false)
    \/ (forall i, In i (MB.expiryList (MB.world_lease MB.DESTROYED false)) ->
                  MB.containerName i <> MB.index (MB.token_T1 "rTENANT"))).
  { left. intros row [Hrow|[]] _. subst row. reflexivity. }
  pose proof (extension_without_a_running_lease_is_refused
                MB.env_fine (MB.extend_T1 (5 # 1)) (MB.token_T1 "rTENANT")
                (MB.world_lease MB.DESTROYED false) eq_refl Hno) as H.
  cbv zeta in H. destruct H as (H0 & H1 & H2 & H3 & _).
  cbv zeta. split; [exact H0 | split; [exact H1 | split; [exact H2 | exact H3]]].
Defined.

(** ** The pruner on a consistent board *)

Section PruneMore.
Import MB.
Variable E : Env.

Ltac prune_go :=
  cbv beta iota zeta
      delta [bind ret throw get modify try_catch lift_snd when
             on_world decrement_if_active fst snd].

Lemma remove_first_In (p : LeaseRow -> bool) (l : list LeaseRow) (r : LeaseRow) :
  In r (remove_first p l) -> In r l.
Proof.
  induction l as [|x l IH]; [intros []|].
  cbn [remove_first]. destruct (p x).
  - intros H. right. exact H.
  - intros [H|H]; [left; exact H | right; apply IH; exact H].
Qed.

(** Taking out the row of one container leaves the first row of every
    other container in place. *)
Lemma find_remove_other (n m : string) (l : list LeaseRow) :
  n <> m ->
  find (has_container n) (remove_first (has_container m) l)
  = find (has_container n) l.
Proof.
  intros Hnm. induction l as [|x l IH]; [reflexivity|].
  cbn [remove_first find].
  destruct (has_container m x) eqn:Hm.
  - destruct (has_container n x) eqn:Hn; [|reflexivity].
    unfold has_container in Hm, Hn.
    apply String.eqb_eq in Hm. apply String.eqb_eq in Hn. congruence.
  - cbn [find]. destruct (has_container n x); [reflexivity | exact IH].
Qed.

(** An instance whose lease the first loop accepts costs the loop's copy
    of the table that row and nothing else. *)
Lemma prune_instance_kept
      (inst : SashiInstance) (lease : LeaseRow) (ls : list LeaseRow)
      (n : Z) (w : World) :
  find (has_container (name inst)) ls = Some lease ->
  instance_is_orphan E lease (getLeaseByIndex E (name inst)) = false ->
  prune_instance E inst ((ls, n), w)
  = (Ok tt, ((remove_first (has_container (name inst)) ls, n), w)).
Proof.
  intros Hfind Hkeep. unfold prune_instance. prune_go.
  rewrite Hfind. unfold instance_is_orphan in Hkeep. rewrite Hkeep.
  reflexivity.
Qed.

Lemma first_loop_idle (insts : list SashiInstance) :
  forall (ls : list LeaseRow) (n : Z) (w : World),
    NoDup (map name insts) ->
    (forall inst, In inst insts ->
                  exists lease,
                    find (has_container (name inst)) ls = Some lease
                    /\ instance_is_orphan E lease (getLeaseByIndex E (name inst))
                       = false) ->
    exists ls',
      for_each (prune_instance E) insts ((ls, n), w) = (Ok tt, ((ls', n), w))
      /\ (forall r, In r ls' -> In r ls).
Proof.
  induction insts as [|inst insts IH]; intros ls n w Hnd Hall.
  - exists ls. split; [reflexivity | intros r Hr; exact Hr].
  - destruct (Hall inst (or_introl eq_refl)) as (lease & Hfind & Hkeep).
    cbn [map] in Hnd. inversion Hnd as [|? ? Hnotin Hnd']; subst.
    destruct (IH (remove_first (has_container (name inst)) ls) n w Hnd')
      as (ls' & Hrun & Hsub).
    { intros i Hi. destruct (Hall i (or_intror Hi)) as (l & Hl & Hk).
      exists l. split; [|exact Hk].
      rewrite find_remove_other; [exact Hl|].
      intros Heq. apply Hnotin. rewrite <- Heq. apply in_map. exact Hi. }
    exists ls'. split.
    + cbn [for_each]. unfold bind at 1.
      rewrite (prune_instance_kept inst lease ls n w Hfind Hkeep).
      exact Hrun.
    + intros r Hr. apply (remove_first_In _ _ _ (Hsub r Hr)).
Qed.

Lemma second_loop_idle (rows : list LeaseRow) :
  forall (ls : list LeaseRow) (n : Z) (w : World),
    (forall r, In r rows ->
               exists i, In i (sashiInstances w) /\ name i = container_name r) ->
    for_each (prune_lease E) rows ((ls, n), w) = (Ok tt, ((ls, n), w)).
Proof.
  induction rows as [|row rows IH]; intros ls n w Hall; [reflexivity|].
  cbn [for_each]. unfold bind at 1.
  assert (Hrow : prune_lease E row ((ls, n), w) = (Ok tt, ((ls, n), w))).
  { unfold prune_lease. prune_go.
    destruct (filter (fun i => (name i =? container_name row)%string)
                     (sashiInstances w)) as [|i0 l0] eqn:Hf; [|reflexivity].
    exfalso. destruct (Hall row (or_introl eq_refl)) as (i & Hin & Hname).
    assert (Hi : In i (filter (fun i => (name i =? container_name row)%string)
                              (sashiInstances w))).
    { apply filter_In. split; [exact Hin|]. apply String.eqb_eq. exact Hname. }
    rewrite Hf in Hi. exact Hi. }
  rewrite Hrow. apply IH. intros r Hr. apply Hall. right. exact Hr.
Qed.

Lemma NoDup_map_filter (p : SashiInstance -> bool) (l : list SashiInstance) :
  NoDup (map name l) -> NoDup (map name (filter p l)).
Proof.
  induction l as [|x l IH]; intros Hnd; [exact Hnd|].
  cbn [map] in Hnd. inversion Hnd as [|? ? Hnotin Hnd']; subst.
  cbn [filter]. destruct (p x); [|apply IH; exact Hnd'].
  cbn [map]. constructor; [|apply IH; exact Hnd'].
  intros Hin. apply Hnotin. apply in_map_iff in Hin.
  destruct Hin as (y & Hy & Hin). apply filter_In in Hin.
  apply in_map_iff. exists y. split; [exact Hy | exact (proj1 Hin)].
Qed.

(** X27.  On a consistent board the pruner destroys and rewrites
    nothing, at start-up or later: when the instances have distinct
    names, each has a lease row that is neither [Acquiring] nor
    [Destroyed] with a token owned by someone other than the host, and
    every lease row has its instance, the pass asks nothing of the
    daemon, leaves the lease table alone and queues nothing but the
    registry update carrying the number of [Acquired] and [Extended]
    rows. *)
Theorem pruner_leaves_a_consistent_board_alone (isStartup : bool) (w : World) :
  NoDup (map name (sashiInstances w)) ->
  (forall inst, In inst (sashiInstances w) ->
                exists lease,
                  find (has_container (name inst)) (leases w) = Some lease
                  /\ instance_is_orphan E lease (getLeaseByIndex E (name inst))
                     = false) ->
  (forall lease, In lease (leases w) ->
                 exists inst, In inst (sashiInstances w)
                              /\ name inst = container_name lease) ->
  pruneOrphanLeases E isStartup w
  = (Ok tt,
     queueAction
       (CbPrunedRegInfo
          (Z.of_nat (length (filter (fun r => is_active (status r)) (leases w)))))
       w).
Proof.
  intros Hnd Hinst Hlease. unfold pruneOrphanLeases. cbv zeta.
  match goal with
  | |- context [for_each (prune_instance E) (filter ?p (sashiInstances w))] =>
      set (old := p)
  end.
  set (count := Z.of_nat (length (filter (fun r => is_active (status r)) (leases w)))).
  destruct (first_loop_idle (filter old (sashiInstances w)) (leases w) count w)
    as (ls' & Hrun & Hsub).
  { apply NoDup_map_filter. exact Hnd. }
  { intros i Hi. apply filter_In in Hi. apply Hinst. exact (proj1 Hi). }
  unfold bind at 1. rewrite Hrun.
  unfold bind at 1. cbn [fst snd].
  unfold bind at 1.
  rewrite second_loop_idle.
  - prune_go. reflexivity.
  - intros r Hr. apply filter_In in Hr. apply Hlease. apply Hsub.
    exact (proj1 Hr).
Qed.

End PruneMore.

Lemma pruner_idle_witness :
  MB.pruneOrphanLeases MB.env_fine true MB.world_s1
  = (MB.Ok tt, MB.queueAction (MB.CbPrunedRegInfo 1) MB.world_s1).
Proof.
  apply (pruner_leaves_a_consistent_board_alone MB.env_fine true MB.world_s1).
  - repeat constructor. intros [].
  - intros inst [Hi|[]]. subst inst.
    exists (MB.mk_lease 1000000 "TXA" "rTENANT" 1 "T1" (Some 1000) MB.ACQUIRED).
    split; reflexivity.
  - intros lease [Hl|[]]. subst lease.
    exists (MB.mk_sashi "T1" 1000000). split; [left; reflexivity | reflexivity].
Defined.

(** ** The halt detector over whole traces *)

Section HaltTraceFacts.
Import Halt HaltTrace.

Lemma run_snoc (es : list event) (e : event) (st : halt_state) :
  run (es ++ [e]) st = step (run es st) e.
Proof. unfold run. rewrite fold_left_app. reflexivity. Qed.

Lemma detector_ok_more (es : list event) (e : event) (st : halt_state) :
  detector_ok es st -> detector_ok (es ++ [e]) st.
Proof.
  intros (H1 & H2 & H3). split; [exact H1|]. split.
  - intros Hh. destruct (H2 Hh) as (h & Hl & Hin). exists h.
    split; [exact Hl | apply in_or_app; left; exact Hin].
  - intros l Hl. apply in_or_app. left. apply H3. exact Hl.
Qed.

Lemma fire_due_ok (es : list event) (now : Z) (st : halt_state) :
  detector_ok es st -> detector_ok es (fire_due now st).
Proof.
  intros Hok. pose proof Hok as (H1 & H2 & H3). unfold fire_due.
  destruct (graceTimeoutRef st) as [t|] eqn:Ht; [|exact Hok].
  destruct (Qle_bool (deadline t) (inject_Z now)); [|exact Hok].
  split; [intros t0 Hc; discriminate Hc|].
  split; [intros Hc; discriminate Hc | exact H3].
Qed.

Lemma check_ok (es : list event) (now : Z) (st : halt_state) :
  detector_ok es st -> detector_ok es (checkLedgersForHalt now st).
Proof.
  intros Hok. pose proof Hok as (H1 & H2 & H3). unfold checkLedgersForHalt.
  destruct st as [h d g ll].
  cbn [lastLedgerTime xrplHalted graceTimeoutRef lastHaltedTime] in *.
  destruct ll as [l|]; [|exact Hok].
  destruct (now - l >=? haltTimeout * 1000) eqn:Hgap;
    destruct h; cbn [negb];
    destruct g as [t|];
    cbn [xrplHalted graceTimeoutRef lastHaltedTime lastLedgerTime andb];
    destruct (now - l <? haltTimeout * 1000) eqn:Hlt; cbn [andb];
    try exact Hok;
    (split; [|split]);
    cbn [xrplHalted graceTimeoutRef lastHaltedTime lastLedgerTime];
    try exact H3;
    try (intros; first [reflexivity | discriminate]);
    try (apply H2; reflexivity);
    try (exists l; split; [reflexivity | apply H3; reflexivity]).
Qed.

(** X28.  Whatever ledger events and checks reach the detector, in any
    order and at any times: a grace timer is pending only while the
    ledger is flagged halted; while it is flagged the halt is dated, and
    dated from a ledger event that was received; and a detector that
    has seen no ledger event at all is still in its initial state, so
    a ledger silent from the start is never flagged. *)
Theorem halt_detector_invariants (es : list event) :
  let st := run es halt_init in
  (forall t, graceTimeoutRef st = Some t -> xrplHalted st = true)
  /\ (xrplHalted st = true ->
      exists h, lastHaltedTime st = Some h /\ In (Ledger h) es)
  /\ (forallb is_check es = true -> st = halt_init).
Proof.
  cbv zeta. split; [|split].
  - enough (H : detector_ok es (run es halt_init)) by exact (proj1 H).
    induction es as [|e es IH] using rev_ind.
    + repeat split; intros; discriminate.
    + rewrite run_snoc. unfold step.
      apply (detector_ok_more es e) in IH.
      apply (fire_due_ok _ (time_of e)) in IH.
      destruct e as [t|t]; [|apply check_ok; exact IH].
      destruct IH as (H1 & H2 & H3). unfold on_ledger.
      split; [exact H1|]. split; [exact H2|].
      intros l Hl. cbn [lastLedgerTime time_of] in Hl. inversion Hl; subst l.
      apply in_or_app. right. left. reflexivity.
  - enough (H : detector_ok es (run es halt_init)) by exact (proj1 (proj2 H)).
    induction es as [|e es IH] using rev_ind.
    + repeat split; intros; discriminate.
    + rewrite run_snoc. unfold step.
      apply (detector_ok_more es e) in IH.
      apply (fire_due_ok _ (time_of e)) in IH.
      destruct e as [t|t]; [|apply check_ok; exact IH].
      destruct IH as (H1 & H2 & H3). unfold on_ledger.
      split; [exact H1|]. split; [exact H2|].
      intros l Hl. cbn [lastLedgerTime time_of] in Hl. inversion Hl; subst l.
      apply in_or_app. right. left. reflexivity.
  - induction es as [|e es IH] using rev_ind; [reflexivity|].
    intros Hall. rewrite forallb_app in Hall.
    apply andb_true_iff in Hall. destruct Hall as (Hes & He).
    rewrite run_snoc, (IH Hes).
    destruct e as [t|t]; [discriminate He | reflexivity].
Qed.

(** Without a halt flag and a timer a timely check changes nothing. *)
Lemma timely_step (last : option Z) (e : event) (st : halt_state) :
  xrplHalted st = false -> graceTimeoutRef st = None ->
  lastHaltedTime st = None ->
  lastLedgerTime st = last ->
  timely last [e] = true ->
  let st' := step st e in
  xrplHalted st' = false /\ graceTimeoutRef st' = None
  /\ lastHaltedTime st' = None
  /\ lastLedgerTime st'
     = match e with Ledger t => Some t | Check _ => last end.
Proof.
  intros Hh Hg Hd Hl Ht. cbv zeta. unfold step, fire_due. rewrite Hg.
  destruct e as [t|t].
  - unfold on_ledger. cbn [xrplHalted graceTimeoutRef lastHaltedTime lastLedgerTime].
    repeat split; assumption.
  - unfold checkLedgersForHalt. rewrite Hl.
    destruct last as [l|]; [|repeat split; assumption].
    cbn [timely] in Ht. rewrite andb_true_r in Ht.
    assert (Hge : (t - l >=? haltTimeout * 1000) = false).
    { destruct (t - l >=? haltTimeout * 1000) eqn:Hc; [|reflexivity].
      apply Z.geb_le in Hc. apply Z.ltb_lt in Ht. lia. }
    rewrite Hge, Hh. cbn [andb]. repeat split; assumption.
Qed.

(** X29.  As long as every check comes less than 60 s after the ledger
    event before it, the ledger is never flagged halted: no halt is
    dated and no grace timer armed, however long the trace. *)
Theorem no_halt_while_ledgers_flow (es : list event) :
  timely None es = true ->
  xrplHalted (run es halt_init) = false
  /\ graceTimeoutRef (run es halt_init) = None
  /\ lastHaltedTime (run es halt_init) = None.
Proof.
  assert (H : forall es last st,
             xrplHalted st = false -> graceTimeoutRef st = None ->
             lastHaltedTime st = None -> lastLedgerTime st = last ->
             timely last es = true ->
             xrplHalted (run es st) = false
             /\ graceTimeoutRef (run es st) = None
             /\ lastHaltedTime (run es st) = None).
  { clear es. induction es as [|e es IH]; intros last st Hh Hg Hd Hl Ht.
    - repeat split; assumption.
    - assert (He : timely last [e] = true).
      { destruct e as [t|t]; [reflexivity|].
        cbn [timely] in *. apply andb_true_iff in Ht.
        rewrite (proj1 Ht). reflexivity. }
      destruct (timely_step last e st Hh Hg Hd Hl He) as (Hh' & Hg' & Hd' & Hl').
      change (run (e :: es) st) with (run es (step st e)).
      apply (IH _ _ Hh' Hg' Hd' Hl').
      destruct e as [t|t]; [exact Ht|].
      cbn [timely] in Ht. apply andb_true_iff in Ht. exact (proj2 Ht). }
  intros Ht. apply (H es None halt_init); try reflexivity. exact Ht.
Qed.

Lemma no_halt_witness :
  xrplHalted (run steady_events halt_init) = false
  /\ graceTimeoutRef (run steady_events halt_init) = None
  /\ lastHaltedTime (run steady_events halt_init) = None.
Proof.
  apply (no_halt_while_ledgers_flow steady_events). vm_compute. reflexivity.
Defined.

End HaltTraceFacts.

(** ** Connecting, with retries *)

Section ConnectFacts.
Import MB Scheduler.

Lemma total_backoff_step (n : Z) :
  0 <= n ->
  total_backoff (n + 1) = total_backoff n + retry_delay (n + 1).
Proof.
  intros Hn. unfold total_backoff, retry_delay.
  destruct (Z.leb_spec (n + 1) 150), (Z.leb_spec n 150);
    destruct (Z.gtb_spec (n + 1) 150); try lia.
  assert (n = 150) by lia. subst n. reflexivity.
Qed.

Lemma connect_resets (n : nat) (rest : list ConnectOutcome) :
  connect (repeat ActNotFound n ++ rest) 0 0
  = connect rest (Z.of_nat n) (total_backoff (Z.of_nat n)).
Proof.
  assert (H : forall m a w,
             connect (repeat ActNotFound m ++ rest) a w
             = connect rest (a + Z.of_nat m)
                       (w + (total_backoff (a + Z.of_nat m) - total_backoff a))
             \/ a < 0).
  { induction m as [|m IH]; intros a w.
    - left. cbn [repeat app Z.of_nat]. rewrite Z.add_0_r, Z.sub_diag, Z.add_0_r.
      reflexivity.
    - destruct (Z.ltb_spec a 0) as [Hneg|Hpos]; [right; exact Hneg|]. left.
      cbn [repeat app connect]. cbv zeta.
      destruct (IH (a + 1) (w + retry_delay (a + 1))) as [Heq|Hneg]; [|lia].
      rewrite Heq, (total_backoff_step a Hpos).
      replace (a + 1 + Z.of_nat m) with (a + Z.of_nat (S m)) by lia.
      f_equal. lia. }
  destruct (H n 0 0) as [Heq|Hneg]; [|lia].
  rewrite Heq. change (total_backoff 0) with 0.
  rewrite !Z.add_0_l, Z.sub_0_r. reflexivity.
Qed.

(** X30.  The wait between two connection attempts is twice the number
    of attempts made, up to the 150th, and five minutes from then on,
    so never more than five minutes.  When the ledger answers
    [actNotFound] [n] times in a row and then lets the client in, the
    loop ends after [n + 1] attempts and [n (n + 1)] seconds of waiting
    ([22650 + 300 (n - 150)] beyond 150 attempts); any other error ends
    it at once, and a connect that returns false is tried again without
    any wait. *)
Theorem connect_backs_off (n : nat) (e : Exn) :
  (forall a, 1 <= a -> 2 <= retry_delay a <= 300)
  /\ connect (repeat ActNotFound n ++ [Returned true]) 0 0
     = Some (Ok tt, Z.of_nat n + 1, total_backoff (Z.of_nat n))
  /\ connect (repeat ActNotFound n ++ [Failed e]) 0 0
     = Some (Thrown e, Z.of_nat n + 1, total_backoff (Z.of_nat n))
  /\ connect (repeat (Returned false) n ++ [Returned true]) 0 0
     = Some (Ok tt, Z.of_nat n + 1, 0).
Proof.
  split; [|split; [|split]].
  - intros a Ha. unfold retry_delay.
    destruct (Z.gtb_spec a 150); lia.
  - rewrite connect_resets. reflexivity.
  - rewrite connect_resets. reflexivity.
  - assert (H : forall m a w,
               connect (repeat (Returned false) m ++ [Returned true]) a w
               = Some (Ok tt, a + Z.of_nat m + 1, w)).
    { induction m as [|m IH]; intros a w.
      - cbn [repeat app connect Z.of_nat]. rewrite Z.add_0_r. reflexivity.
      - cbn [repeat app connect]. cbv zeta. rewrite IH.
        do 2 f_equal. f_equal. lia. }
    rewrite H. reflexivity.
Qed.

End ConnectFacts.
